(** * Checkpoint selection and tab management

  A shallow embedding of
  - [cli/src/state/atoms/checkpoint.ts]   (module [Checkpoint]),
  - [src/core/tools/manageTabsTool.ts]    (modules [ManageTabs] and
    [TabActions]),
  - [cli/src/ui/components/CheckpointSelectionMenu.tsx] (module [Menu]),
  - the session cost hook and [webview-ui/src/hooks/useReleaseNotes.ts]
    (modules [SessionCost] and [ReleaseNotes]),
  together with the properties the specification states about them.

  JavaScript numbers that hold timestamps, indices and counters are
  integers here ([Z]): the code only adds, subtracts and compares them.
  A number that [parseInt] returns is a [Js.number]: an integer that a
  double can hold, an infinity or [NaN].  JavaScript strings are [string];
  one character stands for one code unit (those below 256). *)

From Stdlib Require Import ZArith List String Ascii Bool Lia.
From Stdlib Require Import Numbers.DecimalString Numbers.DecimalPos.
From stdpp Require Import list sorting.

Import ListNotations.
Local Open Scope string_scope.
Local Open Scope Z_scope.

(** ** JavaScript string primitives used by the sources *)

Module Js.

(** Truthiness of an optional string: [undefined] and [""] are falsy. *)
Definition truthy (o : option string) : bool :=
  match o with
  | None => false
  | Some s => negb (String.eqb s "")
  end.

(** [`${n}`] for an integer [n] that JavaScript prints digit by digit:
    one below 2^53 in absolute value.  (The minutes, hours and days of
    [formatRelativeTime], a line number below 2^53.) *)
Definition numberToString (n : Z) : string :=
  NilZero.string_of_int (Z.to_int n).

(** White space and line terminators among the code units below 256:
    TAB, LF, VT, FF, CR, SP and NBSP. *)
Definition isWhiteSpace (c : ascii) : bool :=
  let n := N_of_ascii c in
  ((9 <=? n) && (n <=? 13) || (n =? 32) || (n =? 160))%N.

Fixpoint trimStart (s : string) : string :=
  match s with
  | String c r => if isWhiteSpace c then trimStart r else s
  | EmptyString => EmptyString
  end.

(** [trimEnd] keeps a character when it is not white space or when
    something survives after it. *)
Fixpoint trimEnd (s : string) : string :=
  match s with
  | EmptyString => EmptyString
  | String c r =>
      match trimEnd r with
      | EmptyString => if isWhiteSpace c then EmptyString else String c EmptyString
      | r' => String c r'
      end
  end.

(** [String.prototype.trim]. *)
Definition trim (s : string) : string := trimEnd (trimStart s).

Fixpoint take (n : nat) (s : string) : string :=
match n, s with
| S n', String c r => String c (take n' r)
| _, _ => EmptyString
end.

Fixpoint drop (n : nat) (s : string) : string :=
match n, s with
| S n', String _ r => drop n' r
| _, _ => s
end.

Definition len (s : string) : Z := Z.of_nat (String.length s).

(** [s.slice(0, e)]: a negative [e] counts from the end of [s]. *)
Definition slice0 (e : Z) (s : string) : string :=
  if e <? 0 then take (Z.to_nat (Z.max (len s + e) 0)) s
  else take (Z.to_nat e) s.

(** [s.lastIndexOf(c)] for a one-character [c], [None] standing for -1. *)
Fixpoint lastIndexOfNat (c : ascii) (s : string) : option nat :=
match s with
| EmptyString => None
| String a r =>
    match lastIndexOfNat c r with
    | Some i => Some (S i)
    | None => if Ascii.eqb a c then Some O else None
    end
end.

Definition lastIndexOf (c : ascii) (s : string) : Z :=
  match lastIndexOfNat c s with
  | Some i => Z.of_nat i
  | None => -1
  end.

(** [s.substring(a, b)] and [s.substring(a)] for [0 <= a <= b]. *)
Definition substring (a b : Z) (s : string) : string :=
  take (Z.to_nat (b - a)) (drop (Z.to_nat a) s).

Definition substringFrom (a : Z) (s : string) : string := drop (Z.to_nat a) s.

(** The value of a digit in the given radix (10 or 16). *)
Definition digitValue (radix : Z) (c : ascii) : option Z :=
  let n := Z.of_N (N_of_ascii c) in
  if (48 <=? n) && (n <=? 57) then Some (n - 48)
  else if (radix =? 16) && (97 <=? n) && (n <=? 102) then Some (n - 87)
  else if (radix =? 16) && (65 <=? n) && (n <=? 70) then Some (n - 55)
  else None.

(** Reads the longest prefix of digits; [acc] is [None] until a digit
    has been read. *)
Fixpoint readDigits (radix : Z) (acc : option Z) (s : string) : option Z :=
match s with
| EmptyString => acc
| String c r =>
    match digitValue radix c with
    | Some d =>
        readDigits radix
          (Some (match acc with Some a => a * radix + d | None => d end)) r
    | None => acc
    end
end.

(** *** Numbers

    A number as [parseInt] gives it and as [parseFileWithLine] passes it
    on: [NaN], an integer that a double holds, or an infinity.  The sign of
    zero is not kept: the sources only compare the number and print it. *)
Inductive number :=
| NaN
| Finite (value : Z)
| Infinity
| NegInfinity.

Definition isNaN (x : number) : bool :=
  match x with
  | NaN => true
  | _ => false
  end.

(** [a < b]: false when either side is [NaN]. *)
Definition ltb (a b : number) : bool :=
  match a with
  | NaN => false
  | Finite x =>
      match b with
      | Finite y => x <? y
      | Infinity => true
      | _ => false
      end
  | Infinity => false
  | NegInfinity =>
      match b with
      | Finite _ | Infinity => true
      | _ => false
      end
  end.

(** Truthiness of a number: [NaN] and 0 are falsy. *)
Definition truthyNumber (x : number) : bool :=
  match x with
  | NaN => false
  | Finite z => negb (z =? 0)
  | _ => true
  end.

(** The Number value of an integer (ECMAScript 6.1.6.1): the nearest
    double, the one with the even significand when two are equally near,
    and an infinity when that is 2^1024 in absolute value.  Below 2^53 every
    integer is a double.  From there on the doubles between [2^e] and
    [2^(e+1)] are the multiples of [ulp = 2^(e-52)], and [q * ulp + r] is
    rounded up when [r] is more than half of [ulp], or half of it with [q]
    odd. *)
Definition roundQuotient (ulp q r : Z) : Z :=
  if (ulp <? 2 * r) || ((2 * r =? ulp) && Z.odd q) then q + 1 else q.

Definition toNumber (z : Z) : number :=
  let a := Z.abs z in
  if a <? 2 ^ 53 then Finite z
  else
    let ulp := 2 ^ (Z.log2 a - 52) in
    let m := roundQuotient ulp (a / ulp) (a mod ulp) * ulp in
    if 2 ^ 1024 <=? m then (if z <? 0 then NegInfinity else Infinity)
    else Finite (Z.sgn z * m).

(** [parseInt(s)] with no radix argument (ECMAScript 19.2.5): leading
    white space is passed over, then a sign, then [0x] or [0X] for radix
    16, then the longest run of digits is read, whatever follows it; no
    digit gives [NaN].  The result is the Number value of the integer read,
    every digit counting, as V8 computes it. *)
Definition readSign (s : string) : Z * string :=
  match s with
  | String c r =>
      if Ascii.eqb c "-" then (-1, r)
      else if Ascii.eqb c "+" then (1, r)
      else (1, s)
  | EmptyString => (1, s)
  end.

Definition readRadix (s : string) : Z * string :=
  match s with
  | String c (String x r) =>
      if Ascii.eqb c "0" && (Ascii.eqb x "x" || Ascii.eqb x "X") then (16, r)
      else (10, s)
  | _ => (10, s)
  end.

Definition parseInt (s : string) : number :=
  let '(sign, s) := readSign (trimStart s) in
  let '(radix, s) := readRadix s in
  match readDigits radix None s with
  | Some n => toNumber (sign * n)
  | None => NaN
  end.

(** *** Printing a number

    [Number::toString] (ECMAScript 6.1.6.1.20) for the numbers above.  From
    2^53 on the digits printed are the fewest that still denote the same
    double, [s] with [k] digits, followed by zeros up to 21 digits in all
    and in exponent form beyond. *)

(** Does the integer [c] have the double [v] as its Number value? *)
Definition roundsTo (v c : Z) : bool :=
  match toNumber c with
  | Finite m => m =? v
  | _ => false
  end.

(** The search for the shortest digits of [v >= 2^53], from [k] digits
    on: [(s, e)] with [s * 10^e] of Number value [v], the nearer to [v] of
    the two candidates with [k] digits, the even one when equally near. *)
Fixpoint shortestFrom (fuel : nat) (k : Z) (v : Z) : Z * Z :=
match fuel with
| O => (v, 0)
| S fuel' =>
    let e := len (numberToString v) - k in
    let lo := v / 10 ^ e in
    let hi := lo + 1 in
    let okLo := roundsTo v (lo * 10 ^ e) in
    let okHi := roundsTo v (hi * 10 ^ e) in
    let dLo := v - lo * 10 ^ e in
    let dHi := hi * 10 ^ e - v in
    if okLo && okHi then
      if dLo <? dHi then (lo, e)
      else if dHi <? dLo then (hi, e)
      else if Z.even lo then (lo, e) else (hi, e)
    else if okLo then (lo, e)
    else if okHi then (hi, e)
    else shortestFrom fuel' (k + 1) v
end.

Fixpoint zeros (n : nat) : string :=
match n with
| O => EmptyString
| S n' => String "0" (zeros n')
end.

(** Drops the zeros a run of digits ends with, keeping its first digit. *)
Fixpoint significantDigits (s : string) : string :=
match s with
| EmptyString => EmptyString
| String c r =>
    match significantDigits r with
    | EmptyString => if Ascii.eqb c "0" then EmptyString else String c EmptyString
    | r' => String c r'
    end
end.

(** The digits of a double [v >= 0] that holds an integer. *)
Definition printInteger (v : Z) : string :=
  if v <? 2 ^ 53 then numberToString v
  else
    let '(s, e) := shortestFrom 17 1 v in
    let digits := numberToString s in
    let n := len digits + e in
    if n <=? 21 then String.append digits (zeros (Z.to_nat e))
    else
      match digits with
      | EmptyString => EmptyString
      | String d rest =>
          let fraction := significantDigits rest in
          String d
            (String.append
               (match fraction with
                | EmptyString => EmptyString
                | _ => String "." fraction
                end)
               (String.append "e+" (numberToString (n - 1))))
      end.

(** [`${x}`] for a number. *)
Definition toString (x : number) : string :=
  match x with
  | NaN => "NaN"
  | Infinity => "Infinity"
  | NegInfinity => "-Infinity"
  | Finite z => if z <? 0 then String "-" (printInteger (- z)) else printInteger z
  end.

End Js.

(** ** cli/src/state/atoms/checkpoint.ts *)

Module Checkpoint.

(** The fields of [ExtensionMessage] that the atoms read. *)
Record ExtensionMessage := mkMessage {
  msg_ts : Z;
  msg_type : string;
  msg_say : option string;
  msg_text : option string;
  msg_suppressMessage : option bool
}.

Record CheckpointInfo := mkCheckpointInfo {
  ts : Z;
  commitHash : string;
  isAutoSaved : bool;
  relativeTime : string;
  userMessagePreview : option string
}.

Inductive RestoreType := both | conversation | code.

Record RestoreTypeOption := mkOption {
  value : RestoreType;
  label : string;
  description : string
}.

Definition DOUBLE_ESC_WINDOW_MS : Z := 500.

Definition RESTORE_TYPE_OPTIONS : list RestoreTypeOption :=
  [ mkOption both "Restore Both" "Restore conversation and code to this checkpoint";
    mkOption conversation "Conversation Only"
      "Restore conversation history only (keep current code)";
    mkOption code "Code Only" "Restore code only (keep current conversation)" ].

(** The primitive atoms, gathered in one store.  [chatMessagesAtom] is the
    atom imported from [extension.js]; the derived atoms and the action
    atoms below read and write these. *)
Record Store := mkStore {
  chatMessagesAtom : list ExtensionMessage;
  checkpointSelectionModeAtom : bool;
  restoreTypeSelectionModeAtom : bool;
  selectedCheckpointIndexAtom : Z;
  selectedRestoreTypeIndexAtom : Z;
  selectedCheckpointAtom : option CheckpointInfo;
  lastEscPressTimeAtom : Z
}.

(** The value every atom is created with. *)
Definition initialStore (msgs : list ExtensionMessage) : Store :=
  mkStore msgs false false 0 0 None 0.

(** [set(atom, v)] for each primitive atom. *)
Definition set_chatMessagesAtom (v : list ExtensionMessage) (s : Store) : Store :=
  mkStore v (checkpointSelectionModeAtom s) (restoreTypeSelectionModeAtom s)
    (selectedCheckpointIndexAtom s) (selectedRestoreTypeIndexAtom s)
    (selectedCheckpointAtom s) (lastEscPressTimeAtom s).
Definition set_checkpointSelectionModeAtom (v : bool) (s : Store) : Store :=
  mkStore (chatMessagesAtom s) v (restoreTypeSelectionModeAtom s)
    (selectedCheckpointIndexAtom s) (selectedRestoreTypeIndexAtom s)
    (selectedCheckpointAtom s) (lastEscPressTimeAtom s).
Definition set_restoreTypeSelectionModeAtom (v : bool) (s : Store) : Store :=
  mkStore (chatMessagesAtom s) (checkpointSelectionModeAtom s) v
    (selectedCheckpointIndexAtom s) (selectedRestoreTypeIndexAtom s)
    (selectedCheckpointAtom s) (lastEscPressTimeAtom s).
Definition set_selectedCheckpointIndexAtom (v : Z) (s : Store) : Store :=
  mkStore (chatMessagesAtom s) (checkpointSelectionModeAtom s) (restoreTypeSelectionModeAtom s)
    v (selectedRestoreTypeIndexAtom s) (selectedCheckpointAtom s) (lastEscPressTimeAtom s).
Definition set_selectedRestoreTypeIndexAtom (v : Z) (s : Store) : Store :=
  mkStore (chatMessagesAtom s) (checkpointSelectionModeAtom s) (restoreTypeSelectionModeAtom s)
    (selectedCheckpointIndexAtom s) v (selectedCheckpointAtom s) (lastEscPressTimeAtom s).
Definition set_selectedCheckpointAtom (v : option CheckpointInfo) (s : Store) : Store :=
  mkStore (chatMessagesAtom s) (checkpointSelectionModeAtom s) (restoreTypeSelectionModeAtom s)
    (selectedCheckpointIndexAtom s) (selectedRestoreTypeIndexAtom s) v (lastEscPressTimeAtom s).
Definition set_lastEscPressTimeAtom (v : Z) (s : Store) : Store :=
  mkStore (chatMessagesAtom s) (checkpointSelectionModeAtom s) (restoreTypeSelectionModeAtom s)
    (selectedCheckpointIndexAtom s) (selectedRestoreTypeIndexAtom s) (selectedCheckpointAtom s) v.

(** *** Checkpoint ledger *)

(** What the ledger takes from its host: the reading of [Date.now()] when
    the derived list is computed, and [toLocaleDateString] for the
    absolute dates of old checkpoints. *)
Record Host := mkHost {
  dateNow : Z;
  toLocaleDateString : Z -> string
}.

Definition plural (n : Z) : string := if n =? 1 then "" else "s".

Definition formatRelativeTime (h : Host) (ts : Z) : string :=
  let now := dateNow h in
  let diffMs := now - ts in
  let diffMins := diffMs / (1000 * 60) in
  let diffHours := diffMs / (1000 * 60 * 60) in
  let diffDays := diffMs / (1000 * 60 * 60 * 24) in
  if diffMins <? 1 then "just now"
  else if diffMins <? 60 then
    String.append (Js.numberToString diffMins)
      (String.append " minute" (String.append (plural diffMins) " ago"))
  else if diffHours <? 24 then
    String.append (Js.numberToString diffHours)
      (String.append " hour" (String.append (plural diffHours) " ago"))
  else if diffDays <? 7 then
    String.append (Js.numberToString diffDays)
      (String.append " day" (String.append (plural diffDays) " ago"))
  else toLocaleDateString h ts.

Definition truncateText (text : string) (maxLength : Z) : string :=
  if Js.len text <=? maxLength then text
  else String.append (Js.slice0 (maxLength - 3) text) "...".

Definition isSay (kind : string) (msg : ExtensionMessage) : bool :=
  String.eqb (msg_type msg) "say" &&
  match msg_say msg with
  | Some k => String.eqb k kind
  | None => false
  end.

(** The loop of [findPrecedingUserMessage], over the messages from the
    last one to the first. *)
Fixpoint findPrecedingFrom (backwards : list ExtensionMessage) (beforeTs : Z)
  : option string :=
match backwards with
| [] => None
| msg :: rest =>
    if beforeTs <=? msg_ts msg then findPrecedingFrom rest beforeTs
    else if isSay "user_feedback" msg && Js.truthy (msg_text msg) then
      match msg_text msg with
      | Some text => Some (truncateText (Js.trim text) 50)
      | None => None
      end
    else findPrecedingFrom rest beforeTs
end.

Definition findPrecedingUserMessage (messages : list ExtensionMessage) (beforeTs : Z)
  : option string :=
  findPrecedingFrom (rev messages) beforeTs.

Definition extractCheckpointInfo (h : Host) (msg : ExtensionMessage)
    (allMessages : list ExtensionMessage) : option CheckpointInfo :=
  if negb (isSay "checkpoint_saved" msg) || negb (Js.truthy (msg_text msg)) then None
  else
    match msg_text msg with
    | None => None
    | Some text =>
        let ts := msg_ts msg in
        Some (mkCheckpointInfo ts text
                (match msg_suppressMessage msg with Some true => true | _ => false end)
                (formatRelativeTime h ts)
                (findPrecedingUserMessage allMessages ts))
    end.

(** [Array.prototype.sort] with the comparator [(a, b) => b.ts - a.ts]:
    a stable sort, most recent first. *)
Fixpoint insertByTsDesc (x : CheckpointInfo) (l : list CheckpointInfo)
  : list CheckpointInfo :=
match l with
| [] => [x]
| y :: ys => if ts x <? ts y then y :: insertByTsDesc x ys else x :: l
end.

Fixpoint sortByTsDesc (l : list CheckpointInfo) : list CheckpointInfo :=
match l with
| [] => []
| x :: xs => insertByTsDesc x (sortByTsDesc xs)
end.

Fixpoint collectCheckpoints (h : Host) (todo allMessages : list ExtensionMessage)
  : list CheckpointInfo :=
match todo with
| [] => []
| msg :: rest =>
    match extractCheckpointInfo h msg allMessages with
    | Some info => info :: collectCheckpoints h rest allMessages
    | None => collectCheckpoints h rest allMessages
    end
end.

(** *** Derived atoms *)

(** The derived list.  jotai computes it when [chatMessagesAtom] changes
    and keeps it until the next change: [h] is the host of that computation,
    and a read under a later clock still sees the [relativeTime] of then. *)
Definition checkpointListAtom (h : Host) (s : Store) : list CheckpointInfo :=
  let messages := chatMessagesAtom s in
  sortByTsDesc (collectCheckpoints h messages messages).

Definition hasCheckpointsAtom (h : Host) (s : Store) : bool :=
  0 <? Z.of_nat (List.length (checkpointListAtom h s)).

Definition checkpointCountAtom (h : Host) (s : Store) : Z :=
  Z.of_nat (List.length (checkpointListAtom h s)).

Definition currentSelectedCheckpointAtom (h : Host) (s : Store) : option CheckpointInfo :=
  let checkpoints := checkpointListAtom h s in
  let index := selectedCheckpointIndexAtom s in
  if (index <? 0) || (Z.of_nat (List.length checkpoints) <=? index) then None
  else nth_error checkpoints (Z.to_nat index).

Definition currentSelectedRestoreTypeAtom (s : Store) : option RestoreTypeOption :=
  let index := selectedRestoreTypeIndexAtom s in
  if (index <? 0) || (Z.of_nat (List.length RESTORE_TYPE_OPTIONS) <=? index) then None
  else nth_error RESTORE_TYPE_OPTIONS (Z.to_nat index).

(** *** Action atoms *)

Definition enterCheckpointSelectionModeAtom (h : Host) (s : Store) : bool * Store :=
  if negb (hasCheckpointsAtom h s) then (false, s)
  else
    let s := set_checkpointSelectionModeAtom true s in
    let s := set_restoreTypeSelectionModeAtom false s in
    let s := set_selectedCheckpointIndexAtom 0 s in
    let s := set_selectedCheckpointAtom None s in
    (true, s).

Definition exitCheckpointSelectionModeAtom (s : Store) : Store :=
  let s := set_checkpointSelectionModeAtom false s in
  let s := set_restoreTypeSelectionModeAtom false s in
  let s := set_selectedCheckpointIndexAtom 0 s in
  let s := set_selectedRestoreTypeIndexAtom 0 s in
  set_selectedCheckpointAtom None s.

Definition confirmCheckpointSelectionAtom (h : Host) (s : Store) : bool * Store :=
  match currentSelectedCheckpointAtom h s with
  | None => (false, s)
  | Some checkpoint =>
      let s := set_selectedCheckpointAtom (Some checkpoint) s in
      let s := set_checkpointSelectionModeAtom false s in
      let s := set_restoreTypeSelectionModeAtom true s in
      let s := set_selectedRestoreTypeIndexAtom 0 s in
      (true, s)
  end.

Definition backToCheckpointSelectionAtom (s : Store) : Store :=
  let s := set_restoreTypeSelectionModeAtom false s in
  let s := set_checkpointSelectionModeAtom true s in
  set_selectedRestoreTypeIndexAtom 0 s.

Definition navigateCheckpointUpAtom (h : Host) (s : Store) : Store :=
  let count := checkpointCountAtom h s in
  if count =? 0 then s
  else
    let currentIndex := selectedCheckpointIndexAtom s in
    let newIndex := if currentIndex =? 0 then count - 1 else currentIndex - 1 in
    set_selectedCheckpointIndexAtom newIndex s.

(** JavaScript's [%] takes the sign of the dividend: [Z.rem]. *)
Definition navigateCheckpointDownAtom (h : Host) (s : Store) : Store :=
  let count := checkpointCountAtom h s in
  if count =? 0 then s
  else
    let currentIndex := selectedCheckpointIndexAtom s in
    let newIndex := Z.rem (currentIndex + 1) count in
    set_selectedCheckpointIndexAtom newIndex s.

Definition navigateRestoreTypeUpAtom (s : Store) : Store :=
  let count := Z.of_nat (List.length RESTORE_TYPE_OPTIONS) in
  let currentIndex := selectedRestoreTypeIndexAtom s in
  let newIndex := if currentIndex =? 0 then count - 1 else currentIndex - 1 in
  set_selectedRestoreTypeIndexAtom newIndex s.

Definition navigateRestoreTypeDownAtom (s : Store) : Store :=
  let count := Z.of_nat (List.length RESTORE_TYPE_OPTIONS) in
  let currentIndex := selectedRestoreTypeIndexAtom s in
  let newIndex := Z.rem (currentIndex + 1) count in
  set_selectedRestoreTypeIndexAtom newIndex s.

(** The states of the selection machine that the two mode atoms encode
    (the restore itself runs outside this file).  Both atoms true is not a
    state of the machine. *)
Inductive Mode := Idle | ChoosingCheckpoint | ChoosingScope.

Definition modeOf (s : Store) : option Mode :=
  match checkpointSelectionModeAtom s, restoreTypeSelectionModeAtom s with
  | false, false => Some Idle
  | true, false => Some ChoosingCheckpoint
  | false, true => Some ChoosingScope
  | true, true => None
  end.

(** *** Gesture detector *)

(** [recordEscPressAtom]; [now] is the reading of [Date.now()]. *)
Definition recordEscPressAtom (now : Z) (s : Store) : bool * Store :=
  let lastPress := lastEscPressTimeAtom s in
  let timeSinceLastPress := now - lastPress in
  let s := set_lastEscPressTimeAtom now s in
  ((0 <? timeSinceLastPress) && (timeSinceLastPress <=? DOUBLE_ESC_WINDOW_MS), s).

(** [resetEscPressTimerAtom]. *)
Definition resetEscPressTimerAtom (s : Store) : Store := set_lastEscPressTimeAtom 0 s.

(** The value [lastEscPressTimeAtom] holds when no press is on record: the
    atom's initial value, which [resetEscPressTimerAtom] writes back. *)
Definition neverPressed : Z := 0.

(** A run of presses at the given clock readings: the classifications,
    in order, and the store afterwards. *)
Fixpoint recordEscPresses (nows : list Z) (s : Store) : list bool * Store :=
  match nows with
  | [] => ([], s)
  | now :: rest =>
      let '(b, s1) := recordEscPressAtom now s in
      let '(bs, s2) := recordEscPresses rest s1 in
      (b :: bs, s2)
  end.

(** The classification as the specification words it: a press is on
    record and the gap lies in the window. *)
Definition doubleAsSpecified (lastPressTime now : Z) : Prop :=
  lastPressTime <> neverPressed /\
  0 < now - lastPressTime <= DOUBLE_ESC_WINDOW_MS.

(** *** Runs of the selection machine *)

Inductive Direction := Up | Down.

Definition navigateCheckpoint (h : Host) (d : Direction) (s : Store) : Store :=
  match d with
  | Up => navigateCheckpointUpAtom h s
  | Down => navigateCheckpointDownAtom h s
  end.

Definition navigateRestoreType (d : Direction) (s : Store) : Store :=
  match d with
  | Up => navigateRestoreTypeUpAtom s
  | Down => navigateRestoreTypeDownAtom s
  end.

(** Any number of moves in the checkpoint list. *)
Definition navigateCheckpoints (h : Host) (ds : list Direction) (s : Store) : Store :=
  fold_left (fun s d => navigateCheckpoint h d s) ds s.

(** What can happen while the scope is being chosen: the transcript, and
    so the derived checkpoint list, is replaced; the scope cursor moves. *)
Inductive ScopeEvent :=
| MessagesReplaced (messages : list ExtensionMessage)
| ScopeMoved (d : Direction).

Definition scopeEvent (e : ScopeEvent) (s : Store) : Store :=
  match e with
  | MessagesReplaced messages => set_chatMessagesAtom messages s
  | ScopeMoved d => navigateRestoreType d s
  end.

Definition scopeEvents (es : list ScopeEvent) (s : Store) : Store :=
  fold_left (fun s e => scopeEvent e s) es s.

(** The messages the loop of [findPrecedingUserMessage] stops at: a
    [user_feedback] say, strictly earlier, with a non-empty text. *)
Definition stopsAt (beforeTs : Z) (msg : ExtensionMessage) : bool :=
  (msg_ts msg <? beforeTs) && isSay "user_feedback" msg && Js.truthy (msg_text msg).


(** Messages and a host for worked examples. *)
Definition checkpointSaved (ts : Z) (hash : string) : ExtensionMessage :=
  mkMessage ts "say" (Some "checkpoint_saved") (Some hash) None.

Definition userFeedback (ts : Z) (text : string) : ExtensionMessage :=
  mkMessage ts "say" (Some "user_feedback") (Some text) None.

Definition exampleHost : Host := mkHost 100000 (fun _ => "Jan 1, 1970").

Definition exampleMessages : list ExtensionMessage :=
  [ userFeedback 5 "fix the parser";
    checkpointSaved 10 "AAAAAAAA";
    userFeedback 15 "now add tests";
    checkpointSaved 20 "BBBBBBBB";
    checkpointSaved 30 "CCCCCCCC" ].

End Checkpoint.

(** ** src/core/tools/manageTabsTool.ts *)

Module ManageTabs.

Record ToolParams := mkParams {
  action : option string;
  file : option string;
  files : option string
}.

Record ToolUse := mkToolUse {
  params : ToolParams;
  partial : bool
}.

(** The part of [Task] the tool writes. *)
Record Task := mkTask {
  consecutiveMistakeCount : Z;
  cwd : string
}.

(** What the tool asks of its collaborators, in the order it asks. *)
Inductive Effect :=
| Ask (kind text : string) (isPartial : bool)
| RecordToolError (tool : string)
| SayAndCreateMissingParamError (tool param : string)
| PushToolResult (content : string)
| HandleOpenAction (file files : option string)
| HandleCloseAction (file : string).

(** Collaborators whose results the tool passes on: the translation
    function [t], the text [sayAndCreateMissingParamError] resolves to, and
    [removeClosingTag]. *)
Record Host := mkHost {
  t : string -> string;
  missingParamError : string -> string -> string;
  removeClosingTag : string -> option string -> string
}.

Definition isAction (name : string) (a : option string) : bool :=
  match a with
  | Some v => String.eqb v name
  | None => false
  end.

(** [["open", "close"].includes(action)] *)
Definition knownAction (a : option string) : bool :=
  isAction "open" a || isAction "close" a.

Definition bumpMistakes (task : Task) : Task :=
  mkTask (consecutiveMistakeCount task + 1) (cwd task).

Definition resetMistakes (task : Task) : Task := mkTask 0 (cwd task).

(** [manageTabsTool]: the task afterwards and the calls made.  The
    collaborators are taken not to throw, so the [catch] branch is not
    entered. *)
Definition manageTabsTool (h : Host) (task : Task) (block : ToolUse)
  : Task * list Effect :=
  let action := action (params block) in
  let file := file (params block) in
  let files := files (params block) in
  if partial block then
    (task, [Ask "command" (removeClosingTag h "action" action) true])
  else if negb (Js.truthy action) || negb (knownAction action) then
    (bumpMistakes task,
     [RecordToolError "manage_tabs";
      SayAndCreateMissingParamError "manage_tabs" "action";
      PushToolResult (missingParamError h "manage_tabs" "action")])
  else if isAction "open" action && negb (Js.truthy file) && negb (Js.truthy files) then
    (bumpMistakes task,
     [RecordToolError "manage_tabs";
      PushToolResult (t h "kilocode:manageTabs.errors.openRequiresFile")])
  else if isAction "close" action && negb (Js.truthy file) then
    (bumpMistakes task,
     [RecordToolError "manage_tabs";
      SayAndCreateMissingParamError "manage_tabs" "file";
      PushToolResult (missingParamError h "manage_tabs" "file")])
  else
    (resetMistakes task,
     if isAction "open" action then [HandleOpenAction file files]
     else
       match file with
       | Some f => [HandleCloseAction f]
       | None => []
       end).

(** The three checks of the "MVP Validation" block, as one predicate. *)
Definition validationFails (block : ToolUse) : bool :=
  let action := action (params block) in
  let file := file (params block) in
  let files := files (params block) in
  negb (Js.truthy action) || negb (knownAction action)
  || (isAction "open" action && negb (Js.truthy file) && negb (Js.truthy files))
  || (isAction "close" action && negb (Js.truthy file)).

Definition performsAction (e : Effect) : bool :=
  match e with
  | HandleOpenAction _ _ | HandleCloseAction _ => true
  | _ => false
  end.

Definition pushesResult (e : Effect) : bool :=
  match e with
  | PushToolResult _ => true
  | _ => false
  end.

(** A validation error in words: the action is missing or is neither
    ["open"] nor ["close"], or the file parameter the action needs is
    missing. *)
Inductive ValidationError (block : ToolUse) : Prop :=
| MissingAction :
    Js.truthy (action (params block)) = false -> ValidationError block
| InvalidAction a :
    action (params block) = Some a -> a <> "open" -> a <> "close" ->
    ValidationError block
| OpenWithoutFile :
    action (params block) = Some "open" ->
    Js.truthy (file (params block)) = false ->
    Js.truthy (files (params block)) = false ->
    ValidationError block
| CloseWithoutFile :
    action (params block) = Some "close" ->
    Js.truthy (file (params block)) = false ->
    ValidationError block.

(** The characters of a string, to say that one occurs in it. *)
Definition occursIn (c : ascii) (s : string) : Prop :=
  In c (list_ascii_of_string s).

Definition exampleHost : Host :=
  mkHost (fun key => key)
         (fun tool param => String.append "missing " param)
         (fun _ v => match v with Some x => x | None => "" end).

Record FileWithLine := mkFileWithLine {
  path : string;
  line : option Js.number
}.

Definition parseFileWithLine (filePath : string) : FileWithLine :=
  let hashIndex := Js.lastIndexOf "#" filePath in
  if hashIndex =? -1 then mkFileWithLine filePath None
  else
    let pathPart := Js.substring 0 hashIndex filePath in
    let linePart := Js.substringFrom (hashIndex + 1) filePath in
    let lineNumber := Js.parseInt linePart in
    if Js.isNaN lineNumber || Js.ltb lineNumber (Js.Finite 1)
    then mkFileWithLine filePath None
    else mkFileWithLine pathPart (Some lineNumber).

End ManageTabs.

(** ** The text of a line number

    The words in which the properties of [parseFileWithLine] say what the
    text after the last ['#'] denotes: how it divides into white space, a
    sign, a radix mark, digits and a rest, the integer its digits denote,
    and the double nearest to an integer. *)

Module Numeral.

(** The white space and the line terminators of ECMAScript among the
    code units below 256: TAB, LF, VT, FF, CR, SP and NBSP. *)
Definition whiteSpace : list ascii :=
  map ascii_of_nat [9; 10; 11; 12; 13; 32; 160]%nat.

Definition blank (s : string) : Prop :=
  Forall (fun c => In c whiteSpace) (list_ascii_of_string s).

(** The place of a character in an alphabet. *)
Fixpoint position (c : ascii) (alphabet : string) : option Z :=
match alphabet with
| EmptyString => None
| String a r => if Ascii.eqb a c then Some 0 else option_map Z.succ (position c r)
end.

(** The value of a digit: its place among the digits of the radix. *)
Definition digit (radix : Z) (c : ascii) : option Z :=
  if radix =? 16 then
    match position c "0123456789abcdef" with
    | Some d => Some d
    | None => position c "0123456789ABCDEF"
    end
  else position c "0123456789".

(** The integer that a run of digits denotes, read after [acc]; [None]
    when a character of the run is no digit of the radix. *)
Fixpoint value (radix acc : Z) (s : string) : option Z :=
match s with
| EmptyString => Some acc
| String c r =>
    match digit radix c with
    | Some d => value radix (acc * radix + d) r
    | None => None
    end
end.

Definition first (s : string) : option ascii :=
  match s with
  | String c _ => Some c
  | EmptyString => None
  end.

(** A text divided into its parts. *)
Record LinePart := mkLinePart {
  blanks : string;
  sign : string;
  mark : string;
  digits : string;
  rest : string
}.

Definition text (p : LinePart) : string :=
  String.append (blanks p)
    (String.append (sign p)
       (String.append (mark p) (String.append (digits p) (rest p)))).

Definition radix (p : LinePart) : Z := if String.eqb (mark p) "" then 10 else 16.

(** The division is the one [parseInt] makes, and the digits denote [n]
    (0 when there is no digit): all the leading white space, then the sign
    if there is one, then the radix mark if there is one, then all the
    digits that follow. *)
Definition Reads (p : LinePart) (n : Z) : Prop :=
  blank (blanks p) /\
  In (sign p) [""; "+"; "-"] /\
  In (mark p) [""; "0x"; "0X"] /\
  value (radix p) 0 (digits p) = Some n /\
  (forall c, first (rest p) = Some c -> digit (radix p) c = None) /\
  (sign p = "" ->
     forall c, first (String.append (mark p) (String.append (digits p) (rest p))) = Some c ->
       ~ In c whiteSpace /\ c <> "+"%char /\ c <> "-"%char) /\
  (mark p = "" ->
     forall r, String.append (digits p) (rest p) <> String "0" (String "x" r) /\
               String.append (digits p) (rest p) <> String "0" (String "X" r)).

(** An integer that a double holds: a significand below 2^53 times a
    power of two, below 2^1024 in absolute value. *)
Definition double (m : Z) : Prop :=
  exists s e, 0 <= s < 2 ^ 53 /\ 0 <= e /\ Z.abs m = s * 2 ^ e /\ Z.abs m < 2 ^ 1024.

(** The 53-bit significand of a double [m >= 2^53]. *)
Definition significand (m : Z) : Z := m / 2 ^ (Z.log2 m - 52).

(** [x] is the Number value of the integer [n >= 0]: the double nearest
    to [n], the one with the even significand when two doubles are equally
    near; [Infinity] from [2^1024 - 2^970] on, half way between the largest
    double and [2^1024]. *)
Definition Nearest (n : Z) (x : Js.number) : Prop :=
  match x with
  | Js.Finite m =>
      n < 2 ^ 1024 - 2 ^ 970 /\ double m /\
      (forall m', double m' -> Z.abs (n - m) <= Z.abs (n - m')) /\
      (forall m', double m' -> m' <> m -> Z.abs (n - m') = Z.abs (n - m) ->
         Z.even (significand m) = true)
  | Js.Infinity => 2 ^ 1024 - 2 ^ 970 <= n
  | _ => False
  end.

End Numeral.

(** ** Runs of the action atoms of checkpoint.ts *)

Module Machine.
Import Checkpoint.

(** The messages [extractCheckpointInfo] turns into a record. *)
Definition isCheckpointMessage (msg : ExtensionMessage) : bool :=
  isSay "checkpoint_saved" msg && Js.truthy (msg_text msg).

(** Most recent first. *)
Definition newerFirst (a b : CheckpointInfo) : Prop := ts b <= ts a.

(** Every write the store can receive: the ten action atoms, and the
    transcript atom being replaced by its owner. *)
Inductive Action :=
| Enter
| Exit
| Confirm
| Back
| MoveCheckpoint (d : Direction)
| MoveRestoreType (d : Direction)
| EscPressed (now : Z)
| EscTimerReset
| TranscriptReplaced (messages : list ExtensionMessage).

Definition act (h : Host) (a : Action) (s : Store) : Store :=
  match a with
  | Enter => snd (enterCheckpointSelectionModeAtom h s)
  | Exit => exitCheckpointSelectionModeAtom s
  | Confirm => snd (confirmCheckpointSelectionAtom h s)
  | Back => backToCheckpointSelectionAtom s
  | MoveCheckpoint d => navigateCheckpoint h d s
  | MoveRestoreType d => navigateRestoreType d s
  | EscPressed now => snd (recordEscPressAtom now s)
  | EscTimerReset => resetEscPressTimerAtom s
  | TranscriptReplaced messages => set_chatMessagesAtom messages s
  end.

(** A run; each action comes with the host (clock) it runs under. *)
Definition run (actions : list (Host * Action)) (s : Store) : Store :=
  fold_left (fun s ha => act (fst ha) (snd ha) s) actions s.

(** Moves in the checkpoint list, each under its own host. *)
Definition moves (ds : list (Host * Direction)) (s : Store) : Store :=
  fold_left (fun s hd => navigateCheckpoint (fst hd) (snd hd) s) ds s.

Definition scopeMoves (ds : list Direction) (s : Store) : Store :=
  fold_left (fun s d => navigateRestoreType d s) ds s.

Definition step (d : Direction) : Z :=
  match d with
  | Up => -1
  | Down => 1
  end.

(** The net number of rows a list of moves goes down. *)
Definition displacement (ds : list Direction) : Z :=
  fold_right (fun d k => step d + k) 0 ds.

(** What every run from the initial store keeps: the two mode atoms are
    not both true, the scope menu is active only with a pending checkpoint,
    the scope cursor indexes one of the three options, and the checkpoint
    cursor is not negative. *)
Definition WellFormed (s : Store) : Prop :=
  modeOf s <> None /\
  (restoreTypeSelectionModeAtom s = true -> selectedCheckpointAtom s <> None) /\
  0 <= selectedRestoreTypeIndexAtom s < 3 /\
  0 <= selectedCheckpointIndexAtom s.

Definition replacesTranscript (a : Action) : bool :=
  match a with
  | TranscriptReplaced _ => true
  | _ => false
  end.

End Machine.

(** ** cli/src/ui/components/CheckpointSelectionMenu.tsx

    The component as the data it renders: the rows of the visible window
    and the two "more" indicators. *)

Module Menu.
Import Checkpoint.

(** What [CheckpointRow] shows: the 1-based number, the first 8 characters
    of the hash, the selection marker, the relative time, the "(auto)" tag
    and the preview when it is a non-empty string. *)
Record Row := mkRow {
  rowNumber : Z;
  shortHash : string;
  isSelected : bool;
  rowRelativeTime : string;
  showsAuto : bool;
  rowPreview : option string
}.

Definition CheckpointRow (checkpoint : CheckpointInfo) (index : Z) (isSelected : bool)
  : Row :=
  mkRow (index + 1) (Js.slice0 8 (commitHash checkpoint)) isSelected
    (relativeTime checkpoint) (isAutoSaved checkpoint)
    (if Js.truthy (userMessagePreview checkpoint) then userMessagePreview checkpoint
     else None).

Record MenuView := mkMenuView {
  moreAbove : option Z;
  rows : list Row;
  moreBelow : option Z
}.

Definition maxVisible : Z := 10.

(** [l.slice(a, b)] for [0 <= a]. *)
Definition arraySlice {A : Type} (a b : Z) (l : list A) : list A :=
  firstn (Z.to_nat (b - a)) (skipn (Z.to_nat a) l).

Definition startIndexOf (count selectedIndex : Z) : Z :=
  Z.max 0 (Z.min (selectedIndex - maxVisible / 2) (count - maxVisible)).

Definition endIndexOf (count startIndex : Z) : Z :=
  Z.min (startIndex + maxVisible) count.

(** [visibleCheckpoints.map((checkpoint, index) => ...)], the first row
    having the absolute index [actualIndex]. *)
Fixpoint rowsFrom (actualIndex selectedIndex : Z) (visible : list CheckpointInfo)
  : list Row :=
match visible with
| [] => []
| checkpoint :: rest =>
    CheckpointRow checkpoint actualIndex (actualIndex =? selectedIndex)
    :: rowsFrom (actualIndex + 1) selectedIndex rest
end.

(** The component; [None] is the [null] it returns for an empty list. *)
Definition CheckpointSelectionMenu (checkpoints : list CheckpointInfo) (selectedIndex : Z)
  : option MenuView :=
  let count := Z.of_nat (List.length checkpoints) in
  if count =? 0 then None
  else
    let startIndex := startIndexOf count selectedIndex in
    let endIndex := endIndexOf count startIndex in
    let visibleCheckpoints := arraySlice startIndex endIndex checkpoints in
    Some (mkMenuView
            (if 0 <? startIndex then Some startIndex else None)
            (rowsFrom startIndex selectedIndex visibleCheckpoints)
            (if endIndex <? count then Some (count - endIndex) else None)).

(** The number an indicator announces, none standing for no hidden row. *)
Definition hidden (indicator : option Z) : Z :=
  match indicator with
  | Some k => k
  | None => 0
  end.

(** A list of records to scroll through. *)
Definition manyCheckpoints (n : nat) : list CheckpointInfo :=
  map (fun k => mkCheckpointInfo (Z.of_nat k) "0123456789abcdef" false "just now" None)
      (seq 0 n).

End Menu.

(** ** The action handlers of manageTabsTool.ts *)

Module TabActions.
Import ManageTabs.
Local Open Scope list_scope.

(** A value passed to the translation function. *)
Inductive Arg :=
| Text (s : string)
| Number (n : Js.number).

(** A tab: the file path of its input when the input is a
    [TabInputText], and its label. *)
Record Tab := mkTab {
  textInput : option string;
  label : string
}.

(** The editor and the other collaborators.  [W] is the state of the
    world the asynchronous calls read and change; a call that can throw
    answers [false], [None] or an error message.  [openTextDocument] answers
    the line count of the document, a count far below 2^53.  [jsonParse]
    stands for the whole [try] block around [JSON.parse] and [map]: the
    strings of the array, or the message of what was thrown. *)
Record Editor (W : Type) := mkEditor {
  isAbsolute : string -> bool;
  resolve : string -> string -> string;
  relative : string -> string -> string;
  stat : W -> string -> bool * W;
  openTextDocument : W -> string -> option Z * W;
  showTextDocument : W -> string -> option Z -> bool * W;
  askApproval : W -> string -> string -> bool * W;
  tabGroups : W -> list (list Tab);
  closeTab : W -> Tab -> option string * W;
  jsonParse : string -> list string + string;
  translate : string -> list (string * Arg) -> string;
  toolResult : string -> string
}.

Arguments isAbsolute {W}.
Arguments resolve {W}.
Arguments relative {W}.
Arguments stat {W}.
Arguments openTextDocument {W}.
Arguments showTextDocument {W}.
Arguments askApproval {W}.
Arguments tabGroups {W}.
Arguments closeTab {W}.
Arguments jsonParse {W}.
Arguments translate {W}.
Arguments toolResult {W}.

(** What the handlers do that can be observed, in order.  [Shown] is a
    call of [showTextDocument], with the line count of the document and the
    0-based line of the selection; [Closed] is a call of [tabGroups.close].
    Either call may still throw. *)
Inductive Effect :=
| AskedApproval (message : string)
| Shown (resolvedPath : string) (lineCount : Z) (selection : option Z)
| Closed (tab : Tab)
| Pushed (content : string).

Definition newline : string := String (ascii_of_nat 10) EmptyString.

(** [parts.join(separator)] *)
Fixpoint join (separator : string) (parts : list string) : string :=
match parts with
| [] => EmptyString
| [p] => p
| p :: rest => String.append p (String.append separator (join separator rest))
end.

(** Truthiness of an optional number: [undefined], [NaN] and 0 are
    falsy. *)
Definition lineGiven (l : option Js.number) : option Js.number :=
  match l with
  | Some n => if Js.truthyNumber n then Some n else None
  | None => None
  end.

(** [f.line ? `${f.path}#${f.line}` : f.path] *)
Definition display (f : FileWithLine) : string :=
  match lineGiven (line f) with
  | Some n => String.append (path f) (String.append "#" (Js.toString n))
  | None => path f
  end.

(** The files of a request: [file] alone when given, else the parsed
    [files]; on the right, the message of the JSON failure. *)
Definition filesToOpen {W : Type} (v : Editor W) (file files : option string)
  : list FileWithLine + string :=
  if Js.truthy file then
    match file with
    | Some f => inl [parseFileWithLine f]
    | None => inl []
    end
  else if Js.truthy files then
    match files with
    | Some fs =>
        match jsonParse v fs with
        | inl parsedFiles => inl (map parseFileWithLine parsedFiles)
        | inr message => inr message
        end
    | None => inl []
    end
  else inl [].

Definition fileNotFound {W : Type} (v : Editor W) (f : FileWithLine) : string :=
  translate v "kilocode:manageTabs.errors.fileNotFound" [("filePath", Text (path f))].

Definition opened {W : Type} (v : Editor W) (f : FileWithLine) : string :=
  match lineGiven (line f) with
  | Some n =>
      translate v "kilocode:manageTabs.success.openedFileWithLine"
        [("filePath", Text (path f)); ("lineNumber", Number n)]
  | None =>
      translate v "kilocode:manageTabs.success.openedFile" [("filePath", Text (path f))]
  end.

(** The message for a line outside the document; it is made for a file
    that has a line. *)
Definition lineOutOfRange {W : Type} (v : Editor W) (f : FileWithLine) (lineCount : Z)
  : string :=
  translate v "kilocode:manageTabs.errors.lineOutOfRange"
    [("lineNumber", Number (match line f with Some n => n | None => Js.NaN end));
     ("filePath", Text (path f));
     ("maxLines", Number (Js.Finite lineCount))].

(** The outcome of the loop over the files: the lists it has built, or
    nothing when it returned from inside. *)
Record Loop (W : Type) := mkLoop {
  world : W;
  effects : list Effect;
  lists : option (list string * list string)
}.

Arguments mkLoop {W}.
Arguments world {W}.
Arguments effects {W}.
Arguments lists {W}.

(** The [for] loop of [handleOpenAction].  A line that passes the range
    test is an integer from 1 to the line count, so [line - 1] is taken on
    integers. *)
Fixpoint openEach {W : Type} (v : Editor W) (cwd : string) (todo : list FileWithLine)
    (results errors : list string) (w : W) (log : list Effect) : Loop W :=
match todo with
| [] => mkLoop w log (Some (results, errors))
| fileInfo :: rest =>
    let resolvedPath :=
      if isAbsolute v (path fileInfo) then path fileInfo
      else resolve v cwd (path fileInfo) in
    let '(found, w) := stat v w resolvedPath in
    if negb found then
      openEach v cwd rest results (errors ++ [fileNotFound v fileInfo]) w log
    else
      let '(document, w) := openTextDocument v w resolvedPath in
      match document with
      | None => openEach v cwd rest results (errors ++ [fileNotFound v fileInfo]) w log
      | Some lineCount =>
          let outOfRange :=
            match lineGiven (line fileInfo) with
            | Some n => Js.ltb n (Js.Finite 1) || Js.ltb (Js.Finite lineCount) n
            | None => false
            end in
          if outOfRange then
            mkLoop w (log ++ [Pushed (lineOutOfRange v fileInfo lineCount)]) None
          else
            let selection :=
              match lineGiven (line fileInfo) with
              | Some (Js.Finite n) => Some (n - 1)
              | _ => None
              end in
            let '(shown, w) := showTextDocument v w resolvedPath selection in
            let log := log ++ [Shown resolvedPath lineCount selection] in
            if shown then
              openEach v cwd rest (results ++ [opened v fileInfo]) errors w log
            else
              openEach v cwd rest results (errors ++ [fileNotFound v fileInfo]) w log
      end
end.

(** The text of the approval question for a bulk request. *)
Definition bulkQuestion {W : Type} (v : Editor W) (toOpen : list FileWithLine) : string :=
  translate v "kilocode:manageTabs.success.bulkOpenApproval"
    [("count", Number (Js.Finite (Z.of_nat (List.length toOpen))));
     ("fileList", Text (join ", " (map display toOpen)))].

Definition handleOpenAction {W : Type} (v : Editor W) (w : W) (cwd : string)
    (file files : option string) : W * list Effect :=
  match filesToOpen v file files with
  | inr message =>
      (w, [Pushed (translate v "kilocode:manageTabs.errors.invalidJsonFiles"
                     [("error", Text message)])])
  | inl toOpen =>
      let question := bulkQuestion v toOpen in
      let '(didApprove, w, log) :=
        if 2 <? Z.of_nat (List.length toOpen) then
          let '(answer, w) := askApproval v w "command" question in
          (answer, w, [AskedApproval question])
        else (true, w, []) in
      if negb didApprove then (w, log)
      else
        let l := openEach v cwd toOpen [] [] w log in
        match lists l with
        | None => (world l, effects l)
        | Some (results, errors) =>
            (world l,
             effects l ++ [Pushed (toolResult v (join newline (results ++ errors)))])
        end
  end.

Definition tabMatches {W : Type} (v : Editor W) (cwd file : string) (tab : Tab) : bool :=
  match textInput tab with
  | Some fsPath => String.eqb (relative v cwd fsPath) file || String.eqb (label tab) file
  | None => false
  end.

Definition handleCloseAction {W : Type} (v : Editor W) (w : W) (cwd file : string)
  : W * list Effect :=
  match List.find (tabMatches v cwd file) (concat (tabGroups v w)) with
  | None =>
      (w, [Pushed (translate v "kilocode:manageTabs.errors.tabNotFound"
                     [("filePath", Text file)])])
  | Some targetTab =>
      let '(failure, w) := closeTab v w targetTab in
      (w,
       [Closed targetTab;
        Pushed
          (match failure with
           | None =>
               toolResult v (translate v "kilocode:manageTabs.success.closedTab"
                               [("filePath", Text file)])
           | Some message =>
               String.append "Failed to close tab '"
                 (String.append file (String.append "': " message))
           end)])
  end.

(** A document shown with no selection, or with one on a line it has. *)
Definition shownInRange (e : Effect) : Prop :=
  match e with
  | Shown _ lineCount (Some k) => 0 <= k < lineCount
  | Shown _ _ None => True
  | _ => False
  end.

Definition isPushed (e : Effect) : bool :=
  match e with
  | Pushed _ => true
  | _ => false
  end.

Definition isShown (e : Effect) : bool :=
  match e with
  | Shown _ _ _ => true
  | _ => false
  end.

Definition isAsked (e : Effect) : bool :=
  match e with
  | AskedApproval _ => true
  | _ => false
  end.

(** An editor over a world that counts the calls made; every file has 20
    lines except the paths starting with "missing". *)
Definition exampleEditor (approves : bool) : Editor nat :=
  mkEditor nat
    (fun p => Js.take 1 p =? "/")%string
    (fun cwd p => String.append cwd (String.append "/" p))
    (fun cwd p => Js.drop (S (String.length cwd)) p)
    (fun w p => (negb (String.eqb (Js.take 7 p) "missing"), S w))
    (fun w p => (Some 20, S w))
    (fun w p sel => (true, S w))
    (fun w kind message => (approves, S w))
    (fun w => [[mkTab None "Settings"; mkTab (Some "/ws/src/a.ts") "a.ts"];
               [mkTab (Some "/ws/src/b.ts") "b.ts"]])
    (fun w tab => (None, S w))
    (fun text => if String.eqb text "three"
                 then inl ["/a.ts"; "/b.ts#7"; "/c.ts#21"]
                 else inr "Unexpected token")
    (fun key args => key)
    (fun output => output).

End TabActions.

(** ** Decimal digits, to relate [`${n}`] and [parseInt] *)

Module Digits.

(** The number a sequence of decimal digits denotes, read after [acc]. *)
Fixpoint uintValue (acc : Z) (d : Decimal.uint) : Z :=
match d with
| Decimal.Nil => acc
| Decimal.D0 d => uintValue (acc * 10 + 0) d
| Decimal.D1 d => uintValue (acc * 10 + 1) d
| Decimal.D2 d => uintValue (acc * 10 + 2) d
| Decimal.D3 d => uintValue (acc * 10 + 3) d
| Decimal.D4 d => uintValue (acc * 10 + 4) d
| Decimal.D5 d => uintValue (acc * 10 + 5) d
| Decimal.D6 d => uintValue (acc * 10 + 6) d
| Decimal.D7 d => uintValue (acc * 10 + 7) d
| Decimal.D8 d => uintValue (acc * 10 + 8) d
| Decimal.D9 d => uintValue (acc * 10 + 9) d
end.

End Digits.

(** ** The session cost hook ([useSessionCost], src/unnamed/part_000) *)

Module SessionCost.
Import Checkpoint.

(** What [JSON.parse(message.text)] followed by the test of [data.cost]
    comes to: an exception (invalid JSON, or [null]), no numeric cost, or
    the cost. *)
Inductive Parsed (F : Type) :=
| Throws
| NoCost
| Cost (cost : F).

Arguments Throws {F}.
Arguments NoCost {F}.
Arguments Cost {F}.

Record SessionCostInfo (F : Type) := mkInfo {
  totalCost : F;
  requestCount : Z;
  hasCostData : bool
}.

Arguments mkInfo {F}.
Arguments totalCost {F}.
Arguments requestCount {F}.
Arguments hasCostData {F}.

(** [message.say === "api_req_started" && message.text] *)
Definition isApiRequest (message : ExtensionMessage) : bool :=
  match msg_say message with
  | Some k => String.eqb k "api_req_started"
  | None => false
  end && Js.truthy (msg_text message).

Section Costs.
(** Costs are JavaScript numbers: their type and their addition are
    left open, with the zero the sum starts from. *)
Context {F : Type} (zero : F) (add : F -> F -> F) (parse : string -> Parsed F).

Definition parsedCost (message : ExtensionMessage) : Parsed F :=
  match msg_text message with
  | Some text => parse text
  | None => NoCost
  end.

(** The loop; [None] when [JSON.parse] or the access to [data.cost]
    throws, which nothing catches. *)
Fixpoint sumCosts (messages : list ExtensionMessage) (totalCost : F) (requestCount : Z)
  : option (F * Z) :=
match messages with
| [] => Some (totalCost, requestCount)
| message :: rest =>
    if isApiRequest message then
      match parsedCost message with
      | Throws => None
      | NoCost => sumCosts rest totalCost requestCount
      | Cost cost => sumCosts rest (add totalCost cost) (requestCount + 1)
      end
    else sumCosts rest totalCost requestCount
end.

Definition useSessionCost (messages : list ExtensionMessage) : option (SessionCostInfo F) :=
  match sumCosts messages zero 0 with
  | Some (totalCost, requestCount) =>
      Some (mkInfo totalCost requestCount (0 <? requestCount))
  | None => None
  end.

(** The messages that add to the sum, and what they add. *)
Definition counted (message : ExtensionMessage) : bool :=
  isApiRequest message &&
  match parsedCost message with
  | Cost _ => true
  | _ => false
  end.

Definition fails (message : ExtensionMessage) : bool :=
  isApiRequest message &&
  match parsedCost message with
  | Throws => true
  | _ => false
  end.

Fixpoint costsOf (messages : list ExtensionMessage) : list F :=
match messages with
| [] => []
| message :: rest =>
    if isApiRequest message then
      match parsedCost message with
      | Cost cost => cost :: costsOf rest
      | _ => costsOf rest
      end
    else costsOf rest
end.

End Costs.

(** Costs in tenths of a cent, for a worked example. *)
Definition exampleParse (text : string) : Parsed Z :=
  if String.eqb text "{" then Throws
  else if String.eqb text "{}" then NoCost
  else Cost (Js.len text).

Definition apiRequest (ts : Z) (text : string) : ExtensionMessage :=
  mkMessage ts "say" (Some "api_req_started") (Some text) None.

End SessionCost.

(** ** webview-ui/src/hooks/useReleaseNotes.ts *)

Module ReleaseNotes.

Section Notes.
(** The type of a release note is declared elsewhere. *)
Context {ReleaseNote : Type}.

Record ReleaseData := mkReleaseData {
  currentVersion : string;
  releases : list ReleaseNote
}.

(** The module-level cache and the [loading] state of the hook. *)
Record State := mkState {
  releasesCache : option ReleaseData;
  loading : bool
}.

Definition fallback : ReleaseData := mkReleaseData "0.0.0" [].

(** [loadReleases], for calls that do not overlap; [imported] is what the
    dynamic import resolves to, [None] when it fails.  Returns the data, the
    state afterwards and the calls of [setLoading] in order. *)
Definition loadReleases (imported : option ReleaseData) (s : State)
  : ReleaseData * State * list bool :=
  match releasesCache s with
  | Some cached => (cached, s, [])
  | None =>
      let data :=
        match imported with
        | Some data => data
        | None => fallback
        end in
      (data, mkState (Some data) false, [true; false])
  end.

(** [lastViewedReleaseVersion || "0.0.0"] *)
Definition lastViewedOr (lastViewedReleaseVersion : option string) : string :=
  match lastViewedReleaseVersion with
  | Some version => if String.eqb version "" then "0.0.0" else version
  | None => "0.0.0"
  end.

Definition hasUnviewedReleases (imported : option ReleaseData)
    (lastViewedReleaseVersion : option string) (s : State) : bool * State :=
  let '(data, s, _) := loadReleases imported s in
  let lastViewed := lastViewedOr lastViewedReleaseVersion in
  (String.eqb lastViewed "0.0.0" || negb (String.eqb (currentVersion data) lastViewed), s).

(** The message [markAsViewed] posts: its type, key and value. *)
Definition markAsViewed (version : string) : string * string * string :=
  ("updateGlobalState", "lastViewedReleaseVersion", version).

(** What the hook returns besides its functions. *)
Definition shownReleases (s : State) : list ReleaseNote :=
  match releasesCache s with
  | Some data => releases data
  | None => []
  end.

Definition shownVersion (s : State) : string :=
  match releasesCache s with
  | Some data => if String.eqb (currentVersion data) "" then "0.0.0" else currentVersion data
  | None => "0.0.0"
  end.

End Notes.

Arguments ReleaseData : clear implicits.
Arguments State : clear implicits.

End ReleaseNotes.

(** * Properties *)

(** ** Gesture detector *)

Section GestureDetector.
Import Checkpoint.

Lemma last_cons_default (now d : Z) (rest : list Z) :
  List.last (now :: rest) d = List.last rest now.
Proof.
  revert now d. induction rest as [|x rest IH]; intros now d; [reflexivity|].
  change (List.last (now :: x :: rest) d) with (List.last (x :: rest) d).
  now rewrite !IH.
Qed.

Lemma recordEscPress_fst (now : Z) (s : Store) :
  fst (recordEscPressAtom now s) = true <->
  0 < now - lastEscPressTimeAtom s <= DOUBLE_ESC_WINDOW_MS.
Proof.
  unfold recordEscPressAtom; cbn [fst].
  rewrite andb_true_iff, Z.ltb_lt, Z.leb_le. tauto.
Qed.

Lemma recordEscPresses_last (earlier : list Z) (s0 : Store) :
  lastEscPressTimeAtom (snd (recordEscPresses earlier s0)) =
  List.last earlier (lastEscPressTimeAtom s0).
Proof.
  revert s0. induction earlier as [|now rest IH]; intros s0; [reflexivity|].
  rewrite last_cons_default. cbn [recordEscPresses].
  destruct (recordEscPressAtom now s0) as [b s1] eqn:E1.
  specialize (IH s1).
  destruct (recordEscPresses rest s1) as [bs s2]; cbn [snd] in *.
  rewrite IH. f_equal.
  unfold recordEscPressAtom in E1. injection E1 as _ <-. reflexivity.
Qed.

(** What one press does, whatever the clock: after any run of earlier
    presses the stored time is that of the latest press (or the starting
    value if there was none); the next press at [now] is classified double
    exactly when [0 < now - lastEscPressTimeAtom <= 500], single exactly
    when the gap exceeds the window or [now] is not later than the stored
    time; and the stored time becomes [now] either way, nothing else in the
    store changing. *)
Lemma recordEscPress_window (s0 : Store) (earlier : list Z) (now : Z) :
  let s := snd (recordEscPresses earlier s0) in
  let r := recordEscPressAtom now s in
  lastEscPressTimeAtom s = List.last earlier (lastEscPressTimeAtom s0) /\
  (fst r = true <-> 0 < now - lastEscPressTimeAtom s <= DOUBLE_ESC_WINDOW_MS) /\
  (fst r = false <->
     DOUBLE_ESC_WINDOW_MS < now - lastEscPressTimeAtom s \/ now <= lastEscPressTimeAtom s) /\
  snd r = set_lastEscPressTimeAtom now s /\
  lastEscPressTimeAtom (snd r) = now.
Proof.
  intros s r. split; [apply recordEscPresses_last|].
  split; [apply recordEscPress_fst|].
  split; [|split; reflexivity].
  pose proof (recordEscPress_fst now s) as H. fold r in H.
  destruct (fst r).
  - split; [discriminate|]. intros Hgap. apply proj1 in H.
    specialize (H eq_refl). lia.
  - split; [|reflexivity]. intros _.
    destruct (Z_le_gt_dec now (lastEscPressTimeAtom s)) as [Hle|Hgt]; [now right|].
    left. destruct (Z_le_gt_dec (now - lastEscPressTimeAtom s) DOUBLE_ESC_WINDOW_MS) as [Hin|Hout].
    + apply proj2 in H. assert (false = true) by (apply H; lia). discriminate.
    + lia.
Qed.

(** The code has no test of its own for the stored value 0.  On a clock
    that reads more than 500, the plain comparison already tells a first
    press from a second one. *)
Lemma recordEscPress_agrees_beyond_window (s : Store) (now : Z) :
  DOUBLE_ESC_WINDOW_MS < now ->
  (fst (recordEscPressAtom now s) = true <-> doubleAsSpecified (lastEscPressTimeAtom s) now).
Proof.
  intros Hnow. rewrite recordEscPress_fst. unfold doubleAsSpecified, neverPressed.
  split; [|tauto]. intros Hgap. split; [|exact Hgap]. lia.
Qed.

Lemma last_beyond_window (earlier : list Z) (d : Z) :
  Forall (fun t => DOUBLE_ESC_WINDOW_MS < t) earlier -> earlier <> [] ->
  DOUBLE_ESC_WINDOW_MS < List.last earlier d.
Proof.
  intros Hall Hne. destruct earlier as [|t rest]; [congruence|].
  rewrite last_cons_default. clear Hne.
  revert t Hall. induction rest as [|x rest IH]; intros t Hall.
  - now inversion Hall.
  - rewrite last_cons_default. apply IH. now inversion Hall.
Qed.

(** C1: [Date.now()] counts the milliseconds since 1970, so every reading
    it gives is beyond the window of 500.  On such a clock, after any run of
    earlier presses: the stored time is the 'never' value 0 exactly as long
    as no press has been recorded since it was put there; a press at [now] is
    classified double exactly when a press is on record (the stored time is
    not the 'never' value) and [0 < now - lastPressTime <= 500]; it is
    classified single exactly when [now - lastPressTime > 500] or
    [now <= lastPressTime]; and the stored time becomes [now] after the call,
    double or not, nothing else in the store changing. *)
Theorem recordEscPress_double_press (s0 : Store) (earlier : list Z) (now : Z) :
  let s := snd (recordEscPresses earlier s0) in
  let r := recordEscPressAtom now s in
  Forall (fun t => DOUBLE_ESC_WINDOW_MS < t) earlier ->
  DOUBLE_ESC_WINDOW_MS < now ->
  lastEscPressTimeAtom s = List.last earlier (lastEscPressTimeAtom s0) /\
  (earlier <> [] -> lastEscPressTimeAtom s <> neverPressed) /\
  (lastEscPressTimeAtom s0 = neverPressed ->
     (lastEscPressTimeAtom s = neverPressed <-> earlier = [])) /\
  (fst r = true <-> doubleAsSpecified (lastEscPressTimeAtom s) now) /\
  (fst r = false <->
     DOUBLE_ESC_WINDOW_MS < now - lastEscPressTimeAtom s \/ now <= lastEscPressTimeAtom s) /\
  snd r = set_lastEscPressTimeAtom now s /\
  lastEscPressTimeAtom (snd r) = now.
Proof.
  intros s r Hearlier Hnow.
  destruct (recordEscPress_window s0 earlier now) as (Hlast & _ & Hsingle & Hstore & Hset).
  fold s in Hlast, Hsingle, Hstore, Hset. fold r in Hsingle, Hstore, Hset.
  assert (Hrec : earlier <> [] -> lastEscPressTimeAtom s <> neverPressed).
  { intros Hne. rewrite Hlast.
    pose proof (last_beyond_window earlier (lastEscPressTimeAtom s0) Hearlier Hne) as H.
    unfold neverPressed, DOUBLE_ESC_WINDOW_MS in *. lia. }
  split; [exact Hlast|]. split; [exact Hrec|]. split.
  { intros Hs0. split.
    - intros Hnever. destruct earlier as [|t rest]; [reflexivity|].
      exfalso. now apply Hrec.
    - intros ->. exact Hs0. }
  split; [now apply recordEscPress_agrees_beyond_window|].
  split; [exact Hsingle|]. split; [exact Hstore | exact Hset].
Qed.

Lemma recordEscPress_double_press_witness :
  let s := snd (recordEscPresses [1000; 1300] (initialStore [])) in
  Forall (fun t => DOUBLE_ESC_WINDOW_MS < t) [1000; 1300] /\
  DOUBLE_ESC_WINDOW_MS < 1600 /\
  lastEscPressTimeAtom s = 1300 /\
  doubleAsSpecified (lastEscPressTimeAtom s) 1600 /\
  fst (recordEscPressAtom 1600 s) = true /\
  fst (recordEscPressAtom 1000 (initialStore [])) = false.
Proof.
  intros s.
  assert (Hearlier : Forall (fun t => DOUBLE_ESC_WINDOW_MS < t) [1000; 1300])
    by (repeat constructor).
  assert (Hnow : DOUBLE_ESC_WINDOW_MS < 1600) by reflexivity.
  pose proof (recordEscPress_double_press (initialStore []) [1000; 1300] 1600 Hearlier Hnow) as H.
  cbv zeta in H. fold s in H. destruct H as (Hlast & _ & _ & Hdouble & _).
  assert (Hspec : doubleAsSpecified (lastEscPressTimeAtom s) 1600).
  { rewrite Hlast. cbn. unfold doubleAsSpecified, neverPressed, DOUBLE_ESC_WINDOW_MS. lia. }
  split; [exact Hearlier|]. split; [exact Hnow|]. split; [exact Hlast|].
  split; [exact Hspec|]. split; [exact (proj2 Hdouble Hspec)|].
  pose proof (recordEscPress_double_press (initialStore []) [] 1000 (List.Forall_nil _) eq_refl) as H0.
  cbv zeta in H0. destruct H0 as (_ & _ & _ & _ & Hsingle & _).
  apply (proj2 Hsingle). left. cbn. unfold DOUBLE_ESC_WINDOW_MS. lia.
Defined.

(** The premise on the clock is what stands for the test of the 'never'
    value: on a clock set back to within 500 ms of 1970 the first press
    would be taken for a second one. *)
Lemma recordEscPress_first_press_double :
  let s := initialStore [] in
  lastEscPressTimeAtom s = neverPressed /\
  fst (recordEscPressAtom 300 s) = true /\
  ~ doubleAsSpecified (lastEscPressTimeAtom s) 300.
Proof.
  cbn. repeat split. unfold doubleAsSpecified. intros [Hne _]. now apply Hne.
Qed.

End GestureDetector.

(** ** Selection state machine *)

Section SelectionMachine.
Import Checkpoint.
Variable h : Host.

(** The derived list depends on the transcript only. *)
Lemma checkpointList_same_messages (s s' : Store) :
  chatMessagesAtom s' = chatMessagesAtom s -> checkpointListAtom h s' = checkpointListAtom h s.
Proof. unfold checkpointListAtom. now intros ->. Qed.

Lemma hasCheckpoints_nonempty (s : Store) :
  hasCheckpointsAtom h s = true <-> checkpointListAtom h s <> [].
Proof.
  unfold hasCheckpointsAtom. rewrite Z.ltb_lt.
  destruct (checkpointListAtom h s) as [|c l]; cbn [List.length].
  - split; [lia | congruence].
  - split; [discriminate | lia].
Qed.

Lemma navigateRestoreType_pending (d : Direction) (s : Store) :
  selectedCheckpointAtom (navigateRestoreType d s) = selectedCheckpointAtom s.
Proof. now destruct d. Qed.

Lemma scopeEvents_pending (es : list ScopeEvent) (s : Store) :
  selectedCheckpointAtom (scopeEvents es s) = selectedCheckpointAtom s.
Proof.
  revert s. induction es as [|e es IH]; intros s; [reflexivity|].
  cbn [scopeEvents fold_left]. fold (scopeEvents es (scopeEvent e s)).
  rewrite IH. destruct e as [messages|d]; [reflexivity|].
  apply navigateRestoreType_pending.
Qed.

Lemma navigateCheckpoint_scope_cursor (d : Direction) (s : Store) :
  selectedRestoreTypeIndexAtom (navigateCheckpoint h d s) = selectedRestoreTypeIndexAtom s.
Proof.
  destruct d; cbn [navigateCheckpoint];
    unfold navigateCheckpointUpAtom, navigateCheckpointDownAtom;
    destruct (checkpointCountAtom h s =? 0); reflexivity.
Qed.

Lemma navigateCheckpoints_scope_cursor (ds : list Direction) (s : Store) :
  selectedRestoreTypeIndexAtom (navigateCheckpoints h ds s) = selectedRestoreTypeIndexAtom s.
Proof.
  revert s. induction ds as [|d ds IH]; intros s; [reflexivity|].
  cbn [navigateCheckpoints fold_left]. fold (navigateCheckpoints h ds (navigateCheckpoint h d s)).
  rewrite IH. apply navigateCheckpoint_scope_cursor.
Qed.

Lemma confirm_scope_cursor (s : Store) :
  selectedRestoreTypeIndexAtom s = 0 ->
  selectedRestoreTypeIndexAtom (snd (confirmCheckpointSelectionAtom h s)) = 0.
Proof.
  intros Hs. unfold confirmCheckpointSelectionAtom.
  now destruct (currentSelectedCheckpointAtom h s).
Qed.

(** C3, as the code has it: the cancel transition from ChoosingScope puts
    the machine in ChoosingCheckpoint with the scope cursor at 0, and leaves
    the checkpoint cursor and the pending checkpoint as they were; the scope
    cursor is still 0 after any moves in the checkpoint list and after the
    next confirm, so on the next entry into ChoosingScope. *)
Theorem backToCheckpointSelection_cursors (s : Store) (moves : list Direction) :
  let s1 := backToCheckpointSelectionAtom s in
  let s2 := navigateCheckpoints h moves s1 in
  modeOf s1 = Some ChoosingCheckpoint /\
  selectedRestoreTypeIndexAtom s1 = 0 /\
  selectedCheckpointIndexAtom s1 = selectedCheckpointIndexAtom s /\
  selectedCheckpointAtom s1 = selectedCheckpointAtom s /\
  selectedRestoreTypeIndexAtom s2 = 0 /\
  selectedRestoreTypeIndexAtom (snd (confirmCheckpointSelectionAtom h s2)) = 0.
Proof.
  intros s1 s2. repeat split.
  - unfold s2. now rewrite navigateCheckpoints_scope_cursor.
  - apply confirm_scope_cursor. unfold s2.
    now rewrite navigateCheckpoints_scope_cursor.
Qed.

(** C4, as the code has it: a successful entry puts the machine in
    ChoosingCheckpoint with the checkpoint cursor at 0 and no pending
    checkpoint, whatever these held before, and leaves the scope cursor as
    it was; the scope cursor is 0 after the entry when the earlier session
    ended through [exitCheckpointSelectionModeAtom]. *)
Theorem enterCheckpointSelectionMode_resets (s : Store) :
  hasCheckpointsAtom h s = true ->
  let r := enterCheckpointSelectionModeAtom h s in
  fst r = true /\
  modeOf (snd r) = Some ChoosingCheckpoint /\
  selectedCheckpointIndexAtom (snd r) = 0 /\
  selectedCheckpointAtom (snd r) = None /\
  selectedRestoreTypeIndexAtom (snd r) = selectedRestoreTypeIndexAtom s /\
  let r' := enterCheckpointSelectionModeAtom h (exitCheckpointSelectionModeAtom s) in
  fst r' = true /\
  selectedCheckpointIndexAtom (snd r') = 0 /\
  selectedRestoreTypeIndexAtom (snd r') = 0 /\
  selectedCheckpointAtom (snd r') = None.
Proof.
  intros Hhas.
  assert (Hexit : hasCheckpointsAtom h (exitCheckpointSelectionModeAtom s) = true).
  { unfold hasCheckpointsAtom in *.
    now rewrite (checkpointList_same_messages s (exitCheckpointSelectionModeAtom s)). }
  cbv zeta. unfold enterCheckpointSelectionModeAtom. rewrite Hhas, Hexit. cbn.
  repeat split.
Qed.

(** C5: with no checkpoint in the list the attempt to enter selection
    mode returns false and leaves the whole store as it is, so the machine
    stays where it was and neither mode atom becomes true; and the outcome is
    the same whatever the checkpoint cursor holds, so the cursor is not
    consulted. *)
Theorem enterCheckpointSelectionMode_no_checkpoints (s : Store) :
  checkpointListAtom h s = [] ->
  enterCheckpointSelectionModeAtom h s = (false, s) /\
  modeOf (snd (enterCheckpointSelectionModeAtom h s)) = modeOf s /\
  forall cursor : Z,
    enterCheckpointSelectionModeAtom h (set_selectedCheckpointIndexAtom cursor s) =
    (false, set_selectedCheckpointIndexAtom cursor s).
Proof.
  intros Hnil.
  assert (Hgen : forall s', chatMessagesAtom s' = chatMessagesAtom s ->
                   enterCheckpointSelectionModeAtom h s' = (false, s')).
  { intros s' Hm. unfold enterCheckpointSelectionModeAtom, hasCheckpointsAtom.
    now rewrite (checkpointList_same_messages s s' Hm), Hnil. }
  split; [now apply Hgen|]. split; [now rewrite Hgen|].
  intros cursor. now apply Hgen.
Qed.

Lemma nth_error_in_range (l : list CheckpointInfo) (i : Z) :
  0 <= i < Z.of_nat (List.length l) ->
  exists c, nth_error l (Z.to_nat i) = Some c.
Proof.
  intros Hi. destruct (nth_error l (Z.to_nat i)) as [c|] eqn:E; [now exists c|].
  apply nth_error_None in E. lia.
Qed.

(** C6: with the cursor inside the checkpoint list, confirm succeeds,
    puts the machine in ChoosingScope with the scope cursor at 0, and stores
    as pending checkpoint the record the list holds at the cursor at that
    moment; the stored record stays the same through any later replacement
    of the transcript (hence of the derived list) and any move of the scope
    cursor. *)
Theorem confirmCheckpointSelection_freezes (s : Store) :
  0 <= selectedCheckpointIndexAtom s < checkpointCountAtom h s ->
  exists c,
    nth_error (checkpointListAtom h s) (Z.to_nat (selectedCheckpointIndexAtom s)) = Some c /\
    let r := confirmCheckpointSelectionAtom h s in
    fst r = true /\
    modeOf (snd r) = Some ChoosingScope /\
    selectedRestoreTypeIndexAtom (snd r) = 0 /\
    selectedCheckpointAtom (snd r) = Some c /\
    forall later : list ScopeEvent,
      selectedCheckpointAtom (scopeEvents later (snd r)) = Some c.
Proof.
  intros Hi. unfold checkpointCountAtom in Hi.
  destruct (nth_error_in_range _ _ Hi) as [c Hc].
  exists c. split; [exact Hc|].
  assert (Hcur : currentSelectedCheckpointAtom h s = Some c).
  { unfold currentSelectedCheckpointAtom.
    replace (selectedCheckpointIndexAtom s <? 0) with false by (symmetry; apply Z.ltb_ge; lia).
    replace (Z.of_nat (List.length (checkpointListAtom h s)) <=? selectedCheckpointIndexAtom s)
      with false by (symmetry; apply Z.leb_gt; lia).
    exact Hc. }
  cbv zeta. unfold confirmCheckpointSelectionAtom. rewrite Hcur. cbn [fst snd].
  repeat split.
  intros later. now rewrite scopeEvents_pending.
Qed.

(** C7: in a checkpoint list of [n >= 1] records, up from index 0 lands
    on [n - 1], down from [n - 1] lands on 0, with one record both moves
    leave the index at 0, and from any index of the list the moves are
    [(i - 1) mod n] and [(i + 1) mod n]; the same holds in the scope list
    with [n = 3]. *)
Theorem navigation_wraps (s : Store) :
  let n := checkpointCountAtom h s in
  let i := selectedCheckpointIndexAtom s in
  let j := selectedRestoreTypeIndexAtom s in
  (1 <= n ->
     (i = 0 -> selectedCheckpointIndexAtom (navigateCheckpointUpAtom h s) = n - 1) /\
     (i = n - 1 -> selectedCheckpointIndexAtom (navigateCheckpointDownAtom h s) = 0) /\
     (n = 1 -> i = 0 ->
        selectedCheckpointIndexAtom (navigateCheckpointUpAtom h s) = 0 /\
        selectedCheckpointIndexAtom (navigateCheckpointDownAtom h s) = 0) /\
     (0 <= i < n ->
        selectedCheckpointIndexAtom (navigateCheckpointUpAtom h s) = (i - 1) mod n /\
        selectedCheckpointIndexAtom (navigateCheckpointDownAtom h s) = (i + 1) mod n)) /\
  (j = 0 -> selectedRestoreTypeIndexAtom (navigateRestoreTypeUpAtom s) = 2) /\
  (j = 2 -> selectedRestoreTypeIndexAtom (navigateRestoreTypeDownAtom s) = 0) /\
  (0 <= j < 3 ->
     selectedRestoreTypeIndexAtom (navigateRestoreTypeUpAtom s) = (j - 1) mod 3 /\
     selectedRestoreTypeIndexAtom (navigateRestoreTypeDownAtom s) = (j + 1) mod 3).
Proof.
  intros n i j.
  assert (Hwrap : forall m k, 1 <= m -> 0 <= k < m ->
            (if k =? 0 then m - 1 else k - 1) = (k - 1) mod m /\
            Z.rem (k + 1) m = (k + 1) mod m).
  { intros m k Hm Hk. split.
    - destruct (Z.eqb_spec k 0) as [->|Hk0].
      + replace (0 - 1) with (-1 * m + (m - 1)) by lia.
        rewrite Z.add_comm, Z.mod_add by lia. symmetry. apply Z.mod_small. lia.
      + symmetry. apply Z.mod_small. lia.
    - apply Z.rem_mod_nonneg; lia. }
  split.
  - intros Hn.
    assert (Hup : selectedCheckpointIndexAtom (navigateCheckpointUpAtom h s) =
                  if i =? 0 then n - 1 else i - 1).
    { unfold navigateCheckpointUpAtom. fold n.
      replace (n =? 0) with false by (symmetry; apply Z.eqb_neq; lia). reflexivity. }
    assert (Hdown : selectedCheckpointIndexAtom (navigateCheckpointDownAtom h s) =
                    Z.rem (i + 1) n).
    { unfold navigateCheckpointDownAtom. fold n.
      replace (n =? 0) with false by (symmetry; apply Z.eqb_neq; lia). reflexivity. }
    rewrite Hup, Hdown.
    split; [intros Hi0; rewrite Hi0; reflexivity|].
    split; [intros Hi; rewrite Hi; replace (n - 1 + 1) with n by lia;
            apply Z.rem_same; lia|].
    split; [intros Hn1 Hi0; rewrite Hi0, Hn1; split; reflexivity|].
    intros Hi. now apply Hwrap.
  - assert (Hup3 : selectedRestoreTypeIndexAtom (navigateRestoreTypeUpAtom s) =
                   if j =? 0 then 2 else j - 1) by reflexivity.
    assert (Hdown3 : selectedRestoreTypeIndexAtom (navigateRestoreTypeDownAtom s) =
                     Z.rem (j + 1) 3) by reflexivity.
    rewrite Hup3, Hdown3.
    split; [intros Hj; rewrite Hj; reflexivity|].
    split; [intros Hj; rewrite Hj; reflexivity|].
    intros Hj. apply (Hwrap 3 j); lia.
Qed.

End SelectionMachine.

Section SelectionExamples.
Import Checkpoint.

(** C3, as stated, fails for the checkpoint cursor: after entering, moving
    down twice, confirming and cancelling back, the machine is in
    ChoosingCheckpoint with the checkpoint cursor still at 2. *)
Lemma backToCheckpointSelection_keeps_checkpoint_cursor :
  let s0 := initialStore exampleMessages in
  let s1 := snd (enterCheckpointSelectionModeAtom exampleHost s0) in
  let s2 := navigateCheckpoints exampleHost [Down; Down] s1 in
  let s3 := snd (confirmCheckpointSelectionAtom exampleHost s2) in
  modeOf s3 = Some ChoosingScope /\
  modeOf (backToCheckpointSelectionAtom s3) = Some ChoosingCheckpoint /\
  selectedCheckpointIndexAtom (backToCheckpointSelectionAtom s3) = 2 /\
  selectedCheckpointIndexAtom (backToCheckpointSelectionAtom s3) <> 0.
Proof. vm_compute. repeat split. discriminate. Qed.

(** C4, as stated, fails for the scope cursor: from an idle store whose
    scope cursor was left at 1, a successful entry leaves it at 1. *)
Lemma enterCheckpointSelectionMode_keeps_scope_cursor :
  let s0 := set_selectedRestoreTypeIndexAtom 1 (initialStore exampleMessages) in
  let r := enterCheckpointSelectionModeAtom exampleHost s0 in
  modeOf s0 = Some Idle /\
  fst r = true /\
  selectedRestoreTypeIndexAtom (snd r) = 1 /\
  selectedRestoreTypeIndexAtom (snd r) <> 0.
Proof. vm_compute. repeat split. discriminate. Qed.

Lemma enterCheckpointSelectionMode_resets_witness :
  hasCheckpointsAtom exampleHost (set_selectedCheckpointIndexAtom 2 (initialStore exampleMessages)) = true /\
  selectedCheckpointIndexAtom
    (snd (enterCheckpointSelectionModeAtom exampleHost
            (set_selectedCheckpointIndexAtom 2 (initialStore exampleMessages)))) = 0.
Proof.
  split; [reflexivity|].
  pose proof (enterCheckpointSelectionMode_resets exampleHost
                (set_selectedCheckpointIndexAtom 2 (initialStore exampleMessages)) eq_refl) as H.
  cbv zeta in H. exact (proj1 (proj2 (proj2 H))).
Defined.

Lemma enterCheckpointSelectionMode_no_checkpoints_witness :
  checkpointListAtom exampleHost (initialStore [userFeedback 5 "hello"]) = [] /\
  enterCheckpointSelectionModeAtom exampleHost (initialStore [userFeedback 5 "hello"]) =
  (false, initialStore [userFeedback 5 "hello"]).
Proof.
  split; [reflexivity|].
  exact (proj1 (enterCheckpointSelectionMode_no_checkpoints exampleHost
                  (initialStore [userFeedback 5 "hello"]) eq_refl)).
Defined.

(** The scenario of the specification: markers at 10 and 20 are listed
    most recent first, and confirming on index 0 freezes the later one. *)
Lemma confirmCheckpointSelection_freezes_witness :
  let s := initialStore [checkpointSaved 10 "AAAAAAAA"; checkpointSaved 20 "BBBBBBBB"] in
  0 <= selectedCheckpointIndexAtom s < checkpointCountAtom exampleHost s /\
  exists c, commitHash c = "BBBBBBBB" /\ ts c = 20 /\
    selectedCheckpointAtom (snd (confirmCheckpointSelectionAtom exampleHost s)) = Some c /\
    selectedCheckpointAtom
      (scopeEvents [MessagesReplaced []; ScopeMoved Down]
         (snd (confirmCheckpointSelectionAtom exampleHost s))) = Some c.
Proof.
  intros s. assert (Hi : 0 <= selectedCheckpointIndexAtom s < checkpointCountAtom exampleHost s)
    by (vm_compute; split; [discriminate | reflexivity]).
  split; [exact Hi|].
  destruct (confirmCheckpointSelection_freezes exampleHost s Hi) as (c & Hc & H).
  cbv zeta in H. destruct H as (_ & _ & _ & Hsel & Hlater).
  exists c. vm_compute in Hc. injection Hc as Hc.
  split; [now rewrite <- Hc|]. split; [now rewrite <- Hc|].
  split; [exact Hsel | apply Hlater].
Defined.

Lemma navigation_wraps_witness :
  let s := initialStore exampleMessages in
  1 <= checkpointCountAtom exampleHost s /\
  selectedCheckpointIndexAtom (navigateCheckpointUpAtom exampleHost s) = 2 /\
  selectedRestoreTypeIndexAtom (navigateRestoreTypeUpAtom s) = 2.
Proof.
  intros s. assert (Hn : 1 <= checkpointCountAtom exampleHost s) by (vm_compute; discriminate).
  split; [exact Hn|].
  pose proof (navigation_wraps exampleHost s) as H. cbv zeta in H.
  destruct H as (Hlist & Hup3 & _). destruct (Hlist Hn) as (Hup & _).
  split; [exact (Hup eq_refl) | exact (Hup3 eq_refl)].
Defined.

End SelectionExamples.

(** ** Checkpoint ledger: the message preview *)

Section Preview.
Import Checkpoint.

Lemma length_append (a b : string) :
  String.length (String.append a b) = (String.length a + String.length b)%nat.
Proof.
  induction a as [|c a IH]; [reflexivity|].
  change (S (String.length (String.append a b)) = S (String.length a + String.length b)%nat).
  now rewrite IH.
Qed.

Lemma length_take (n : nat) (s : string) :
  String.length (Js.take n s) = Nat.min n (String.length s).
Proof.
  revert s. induction n as [|n IH]; intros [|c s]; try reflexivity.
  change (S (String.length (Js.take n s)) = S (Nat.min n (String.length s))).
  now rewrite IH.
Qed.

(** [truncateText] at the bound the ledger uses. *)
Lemma truncateText_50 (text : string) :
  (Js.len text <= 50 /\ truncateText text 50 = text) \/
  (50 < Js.len text /\
   truncateText text 50 = String.append (Js.take 47 text) "..." /\
   Js.len (truncateText text 50) = 50).
Proof.
  unfold truncateText. destruct (Z.leb_spec (Js.len text) 50) as [Hle|Hgt].
  - left. now split.
  - right. split; [exact Hgt|].
    assert (Hs : Js.slice0 (50 - 3) text = Js.take 47 text) by reflexivity.
    rewrite Hs. split; [reflexivity|].
    unfold Js.len in *. rewrite length_append, length_take. cbn [String.length]. lia.
Qed.

Lemma truncateText_bound (text : string) : Js.len (truncateText text 50) <= 50.
Proof.
  destruct (truncateText_50 text) as [[Hle ->]|(_ & _ & ->)]; [exact Hle | lia].
Qed.

Lemma truthy_text (o : option string) :
  Js.truthy o = true <-> exists text, o = Some text /\ text <> "".
Proof.
  destruct o as [text|]; cbn.
  - rewrite negb_true_iff, String.eqb_neq. split.
    + intros Hne. now exists text.
    + now intros (text' & [= <-] & Hne).
  - split; [discriminate | now intros (text & Habs & _)].
Qed.

(** The loop, on the messages taken from the last to the first: it
    answers for the first message it stops at. *)
Lemma findPrecedingFrom_spec (backwards : list ExtensionMessage) (beforeTs : Z) :
  match findPrecedingFrom backwards beforeTs with
  | None => forall m, In m backwards -> stopsAt beforeTs m = false
  | Some preview =>
      exists skipped m rest text,
        backwards = (skipped ++ m :: rest)%list /\
        (forall m', In m' skipped -> stopsAt beforeTs m' = false) /\
        stopsAt beforeTs m = true /\
        msg_text m = Some text /\
        preview = truncateText (Js.trim text) 50
  end.
Proof.
  induction backwards as [|msg rest IH]; cbn [findPrecedingFrom]; [now intros m []|].
  destruct (Z.leb_spec beforeTs (msg_ts msg)) as [Hlate|Hearly].
  - assert (Hno : stopsAt beforeTs msg = false).
    { unfold stopsAt. replace (msg_ts msg <? beforeTs) with false; [reflexivity|].
      symmetry. apply Z.ltb_ge. exact Hlate. }
    destruct (findPrecedingFrom rest beforeTs) as [preview|].
    + destruct IH as (skipped & m & rest' & text & -> & Hsk & Hm & Ht & Hp).
      exists (msg :: skipped), m, rest', text. repeat split; try assumption.
      intros m' [<-|Hin]; [exact Hno | now apply Hsk].
    + intros m [<-|Hin]; [exact Hno | now apply IH].
  - destruct (isSay "user_feedback" msg && Js.truthy (msg_text msg)) eqn:Hacc.
    + assert (Hstop : stopsAt beforeTs msg = true).
      { unfold stopsAt. rewrite <- andb_assoc, Hacc, andb_true_r. now apply Z.ltb_lt. }
      apply andb_true_iff in Hacc as [_ Htr].
      apply truthy_text in Htr as (text & Ht & _). rewrite Ht.
      exists [], msg, rest, text. repeat split; try assumption. now intros m' [].
    + assert (Hno : stopsAt beforeTs msg = false).
      { unfold stopsAt. now rewrite <- andb_assoc, Hacc, andb_false_r. }
      destruct (findPrecedingFrom rest beforeTs) as [preview|].
      * destruct IH as (skipped & m & rest' & text & -> & Hsk & Hm & Ht & Hp).
        exists (msg :: skipped), m, rest', text. repeat split; try assumption.
        intros m' [<-|Hin]; [exact Hno | now apply Hsk].
      * intros m [<-|Hin]; [exact Hno | now apply IH].
Qed.




End Preview.

(** ** The manage_tabs tool *)

Section ManageTabsTool.
Import ManageTabs.
Variable h : Host.

Lemma isAction_eq (name : string) (a : option string) :
  isAction name a = true <-> a = Some name.
Proof.
  destruct a as [v|]; cbn; [|split; discriminate].
  rewrite String.eqb_eq. split; [now intros -> | now intros [= ->]].
Qed.

(** The boolean test of the validation block says what the definition in
    words says. *)
Lemma validationFails_iff (block : ToolUse) :
  validationFails block = true <-> ValidationError block.
Proof.
  unfold validationFails. split.
  - intros H. repeat (apply orb_true_iff in H as [H|H]).
    + apply MissingAction. now apply negb_true_iff.
    + apply negb_true_iff in H. unfold knownAction in H.
      apply orb_false_iff in H as [Ho Hc].
      destruct (action (params block)) as [a|] eqn:Ha.
      * apply (InvalidAction block a Ha); intros ->; cbn in *; discriminate.
      * now apply MissingAction; rewrite Ha.
    + apply andb_true_iff in H as [H Hfs]. apply andb_true_iff in H as [Ho Hf].
      apply OpenWithoutFile; [now apply isAction_eq | now apply negb_true_iff..].
    + apply andb_true_iff in H as [Hc Hf].
      apply CloseWithoutFile; [now apply isAction_eq | now apply negb_true_iff].
  - intros [Hm|a Ha Ho Hc|Ho Hf Hfs|Hc Hf].
    + now rewrite Hm.
    + rewrite Ha. unfold knownAction. cbn.
      apply String.eqb_neq in Ho, Hc. rewrite Ho, Hc.
      now destruct (String.eqb a "").
    + rewrite Ho, Hf, Hfs. reflexivity.
    + rewrite Hc, Hf. reflexivity.
Qed.

(** A partial block only asks; the counter is not touched. *)
Lemma manageTabsTool_partial (task : Task) (block : ToolUse) :
  partial block = true ->
  fst (manageTabsTool h task block) = task /\
  existsb performsAction (snd (manageTabsTool h task block)) = false.
Proof. intros Hp. unfold manageTabsTool. now rewrite Hp. Qed.

(** C9: on a non-partial block with a validation error the tool adds one
    to the mistake counter, records the tool error, pushes exactly one
    result (the error text) and returns without calling an action handler;
    the counter is set to 0 exactly when validation passes, and then the
    handler of the action is called. *)
Theorem manageTabsTool_validation (task : Task) (block : ToolUse) :
  partial block = false ->
  let r := manageTabsTool h task block in
  (ValidationError block ->
     consecutiveMistakeCount (fst r) = consecutiveMistakeCount task + 1 /\
     In (RecordToolError "manage_tabs") (snd r) /\
     (0 <= consecutiveMistakeCount task -> consecutiveMistakeCount (fst r) <> 0) /\
     (exists content, List.filter pushesResult (snd r) = [PushToolResult content]) /\
     existsb performsAction (snd r) = false) /\
  (~ ValidationError block ->
     consecutiveMistakeCount (fst r) = 0 /\
     existsb performsAction (snd r) = true).
Proof.
  intros Hp r. rewrite <- validationFails_iff.
  assert (Hcases :
    (validationFails block = true /\
     fst r = bumpMistakes task /\
     In (RecordToolError "manage_tabs") (snd r) /\
     (exists content, List.filter pushesResult (snd r) = [PushToolResult content]) /\
     existsb performsAction (snd r) = false) \/
    (validationFails block = false /\
     fst r = resetMistakes task /\
     existsb performsAction (snd r) = true)).
  { unfold r, manageTabsTool, validationFails. rewrite Hp.
    destruct (negb (Js.truthy (action (params block))) || negb (knownAction (action (params block))))
      eqn:H1; cbn [orb].
    { left. cbn. repeat split; eauto. }
    destruct (isAction "open" (action (params block)) && negb (Js.truthy (file (params block)))
              && negb (Js.truthy (files (params block)))) eqn:H2; cbn [orb].
    { left. cbn. repeat split; eauto. }
    destruct (isAction "close" (action (params block)) && negb (Js.truthy (file (params block))))
      eqn:H3.
    { left. cbn. repeat split; eauto. }
    right. cbn [fst snd]. repeat split.
    apply orb_false_iff in H1 as [_ Hk]. apply negb_false_iff in Hk.
    destruct (isAction "open" (action (params block))) eqn:Ho; [reflexivity|].
    unfold knownAction in Hk. rewrite Ho in Hk. cbn in Hk. rewrite Hk in H3.
    cbn in H3. apply negb_false_iff in H3.
    destruct (file (params block)) as [f|]; [reflexivity | discriminate]. }
  destruct Hcases as [(Hv & Hfst & Hrec & Hpush & Hact)|(Hv & Hfst & Hact)]; rewrite Hv, Hfst.
  - split; [|intros Habs; now contradiction Habs].
    intros _. repeat split; try assumption. cbn. lia.
  - split; [discriminate|]. intros _. now split.
Qed.

End ManageTabsTool.

Section ManageTabsExamples.
Import ManageTabs.

Lemma manageTabsTool_validation_witness :
  let block := mkToolUse (mkParams (Some "open") None None) false in
  let task := mkTask 0 "/test/workspace" in
  partial block = false /\
  ValidationError block /\
  manageTabsTool exampleHost task block =
    (mkTask 1 "/test/workspace",
     [RecordToolError "manage_tabs";
      PushToolResult "kilocode:manageTabs.errors.openRequiresFile"]) /\
  consecutiveMistakeCount (fst (manageTabsTool exampleHost task block)) = 1.
Proof.
  intros block task.
  assert (Hv : ValidationError block) by (now apply OpenWithoutFile).
  split; [reflexivity|]. split; [exact Hv|]. split; [reflexivity|].
  pose proof (manageTabsTool_validation exampleHost task block eq_refl) as H.
  cbv zeta in H. exact (proj1 (proj1 H Hv)).
Defined.

End ManageTabsExamples.

(** ** [parseFileWithLine] *)

(** *** The Number value of an integer *)

Section Doubles.
Import Numeral.

Lemma toNumber_exact (n : Z) : Z.abs n < 2 ^ 53 -> Js.toNumber n = Js.Finite n.
Proof.
  intros H. unfold Js.toNumber.
  now replace (Z.abs n <? 2 ^ 53) with true by (symmetry; apply Z.ltb_lt, H).
Qed.

Lemma toNumber_rounds (n : Z) :
  2 ^ 53 <= n ->
  let u := 2 ^ (Z.log2 n - 52) in
  let m := Js.roundQuotient u (n / u) (n mod u) * u in
  Js.toNumber n = if 2 ^ 1024 <=? m then Js.Infinity else Js.Finite m.
Proof.
  intros Hn u m. unfold Js.toNumber.
  assert (Hpos : 0 < n) by (assert (0 < 2 ^ 53) by reflexivity; lia).
  rewrite Z.abs_eq by lia.
  replace (n <? 2 ^ 53) with false by (symmetry; apply Z.ltb_ge, Hn).
  replace (n <? 0) with false by (symmetry; apply Z.ltb_ge; lia).
  rewrite Z.sgn_pos by exact Hpos. fold u. fold m.
  destruct (2 ^ 1024 <=? m); [reflexivity|]. f_equal. lia.
Qed.

Lemma mul_steps (a b u k : Z) :
  0 <= u -> 0 <= k -> a + k <= b -> a * u + k * u <= b * u.
Proof.
  intros Hu Hk Hab. rewrite <- Z.mul_add_distr_r.
  now apply Z.mul_le_mono_nonneg_r.
Qed.

(** What is known of the unit in the last place of [n >= 2^53]. *)
Lemma unit_facts (n : Z) :
  2 ^ 53 <= n ->
  let e := Z.log2 n in
  let u := 2 ^ (e - 52) in
  53 <= e /\ 0 < u /\ 2 ^ e = 2 ^ 52 * u /\
  n = u * (n / u) + n mod u /\ 0 <= n mod u < u /\
  2 ^ 52 <= n / u < 2 ^ 53.
Proof.
  intros Hn e u.
  assert (Hpos : 0 < n) by (assert (0 < 2 ^ 53) by reflexivity; lia).
  assert (He : 53 <= e).
  { unfold e. replace 53 with (Z.log2 (2 ^ 53)) by reflexivity. now apply Z.log2_le_mono. }
  assert (Hu : 0 < u) by (apply Z.pow_pos_nonneg; lia).
  assert (Hpow : 2 ^ e = 2 ^ 52 * u).
  { unfold u. rewrite <- Z.pow_add_r by lia. f_equal. lia. }
  destruct (Z.log2_spec n Hpos) as [Hlo Hhi]. fold e in Hlo, Hhi.
  replace (Z.succ e) with (e + 1) in Hhi by lia.
  rewrite Z.pow_add_r, Hpow in Hhi by lia. rewrite Hpow in Hlo.
  change (2 ^ 1) with 2 in Hhi.
  pose proof (Z.div_mod n u ltac:(lia)) as Hdiv.
  pose proof (Z.mod_pos_bound n u Hu) as Hr.
  change (2 ^ 52) with 4503599627370496 in *. change (2 ^ 53) with 9007199254740992.
  repeat split; try assumption; try lia.
  - destruct (Z_le_gt_dec 4503599627370496 (n / u)) as [Hok|Hno]; [exact Hok|]. exfalso.
    pose proof (mul_steps (n / u) 4503599627370496 u 1 ltac:(lia) ltac:(lia) ltac:(lia)). lia.
  - destruct (Z_lt_ge_dec (n / u) 9007199254740992) as [Hok|Hno]; [exact Hok|]. exfalso.
    pose proof (mul_steps 9007199254740992 (n / u) u 0 ltac:(lia) ltac:(lia) ltac:(lia)). lia.
Qed.

Lemma double_multiple (m' e : Z) :
  53 <= e -> double m' -> 2 ^ e <= m' -> exists j, m' = j * 2 ^ (e - 52).
Proof.
  intros He (s & k & Hs & Hk & Habs & _) Hm.
  assert (0 < 2 ^ e) by (apply Z.pow_pos_nonneg; lia).
  rewrite Z.abs_eq in Habs by lia.
  destruct (Z_le_gt_dec (e - 52) k) as [Hle|Hgt].
  - exists (s * 2 ^ (k - (e - 52))). rewrite <- Z.mul_assoc, <- Z.pow_add_r by lia.
    rewrite Habs. do 2 f_equal. lia.
  - exfalso.
    assert (Hk2 : 2 ^ (53 + k) <= 2 ^ e) by (apply Z.pow_le_mono_r; lia).
    rewrite Z.pow_add_r in Hk2 by lia.
    assert (0 < 2 ^ k) by (apply Z.pow_pos_nonneg; lia).
    change (2 ^ 53) with 9007199254740992 in *.
    pose proof (mul_steps s 9007199254740991 (2 ^ k) 0 ltac:(lia) ltac:(lia) ltac:(lia)). lia.
Qed.


(** How the rounding picks its multiple. *)
Lemma roundQuotient_cases (u q r : Z) :
  let q' := Js.roundQuotient u q r in
  (q' = q /\ 2 * r <= u /\ (2 * r = u -> Z.even q = true)) \/
  (q' = q + 1 /\ u <= 2 * r /\ (2 * r = u -> Z.even (q + 1) = true)).
Proof.
  unfold Js.roundQuotient.
  destruct (Z.ltb_spec u (2 * r)) as [Hlt|Hge]; cbn [orb].
  - right. repeat split; lia.
  - destruct (Z.eqb_spec (2 * r) u) as [Heq|Hne]; cbn [andb].
    + destruct (Z.odd q) eqn:Hodd.
      * right. repeat split; try lia. intros _.
        replace (q + 1) with (Z.succ q) by lia. now rewrite Z.even_succ.
      * left. repeat split; try lia. intros _.
        rewrite <- Z.negb_odd, Hodd. reflexivity.
    + left. repeat split; lia.
Qed.

Lemma big_powers :
  2 ^ 1024 = 2 ^ 54 * 2 ^ 970 /\ 0 < 2 ^ 970.
Proof. split; reflexivity. Qed.

Lemma toNumber_Nearest (n : Z) : 0 <= n -> Nearest n (Js.toNumber n).
Proof.
  intros Hn0.
  destruct (Z_lt_ge_dec n (2 ^ 53)) as [Hsmall|Hbig].
  { rewrite toNumber_exact by (rewrite Z.abs_eq; lia). cbn [Nearest].
    split; [|split; [|split]].
    - assert (2 ^ 53 <= 2 ^ 1024 - 2 ^ 970) by (apply Z.leb_le; reflexivity). lia.
    - exists n, 0. rewrite Z.abs_eq by lia. change (2 ^ 0) with 1.
      repeat split; lia.
    - intros m' _. lia.
    - intros m' _ Hne Heq. lia. }
  apply Z.ge_le in Hbig.
  rewrite (toNumber_rounds n Hbig). cbv zeta.
  destruct (unit_facts n Hbig) as (He & Hu & Hpow & Hdiv & Hr & Hq). cbv zeta in *.
  pose proof (roundQuotient_cases (2 ^ (Z.log2 n - 52)) (n / 2 ^ (Z.log2 n - 52))
                (n mod 2 ^ (Z.log2 n - 52))) as Hround.
  cbv zeta in Hround.
  assert (Hunit : (Z.log2 n <= 1022 /\ 2 ^ (Z.log2 n - 52) <= 2 ^ 970) \/
                  (Z.log2 n = 1023 /\ 2 ^ (Z.log2 n - 52) = 2 * 2 ^ 970) \/
                  (1024 <= Z.log2 n /\ 4 * 2 ^ 970 <= 2 ^ (Z.log2 n - 52))).
  { destruct (Z_le_gt_dec (Z.log2 n) 1022) as [H1|H1]; [left|right].
    - split; [exact H1|]. apply Z.pow_le_mono_r; lia.
    - destruct (Z.eq_dec (Z.log2 n) 1023) as [H2|H2]; [left|right].
      + split; [exact H2|]. rewrite H2. reflexivity.
      + split; [lia|].
        change 4 with (2 ^ 2). rewrite <- Z.pow_add_r by lia.
        apply Z.pow_le_mono_r; lia. }
  assert (Hmult : forall m', double m' ->
            m' < 2 ^ Z.log2 n \/ exists j, m' = j * 2 ^ (Z.log2 n - 52)).
  { intros m' Hm'. destruct (Z_lt_ge_dec m' (2 ^ Z.log2 n)) as [Hless|Hmore].
    - now left.
    - right. apply (double_multiple m' _ He Hm'). lia. }
  assert (Hlog1 : forall k, 2 ^ 52 <= k < 2 ^ 53 ->
            Z.log2 (k * 2 ^ (Z.log2 n - 52)) = Z.log2 n).
  { intros k Hk. apply Z.log2_unique; [lia|].
    rewrite Z.pow_succ_r, Hpow by lia.
    change (2 ^ 53) with 9007199254740992 in *.
    change (2 ^ 52) with 4503599627370496 in *. nia. }
  assert (Hlog2 : Z.log2 (2 ^ 53 * 2 ^ (Z.log2 n - 52)) = Z.log2 n + 1).
  { apply Z.log2_unique; [lia|].
    replace (Z.log2 n + 1) with (Z.succ (Z.log2 n)) by lia.
    rewrite !Z.pow_succ_r, Hpow by lia.
    change (2 ^ 53) with 9007199254740992 in *.
    change (2 ^ 52) with 4503599627370496 in *. nia. }
  assert (Hexp : 2 ^ (Z.log2 n + 1 - 52) = 2 * 2 ^ (Z.log2 n - 52)).
  { replace (Z.log2 n + 1 - 52) with (1 + (Z.log2 n - 52)) by lia.
    rewrite Z.pow_add_r by lia. reflexivity. }
  assert (Hexp' : 2 ^ (Z.log2 n - 51) = 2 * 2 ^ (Z.log2 n - 52)).
  { replace (Z.log2 n - 51) with (1 + (Z.log2 n - 52)) by lia.
    rewrite Z.pow_add_r by lia. reflexivity. }
  assert (Hodd : Z.even 9007199254740991 = false) by reflexivity.
  assert (Hdouble : forall k, 0 <= k <= 2 ^ 53 ->
            k * 2 ^ (Z.log2 n - 52) < 2 ^ 1024 -> double (k * 2 ^ (Z.log2 n - 52))).
  { intros k Hk Hlt. destruct (Z_lt_ge_dec k (2 ^ 53)) as [Hk1|Hk1].
    - exists k, (Z.log2 n - 52). rewrite Z.abs_eq by (apply Z.mul_nonneg_nonneg; lia).
      repeat split; try lia.
    - assert (Hkeq : k = 2 ^ 53) by lia. rewrite Hkeq in *.
      exists (2 ^ 52), (Z.log2 n - 51).
      rewrite Z.abs_eq by (apply Z.mul_nonneg_nonneg; lia).
      rewrite Hexp'. repeat split; try lia. }
  assert (Hsig : forall k, 2 ^ 52 <= k <= 2 ^ 53 -> Z.even k = true ->
            Z.even (significand (k * 2 ^ (Z.log2 n - 52))) = true).
  { intros k Hk Hev. unfold significand.
    destruct (Z_lt_ge_dec k (2 ^ 53)) as [Hk1|Hk1].
    - rewrite Hlog1 by lia. rewrite Z.div_mul by lia. exact Hev.
    - assert (Hkeq : k = 2 ^ 53) by lia. rewrite Hkeq.
      rewrite Hlog2, Hexp.
      replace (2 ^ 53 * 2 ^ (Z.log2 n - 52)) with (2 ^ 52 * (2 * 2 ^ (Z.log2 n - 52)))
        by (change (2 ^ 53) with (2 ^ 52 * 2); ring).
      rewrite Z.div_mul by lia. reflexivity. }
  destruct big_powers as [HB HH].
  assert (Hbelow : forall x, x < 2 ^ 1024 -> x < 2 ^ 1024) by (intros x Hx; exact Hx).
  assert (Hhalf : forall P : Z -> Prop, P (2 ^ 1024 - 2 ^ 970) -> P (2 ^ 1024 - 2 ^ 970))
    by (intros P HP; exact HP).
  change (2 ^ 54) with 18014398509481984 in HB.
  change (2 ^ 53) with 9007199254740992 in *.
  change (2 ^ 52) with 4503599627370496 in *.
  remember (Js.roundQuotient (2 ^ (Z.log2 n - 52)) (n / 2 ^ (Z.log2 n - 52))
              (n mod 2 ^ (Z.log2 n - 52))) as q' eqn:Eq'.
  remember (n / 2 ^ (Z.log2 n - 52)) as q eqn:Eq.
  remember (n mod 2 ^ (Z.log2 n - 52)) as r eqn:Er.
  remember (2 ^ (Z.log2 n - 51)) as u2 eqn:Eu2.
  remember (2 ^ (Z.log2 n + 1 - 52)) as u3 eqn:Eu3.
  remember (2 ^ (Z.log2 n - 52)) as u eqn:Eu.
  remember (2 ^ Z.log2 n) as pe eqn:Epe.
  remember (Z.log2 n) as e eqn:Ee.
  remember (2 ^ 1024) as B eqn:EB in Hbelow at 1, Hhalf at 1, HB, Hunit |- *.
  remember (2 ^ 970) as H eqn:EH in Hhalf at 1, HB, HH, Hunit.
  clear Eq' Eq Er Eu Epe Ee EB EH Eu2 Eu3.
  pose proof (mul_steps 4503599627370496 q u 0 ltac:(lia) ltac:(lia) ltac:(lia)) as Hqlow.
  pose proof (mul_steps q 9007199254740991 u 0 ltac:(lia) ltac:(lia) ltac:(lia)) as Hqhigh.
  assert (Hq'range : 4503599627370496 <= q' <= 9007199254740992)
    by (destruct Hround as [(-> & _)|(-> & _)]; lia).
  assert (Hq'u : q' * u = q * u \/ q' * u = q * u + u)
    by (destruct Hround as [(-> & _)|(-> & _)]; [left | right]; ring).
  assert (Hover : B <= q' * u <-> B - H <= n).
  { destruct Hunit as [(_ & Hle)|[(He1023 & Heq)|(_ & Hge)]].
    - split; intros Habs; exfalso; lia.
    - destruct (Z_le_gt_dec q 9007199254740990) as [Hq1|Hq1].
      + pose proof (mul_steps q 9007199254740990 u 0 ltac:(lia) ltac:(lia) ltac:(lia)).
        split; intros Habs; exfalso; lia.
      + assert (Hqmax : q = 9007199254740991) by lia.
        destruct Hround as [(Hq'' & Hlow & Hev)|(Hq'' & Hhigh & _)]; rewrite Hq'', Hqmax in *.
        * split; intros Habs; exfalso; [lia|].
          assert (Htie : 2 * r = u) by lia. specialize (Hev Htie). congruence.
        * split; intros _; lia.
    - split; intros _; lia. }
  destruct (Z.leb_spec B (q' * u)) as [Hinf|Hfin]; cbn [Nearest].
  { apply (Hhalf (fun t => t <= n)). now apply Hover. }
  assert (Hnear : Z.abs (n - q' * u) <= r /\ Z.abs (n - q' * u) <= u - r).
  { destruct Hround as [(Hq'' & Hlow & _)|(Hq'' & Hhigh & _)]; rewrite Hq'';
      split; lia. }
  assert (Hfar : forall m', m' < pe -> r < Z.abs (n - m')).
  { intros m' Hless. rewrite Hpow in Hless. lia. }
  assert (Hside : forall j,
            (j < q /\ j * u + u <= q * u) \/ j = q \/ j = q + 1 \/
            (q + 1 < j /\ q * u + 2 * u <= j * u)).
  { intros j. destruct (Z_lt_ge_dec j q) as [Hj|Hj].
    - left. split; [exact Hj|].
      pose proof (mul_steps j q u 1 ltac:(lia) ltac:(lia) ltac:(lia)). lia.
    - right. destruct (Z.eq_dec j q) as [Hjq|Hjq]; [now left|right].
      destruct (Z.eq_dec j (q + 1)) as [Hjq1|Hjq1]; [now left|right].
      split; [lia|]. apply mul_steps; lia. }
  split; [|split; [|split]].
  - apply (Hhalf (fun t => n < t)).
    destruct (Z_lt_ge_dec n (B - H)) as [Hlt|Hge]; [exact Hlt|].
    exfalso. apply Z.ge_le in Hge. apply Hover in Hge. lia.
  - apply Hdouble; [lia | now apply Hbelow].
  - intros m' Hm'. destruct (Hmult m' Hm') as [Hless|(j & ->)].
    + specialize (Hfar m' Hless). lia.
    + destruct (Hside j) as [(Hj & Hju)|[->|[->|(Hj & Hju)]]];
        destruct Hround as [(Hq'' & Hlow & _)|(Hq'' & Hhigh & _)]; rewrite Hq''; lia.
  - intros m' Hm' Hne Heq.
    destruct (Hmult m' Hm') as [Hless|(j & ->)].
    { specialize (Hfar m' Hless). lia. }
    assert (Htie : 2 * r = u).
    { destruct (Hside j) as [(Hj & Hju)|[->|[->|(Hj & Hju)]]];
        destruct Hround as [(Hq'' & Hlow & _)|(Hq'' & Hhigh & _)]; rewrite Hq'' in *;
        try congruence; lia. }
    assert (Heven : Z.even q' = true).
    { destruct Hround as [(-> & _ & Hev)|(-> & _ & Hev)]; now apply Hev. }
    apply Hsig; [lia | exact Heven].
Qed.

(** The rounding at work: a tie goes to the even significand, and the
    largest double is the last stop before [Infinity]. *)
Example toNumber_examples :
  Js.toNumber (2 ^ 53 + 1) = Js.Finite (2 ^ 53) /\
  Js.toNumber (2 ^ 53 + 3) = Js.Finite (2 ^ 53 + 4) /\
  Js.toNumber (10 ^ 21 - 1) = Js.Finite (10 ^ 21) /\
  Js.toNumber (2 ^ 1024 - 2 ^ 970 - 1) = Js.Finite (2 ^ 1024 - 2 ^ 971) /\
  Js.toNumber (2 ^ 1024 - 2 ^ 970) = Js.Infinity /\
  Js.toNumber (- 2 ^ 1024) = Js.NegInfinity.
Proof. repeat match goal with |- _ /\ _ => split end; vm_compute; reflexivity. Qed.

(** What JavaScript prints for some doubles. *)
Example toString_examples :
  Js.toString (Js.Finite 45) = "45" /\
  Js.toString (Js.toNumber (2 ^ 53)) = "9007199254740992" /\
  Js.toString (Js.toNumber (2 ^ 60)) = "1152921504606847000" /\
  Js.toString (Js.toNumber (2 ^ 64)) = "18446744073709552000" /\
  Js.toString (Js.toNumber (10 ^ 21)) = "1e+21" /\
  Js.toString (Js.toNumber (2 ^ 70)) = "1.1805916207174113e+21" /\
  Js.toString (Js.toNumber (2 ^ 100)) = "1.2676506002282294e+30" /\
  Js.toString (Js.toNumber (2 ^ 1024 - 2 ^ 971)) = "1.7976931348623157e+308" /\
  Js.toString Js.Infinity = "Infinity" /\
  Js.toString Js.NaN = "NaN".
Proof. repeat match goal with |- _ /\ _ => split end; vm_compute; reflexivity. Qed.

End Doubles.

(** A number that is nearest to an integer from 1 on is neither [NaN]
    nor below 1. *)
Lemma Nearest_line (n : Z) (x : Js.number) :
  1 <= n -> Numeral.Nearest n x ->
  x = Js.Infinity \/ exists m, x = Js.Finite m /\ 1 <= m.
Proof.
  intros Hn. destruct x as [|m| |]; cbn [Numeral.Nearest]; try contradiction.
  - intros (_ & _ & Hnear & _). right. exists m. split; [reflexivity|].
    assert (Hone : Numeral.double 1).
    { exists 1, 0. repeat split; try lia; reflexivity. }
    specialize (Hnear 1 Hone). lia.
  - intros _. now left.
Qed.

(** *** The text after the last ['#'] *)

Section LineTexts.
Import Numeral.

Lemma isWhiteSpace_whiteSpace (c : ascii) :
  Js.isWhiteSpace c = true <-> In c whiteSpace.
Proof.
  assert (H : Js.isWhiteSpace c = existsb (Ascii.eqb c) whiteSpace)
    by (destruct c as [[] [] [] [] [] [] [] []]; reflexivity).
  rewrite H, existsb_exists. split.
  - intros (x & Hx & Heq). apply Ascii.eqb_eq in Heq. now subst.
  - intros Hin. exists c. split; [exact Hin | apply Ascii.eqb_refl].
Qed.

Lemma digitValue_digit (radix : Z) (c : ascii) :
  radix = 10 \/ radix = 16 -> Js.digitValue radix c = digit radix c.
Proof.
  intros [->| ->]; destruct c as [[] [] [] [] [] [] [] []]; reflexivity.
Qed.

Lemma trimStart_blank (ws t : string) :
  blank ws -> (forall c, first t = Some c -> ~ In c whiteSpace) ->
  Js.trimStart (String.append ws t) = t.
Proof.
  intros Hws Ht. induction ws as [|c ws IH].
  - change (String.append "" t) with t. destruct t as [|c r]; [reflexivity|].
    cbn [Js.trimStart]. destruct (Js.isWhiteSpace c) eqn:Hc; [|reflexivity].
    exfalso. apply (Ht c eq_refl). now apply isWhiteSpace_whiteSpace.
  - change (String.append (String c ws) t) with (String c (String.append ws t)).
    unfold blank in Hws. cbn [list_ascii_of_string] in Hws.
    apply Forall_cons in Hws as [Hc Hws].
    cbn [Js.trimStart]. apply isWhiteSpace_whiteSpace in Hc. rewrite Hc.
    now apply IH.
Qed.

Lemma readDigits_value (radix : Z) (ds rest : string) :
  radix = 10 \/ radix = 16 ->
  (forall c, first rest = Some c -> digit radix c = None) ->
  forall acc n, value radix acc ds = Some n ->
  Js.readDigits radix (Some acc) (String.append ds rest) = Some n.
Proof.
  intros Hradix Hrest. induction ds as [|c ds IH]; intros acc n Hv.
  - change (String.append "" rest) with rest. cbn [value] in Hv. injection Hv as <-.
    destruct rest as [|c r]; [reflexivity|]. cbn [Js.readDigits].
    now rewrite (digitValue_digit radix c Hradix), (Hrest c eq_refl).
  - change (String.append (String c ds) rest) with (String c (String.append ds rest)).
    cbn [value] in Hv. cbn [Js.readDigits]. rewrite (digitValue_digit radix c Hradix).
    destruct (digit radix c) as [d|]; [|discriminate]. now apply IH.
Qed.

Lemma readDigits_start (radix : Z) (ds rest : string) (n : Z) :
  radix = 10 \/ radix = 16 ->
  (forall c, first rest = Some c -> digit radix c = None) ->
  value radix 0 ds = Some n ->
  Js.readDigits radix None (String.append ds rest) =
  match ds with
  | EmptyString => None
  | _ => Some n
  end.
Proof.
  intros Hradix Hrest Hv. destruct ds as [|c ds].
  - change (String.append "" rest) with rest.
    destruct rest as [|c r]; [reflexivity|]. cbn [Js.readDigits].
    now rewrite (digitValue_digit radix c Hradix), (Hrest c eq_refl).
  - change (String.append (String c ds) rest) with (String c (String.append ds rest)).
    cbn [value] in Hv. cbn [Js.readDigits]. rewrite (digitValue_digit radix c Hradix).
    destruct (digit radix c) as [d|]; [|discriminate].
    apply (readDigits_value radix ds rest Hradix Hrest).
    now replace (0 * radix + d) with d in Hv by lia.
Qed.

Lemma readSign_text (sg body : string) :
  In sg [""; "+"; "-"] ->
  (sg = "" -> forall c, first body = Some c -> c <> "+"%char /\ c <> "-"%char) ->
  Js.readSign (String.append sg body) = (if String.eqb sg "-" then -1 else 1, body).
Proof.
  intros [<-|[<-|[<-|[]]]] Hplain; try reflexivity.
  change (String.append "" body) with body. destruct body as [|c r]; [reflexivity|].
  destruct (Hplain eq_refl c eq_refl) as [Hplus Hminus]. unfold Js.readSign.
  destruct (Ascii.eqb_spec c "-") as [->|]; [congruence|].
  destruct (Ascii.eqb_spec c "+") as [->|]; [congruence|]. reflexivity.
Qed.

Lemma readRadix_text (mk tail : string) :
  In mk [""; "0x"; "0X"] ->
  (mk = "" -> forall r, tail <> String "0" (String "x" r) /\ tail <> String "0" (String "X" r)) ->
  Js.readRadix (String.append mk tail) = (if String.eqb mk "" then 10 else 16, tail).
Proof.
  intros [<-|[<-|[<-|[]]]] Hdec; try reflexivity.
  change (String.append "" tail) with tail. change (String.eqb "" "") with true. cbv iota.
  unfold Js.readRadix. destruct tail as [|c [|x r]]; try reflexivity.
  destruct (Ascii.eqb_spec c "0") as [->|]; [|reflexivity].
  destruct (Hdec eq_refl r) as [Hx HX].
  destruct (Ascii.eqb_spec x "x") as [->|]; [congruence|].
  destruct (Ascii.eqb_spec x "X") as [->|]; [congruence|]. reflexivity.
Qed.

Lemma position_nonneg (c : ascii) (alphabet : string) (d : Z) :
  position c alphabet = Some d -> 0 <= d.
Proof.
  revert d. induction alphabet as [|a r IH]; intros d; cbn [position]; [discriminate|].
  destruct (Ascii.eqb a c); [intros [= <-]; lia|].
  destruct (position c r) as [k|]; [|discriminate].
  cbn [option_map]. intros [= <-]. specialize (IH k eq_refl). lia.
Qed.

Lemma value_nonneg (radix : Z) (ds : string) (acc n : Z) :
  0 <= radix -> 0 <= acc -> value radix acc ds = Some n -> 0 <= n.
Proof.
  intros Hradix. revert acc. induction ds as [|c ds IH]; intros acc Hacc; cbn [value].
  - intros [= <-]. exact Hacc.
  - destruct (digit radix c) as [d|] eqn:Hd; [|discriminate].
    apply IH. assert (0 <= d); [|nia].
    unfold digit in Hd. destruct (radix =? 16).
    + destruct (position c "0123456789abcdef") as [k|] eqn:Hk.
      * injection Hd as <-. now apply position_nonneg in Hk.
      * now apply position_nonneg in Hd.
    + now apply position_nonneg in Hd.
Qed.

(** What [parseInt] answers for a text, by its parts. *)
Lemma parseInt_text (p : LinePart) (n : Z) :
  Reads p n ->
  Js.parseInt (text p) =
  match digits p with
  | EmptyString => Js.NaN
  | _ => Js.toNumber ((if String.eqb (sign p) "-" then -1 else 1) * n)
  end.
Proof.
  destruct p as [ws sg mk ds rs]. unfold Reads, text, radix.
  cbn [blanks sign mark digits rest].
  intros (Hws & Hsg & Hmk & Hv & Hrs & Hplain & Hdec).
  assert (Hradix : (if String.eqb mk "" then 10 else 16) = 10 \/
                   (if String.eqb mk "" then 10 else 16) = 16)
    by (destruct (String.eqb mk ""); [now left | now right]).
  unfold Js.parseInt. rewrite trimStart_blank; [|exact Hws|].
  - rewrite readSign_text; [|exact Hsg|].
    + rewrite (readRadix_text mk _ Hmk Hdec).
      rewrite (readDigits_start _ ds rs n Hradix Hrs Hv). now destruct ds.
    + intros Hs c Hc. now destruct (Hplain Hs c Hc) as (_ & H1 & H2).
  - intros c Hc. destruct Hsg as [<-|[<-|[<-|[]]]].
    + now destruct (Hplain eq_refl c Hc).
    + injection Hc as <-. unfold whiteSpace. cbn. intuition discriminate.
    + injection Hc as <-. unfold whiteSpace. cbn. intuition discriminate.
Qed.

(** Every text has a reading. *)
Lemma blank_split (s : string) :
  exists ws t, s = String.append ws t /\ blank ws /\
    forall c, first t = Some c -> ~ In c whiteSpace.
Proof.
  induction s as [|c s (ws & t & -> & Hws & Ht)].
  - exists "", "". repeat split; [constructor | discriminate].
  - destruct (Js.isWhiteSpace c) eqn:Hc.
    + exists (String c ws), t. repeat split; [|exact Ht].
      unfold blank. cbn [list_ascii_of_string]. constructor; [|exact Hws].
      now apply isWhiteSpace_whiteSpace.
    + exists "", (String c (String.append ws t)). repeat split; [constructor|].
      intros c' [= <-] Hin. apply isWhiteSpace_whiteSpace in Hin. congruence.
Qed.

Lemma digits_split (radix : Z) (s : string) :
  forall acc, exists ds rs n, s = String.append ds rs /\ value radix acc ds = Some n /\
    forall c, first rs = Some c -> digit radix c = None.
Proof.
  induction s as [|c s IH]; intros acc.
  - exists "", "", acc. repeat split. discriminate.
  - destruct (digit radix c) as [d|] eqn:Hd.
    + destruct (IH (acc * radix + d)) as (ds & rs & n & -> & Hv & Hrs).
      exists (String c ds), rs, n. repeat split; [|exact Hrs].
      cbn [value]. now rewrite Hd.
    + exists "", (String c s), acc. repeat split. now intros c' [= <-].
Qed.

Lemma Reads_exists (s : string) : exists p n, s = text p /\ Reads p n.
Proof.
  destruct (blank_split s) as (ws & t & -> & Hws & Ht).
  assert (Hsign : exists sg body, t = String.append sg body /\ In sg [""; "+"; "-"] /\
            (sg = "" -> forall c, first body = Some c ->
               ~ In c whiteSpace /\ c <> "+"%char /\ c <> "-"%char)).
  { destruct t as [|c r].
    - exists "", "". repeat split; [now left | discriminate..].
    - destruct (Ascii.eqb_spec c "+") as [->|Hplus].
      { exists "+", r. repeat split; [right; now left | discriminate..]. }
      destruct (Ascii.eqb_spec c "-") as [->|Hminus].
      { exists "-", r. repeat split; [right; right; now left | discriminate..]. }
      exists "", (String c r). split; [reflexivity|]. split; [now left|].
      intros _ c' [= <-]. repeat split; try assumption. now apply Ht. }
  destruct Hsign as (sg & body & -> & Hsg & Hplain).
  assert (Hmark : exists mk tail, body = String.append mk tail /\ In mk [""; "0x"; "0X"] /\
            (mk = "" -> forall r, tail <> String "0" (String "x" r) /\
                                  tail <> String "0" (String "X" r))).
  { assert (Hnone : (forall r, body <> String "0" (String "x" r) /\
                               body <> String "0" (String "X" r)) ->
              exists mk tail, body = String.append mk tail /\ In mk [""; "0x"; "0X"] /\
                (mk = "" -> forall r, tail <> String "0" (String "x" r) /\
                                      tail <> String "0" (String "X" r))).
    { intros H. exists "", body. repeat split; [now left | apply H..]. }
    destruct body as [|c [|x r]]; try (apply Hnone; intros r'; split; discriminate).
    destruct (Ascii.eqb_spec c "0") as [->|Hc];
      [|apply Hnone; intros r'; split; congruence].
    destruct (Ascii.eqb_spec x "x") as [->|Hx].
    { exists "0x", r. repeat split; [right; now left | discriminate..]. }
    destruct (Ascii.eqb_spec x "X") as [->|HX].
    { exists "0X", r. repeat split; [right; right; now left | discriminate..]. }
    apply Hnone; intros r'; split; congruence. }
  destruct Hmark as (mk & tail & -> & Hmk & Hdec).
  destruct (digits_split (if String.eqb mk "" then 10 else 16) tail 0)
    as (ds & rs & n & -> & Hv & Hrs).
  exists (mkLinePart ws sg mk ds rs), n. split; [reflexivity|].
  unfold Reads, radix. cbn [blanks sign mark digits rest].
  repeat split; try assumption.
  - now apply Hplain.
  - now apply Hplain.
  - now apply Hplain.
  - now apply Hdec.
  - now apply Hdec.
Qed.

End LineTexts.

(** *** The function *)

Section ParseFileWithLine.
Import ManageTabs Numeral.

Lemma lastIndexOfNat_None (c : ascii) (s : string) :
  Js.lastIndexOfNat c s = None <-> ~ occursIn c s.
Proof.
  unfold occursIn. induction s as [|a r IH]; cbn [Js.lastIndexOfNat list_ascii_of_string].
  - split; [now intros _ [] | reflexivity].
  - destruct (Js.lastIndexOfNat c r) as [i|].
    + split; [discriminate|]. intros Hno. exfalso.
      assert (Hr : ~ In c (list_ascii_of_string r)) by (intros Hin; apply Hno; now right).
      apply IH in Hr. discriminate.
    + destruct (Ascii.eqb_spec a c) as [->|Hne].
      * split; [discriminate|]. intros Hno. exfalso. apply Hno. now left.
      * split; [|reflexivity]. intros _ [Heq|Hin]; [now apply Hne|].
        now apply (proj1 IH eq_refl).
Qed.

(** Where [lastIndexOf] points: the string splits there into a prefix,
    the character, and a rest in which the character does not occur. *)
Lemma lastIndexOfNat_Some (c : ascii) (s : string) (i : nat) :
  Js.lastIndexOfNat c s = Some i ->
  s = String.append (Js.take i s) (String c (Js.drop (S i) s)) /\
  ~ occursIn c (Js.drop (S i) s) /\
  String.length (Js.take i s) = i.
Proof.
  revert i. induction s as [|a r IH]; intros i; cbn [Js.lastIndexOfNat]; [discriminate|].
  destruct (Js.lastIndexOfNat c r) as [k|] eqn:Hr.
  - intros [= <-]. destruct (IH k eq_refl) as (Hsplit & Hno & Hlen).
    change (Js.take (S k) (String a r)) with (String a (Js.take k r)).
    change (Js.drop (S (S k)) (String a r)) with (Js.drop (S k) r).
    repeat split.
    + change (String a r = String a (String.append (Js.take k r) (String c (Js.drop (S k) r)))).
      now f_equal.
    + exact Hno.
    + change (S (String.length (Js.take k r)) = S k). now rewrite Hlen.
  - destruct (Ascii.eqb_spec a c) as [->|Hne]; [|discriminate].
    intros [= <-]. change (Js.drop 1 (String c r)) with r.
    repeat split. exact (proj1 (lastIndexOfNat_None c r) Hr).
Qed.

(** The converse: a split at a last occurrence is the one [lastIndexOf]
    finds. *)
Lemma lastIndexOfNat_split (c : ascii) (pre suf : string) :
  ~ occursIn c suf ->
  Js.lastIndexOfNat c (String.append pre (String c suf)) = Some (String.length pre) /\
  Js.take (String.length pre) (String.append pre (String c suf)) = pre /\
  Js.drop (S (String.length pre)) (String.append pre (String c suf)) = suf.
Proof.
  intros Hno. apply lastIndexOfNat_None in Hno.
  induction pre as [|a pre IH].
  - change (String.append "" (String c suf)) with (String c suf).
    cbn [String.length Js.lastIndexOfNat Js.take].
    rewrite Hno, Ascii.eqb_refl. repeat split.
  - change (String.append (String a pre) (String c suf))
      with (String a (String.append pre (String c suf))).
    cbn [String.length Js.lastIndexOfNat Js.take].
    destruct IH as (-> & Htake & Hdrop). repeat split; [now rewrite Htake | exact Hdrop].
Qed.

(** The function, by the position of the last ['#']. *)
Lemma parseFileWithLine_unfold (filePath : string) :
  parseFileWithLine filePath =
  match Js.lastIndexOfNat "#" filePath with
  | None => mkFileWithLine filePath None
  | Some i =>
      let lineNumber := Js.parseInt (Js.drop (S i) filePath) in
      if Js.isNaN lineNumber || Js.ltb lineNumber (Js.Finite 1)
      then mkFileWithLine filePath None
      else mkFileWithLine (Js.take i filePath) (Some lineNumber)
  end.
Proof.
  unfold parseFileWithLine, Js.lastIndexOf.
  destruct (Js.lastIndexOfNat "#" filePath) as [i|]; [|reflexivity].
  replace (Z.of_nat i =? -1) with false by (symmetry; apply Z.eqb_neq; lia).
  unfold Js.substring, Js.substringFrom.
  replace (Z.to_nat (Z.of_nat i + 1)) with (S i) by lia.
  replace (Z.to_nat (Z.of_nat i - 0)) with i by lia.
  reflexivity.
Qed.

(** A number that is not above 0 is below 1. *)
Lemma toNumber_below (z : Z) :
  z <= 0 -> Js.isNaN (Js.toNumber z) || Js.ltb (Js.toNumber z) (Js.Finite 1) = true.
Proof.
  intros Hz. unfold Js.toNumber.
  destruct (Z.ltb_spec (Z.abs z) (2 ^ 53)) as [Hsmall|Hbig].
  - cbn. apply Z.ltb_lt. lia.
  - assert (Hneg : z < 0) by (assert (0 < 2 ^ 53) by reflexivity; lia).
    replace (z <? 0) with true by (symmetry; apply Z.ltb_lt, Hneg).
    destruct (2 ^ 1024 <=? _); [reflexivity|].
    cbn [Js.isNaN Js.ltb orb]. apply Z.ltb_lt. rewrite Z.sgn_neg by exact Hneg.
    set (u := 2 ^ (Z.log2 (Z.abs z) - 52)).
    assert (Hu : 0 <= u) by (apply Z.pow_nonneg; lia).
    assert (Hq : 0 <= Z.abs z / u).
    { destruct (Z.eq_dec u 0) as [->|Hne]; [now rewrite Z.div_0_r|].
      apply Z.div_pos; lia. }
    assert (Hq' : 0 <= Js.roundQuotient u (Z.abs z / u) (Z.abs z mod u)).
    { unfold Js.roundQuotient. destruct (_ || _); lia. }
    pose proof (Z.mul_nonneg_nonneg _ _ Hq' Hu). lia.
Qed.

(** C10: [parseFileWithLine] never returns a line below 1: a line it
    returns is an integer from 1 on or [Infinity].  A path with no ['#']
    comes back whole with no line.  For a path [pre # suf] with no ['#'] in
    [suf], [suf] divides in the way [parseInt] reads it (white space, sign,
    radix mark, digits, rest), the digits denoting [n].  When the sign is
    ['-'], or there is no digit, or [n] is 0, the whole path comes back with
    no line.  Otherwise the path is [pre] and the line is the number
    [parseInt] returns: the double nearest to [n], which is [n] itself below
    2^53 and [Infinity] from [2^1024 - 2^970] on. *)
Theorem parseFileWithLine_spec (filePath : string) :
  (forall x, line (parseFileWithLine filePath) = Some x ->
     x = Js.Infinity \/ exists m, x = Js.Finite m /\ 1 <= m) /\
  (~ occursIn "#" filePath -> parseFileWithLine filePath = mkFileWithLine filePath None) /\
  (forall pre suf, filePath = String.append pre (String "#" suf) ->
     exists p n, suf = text p /\ Reads p n) /\
  (forall pre p n,
     filePath = String.append pre (String "#" (text p)) ->
     ~ occursIn "#" (text p) -> Reads p n ->
     (sign p = "-" \/ n = 0 ->
        parseFileWithLine filePath = mkFileWithLine filePath None) /\
     (sign p <> "-" -> 1 <= n ->
        exists x, parseFileWithLine filePath = mkFileWithLine pre (Some x) /\
                  Nearest n x /\ (n < 2 ^ 53 -> x = Js.Finite n))).
Proof.
  split; [|split; [|split]].
  - intros x. rewrite parseFileWithLine_unfold.
    destruct (Js.lastIndexOfNat "#" filePath) as [i|]; [|discriminate]. cbv zeta.
    destruct (Js.parseInt (Js.drop (S i) filePath)) as [|m| |]; cbn; try discriminate.
    + destruct (Z.ltb_spec m 1); [discriminate|].
      intros [= <-]. right. now exists m.
    + intros [= <-]. now left.
  - intros Hno. rewrite parseFileWithLine_unfold.
    apply lastIndexOfNat_None in Hno. now rewrite Hno.
  - intros pre suf _. apply Reads_exists.
  - intros pre p n -> Hno Hreads.
    rewrite parseFileWithLine_unfold.
    destruct (lastIndexOfNat_split "#" pre (text p) Hno) as (-> & -> & ->). cbv zeta.
    rewrite (parseInt_text p n Hreads).
    assert (Hv : value (radix p) 0 (digits p) = Some n) by apply Hreads.
    split.
    + intros Hwhole. destruct (digits p) as [|c ds] eqn:Hds; [reflexivity|].
      rewrite toNumber_below; [reflexivity|].
      destruct Hwhole as [-> | ->]; [|lia]. change (String.eqb "-" "-") with true.
      assert (Hn : 0 <= n); [|lia].
      apply (value_nonneg (radix p) (String c ds) 0 n); [|lia|exact Hv].
      unfold radix. destruct (String.eqb (mark p) ""); lia.
    + intros Hsign Hn.
      assert (Hds : digits p <> "").
      { intros Hds. rewrite Hds in Hv. cbn [value] in Hv. injection Hv as <-. lia. }
      assert (Hplus : String.eqb (sign p) "-" = false) by now apply String.eqb_neq.
      rewrite Hplus. replace (1 * n) with n by lia.
      pose proof (toNumber_Nearest n ltac:(lia)) as Hnear.
      exists (Js.toNumber n).
      destruct (Nearest_line n _ Hn Hnear) as [Hx|(m & Hx & Hm)].
      * rewrite Hx in *. destruct (digits p); [congruence|].
        split; [reflexivity|]. split; [exact Hnear|].
        intros Hsmall. rewrite toNumber_exact in Hx by (rewrite Z.abs_eq; lia).
        discriminate.
      * destruct (digits p); [congruence|]. rewrite Hx in *.
        cbn [Js.isNaN Js.ltb orb].
        replace (m <? 1) with false by (symmetry; apply Z.ltb_ge, Hm).
        split; [reflexivity|]. split; [exact Hnear|].
        intros Hsmall. rewrite toNumber_exact in Hx by (rewrite Z.abs_eq; lia).
        now rewrite Hx.
Qed.

Lemma parseFileWithLine_spec_witness :
  let p := mkLinePart " " "" "" "9007199254740993" "px" in
  let q := mkLinePart "" "-" "" "7" "" in
  (Reads p 9007199254740993 /\ ~ occursIn "#" (text p) /\
   exists x,
     parseFileWithLine "src/file#with#hash.js# 9007199254740993px" =
       mkFileWithLine "src/file#with#hash.js" (Some x) /\
     Nearest 9007199254740993 x /\ x = Js.Finite 9007199254740992) /\
  (Reads q 7 /\ ~ occursIn "#" (text q) /\
   parseFileWithLine "src/test.js#-7" = mkFileWithLine "src/test.js#-7" None).
Proof.
  intros p q.
  assert (Hblank : forall c, In c whiteSpace -> c <> "9"%char /\ c <> "7"%char).
  { unfold whiteSpace. cbn. intros c H.
    repeat (destruct H as [<-|H]; [split; discriminate|]). destruct H. }
  assert (Hp : Reads p 9007199254740993).
  { unfold Reads, p, radix. cbn [blanks sign mark digits rest].
    split; [|split; [|split; [|split; [|split; [|split]]]]].
    - constructor; [|constructor]. unfold whiteSpace. cbn. do 5 right. now left.
    - now left.
    - now left.
    - reflexivity.
    - now intros c [= <-].
    - intros _ c [= <-]. split; [|split; discriminate].
      intros Hin. now destruct (Hblank _ Hin).
    - intros _ r. split; discriminate. }
  assert (Hq : Reads q 7).
  { unfold Reads, q, radix. cbn [blanks sign mark digits rest].
    split; [|split; [|split; [|split; [|split; [|split]]]]].
    - constructor.
    - right; right; now left.
    - now left.
    - reflexivity.
    - discriminate.
    - discriminate.
    - intros _ r. split; discriminate. }
  assert (Hnop : ~ occursIn "#" (text p)) by (apply lastIndexOfNat_None; reflexivity).
  assert (Hnoq : ~ occursIn "#" (text q)) by (apply lastIndexOfNat_None; reflexivity).
  split.
  - split; [exact Hp|]. split; [exact Hnop|].
    destruct (proj2 (proj2 (proj2
                (parseFileWithLine_spec "src/file#with#hash.js# 9007199254740993px")))
                "src/file#with#hash.js" p 9007199254740993 eq_refl Hnop Hp)
      as (_ & Hline).
    destruct (Hline ltac:(discriminate) ltac:(lia)) as (x & Heq & Hnear & _).
    exists x. split; [exact Heq|]. split; [exact Hnear|].
    vm_compute in Heq. now injection Heq as <-.
  - split; [exact Hq|]. split; [exact Hnoq|].
    destruct (proj2 (proj2 (proj2 (parseFileWithLine_spec "src/test.js#-7")))
                "src/test.js" q 7 eq_refl Hnoq Hq) as (Hwhole & _).
    apply Hwhole. now left.
Defined.

(** C10, as stated, fails on a line part that no double is near: the text
    after the last ['#'] does not parse to an integer from 1 on, and yet the
    path is cut at the ['#'] and the line [Infinity] is returned. *)
Lemma parseFileWithLine_line_beyond_doubles :
  let linePart := "200000000000000000000000000000000000000000000000000000000000000000000000000000000000000000000000000000000000000000000000000000000000000000000000000000000000000000000000000000000000000000000000000000000000000000000000000000000000000000000000000000000000000000000000000000000000000000000000000000000000000000000" in
  let filePath := "src/app.ts#200000000000000000000000000000000000000000000000000000000000000000000000000000000000000000000000000000000000000000000000000000000000000000000000000000000000000000000000000000000000000000000000000000000000000000000000000000000000000000000000000000000000000000000000000000000000000000000000000000000000000000000" in
  ~ occursIn "#" linePart /\
  Js.parseInt linePart = Js.Infinity /\
  ~ (exists n, Js.parseInt linePart = Js.Finite n /\ 1 <= n) /\
  parseFileWithLine filePath = mkFileWithLine "src/app.ts" (Some Js.Infinity) /\
  parseFileWithLine filePath <> mkFileWithLine filePath None.
Proof.
  intros linePart filePath.
  assert (Hparse : Js.parseInt linePart = Js.Infinity) by (vm_compute; reflexivity).
  assert (Hfile : parseFileWithLine filePath = mkFileWithLine "src/app.ts" (Some Js.Infinity))
    by (vm_compute; reflexivity).
  split; [apply lastIndexOfNat_None; vm_compute; reflexivity|].
  split; [exact Hparse|]. split; [|split; [exact Hfile|]].
  - intros (n & Hn & _). rewrite Hparse in Hn. discriminate.
  - rewrite Hfile. discriminate.
Qed.

(** The cases of [manageTabsTool.spec.ts], and what [parseInt] passes
    over and stops at. *)
Example parseFileWithLine_tests :
  parseFileWithLine "src/test.js" = mkFileWithLine "src/test.js" None /\
  parseFileWithLine "src/test.js#45" = mkFileWithLine "src/test.js" (Some (Js.Finite 45)) /\
  parseFileWithLine "src/file#with#hash.js#100" =
    mkFileWithLine "src/file#with#hash.js" (Some (Js.Finite 100)) /\
  parseFileWithLine "src/test.js#abc" = mkFileWithLine "src/test.js#abc" None /\
  parseFileWithLine "src/test.js#0" = mkFileWithLine "src/test.js#0" None /\
  parseFileWithLine "src/test.js#" = mkFileWithLine "src/test.js#" None /\
  parseFileWithLine "a.ts# 12" = mkFileWithLine "a.ts" (Some (Js.Finite 12)) /\
  parseFileWithLine "a.ts#+12" = mkFileWithLine "a.ts" (Some (Js.Finite 12)) /\
  parseFileWithLine "a.ts#12,5" = mkFileWithLine "a.ts" (Some (Js.Finite 12)) /\
  parseFileWithLine "a.ts#0x1f" = mkFileWithLine "a.ts" (Some (Js.Finite 31)) /\
  parseFileWithLine "a.ts#0x" = mkFileWithLine "a.ts#0x" None /\
  parseFileWithLine "a.ts#1 2" = mkFileWithLine "a.ts" (Some (Js.Finite 1)) /\
  parseFileWithLine "a.ts#- 12" = mkFileWithLine "a.ts#- 12" None /\
  parseFileWithLine "a.ts#9007199254740993" =
    mkFileWithLine "a.ts" (Some (Js.Finite 9007199254740992)).
Proof. repeat split. Qed.

End ParseFileWithLine.

(** * Further properties of the code *)

(** ** The derived checkpoint list *)

Section Ledger.
Import Checkpoint Machine.

Lemma extractCheckpointInfo_Some (h : Host) (msg : ExtensionMessage)
    (allMessages : list ExtensionMessage) :
  isCheckpointMessage msg = true ->
  exists text,
    msg_text msg = Some text /\ text <> "" /\
    extractCheckpointInfo h msg allMessages =
      Some (mkCheckpointInfo (msg_ts msg) text
              (match msg_suppressMessage msg with Some true => true | _ => false end)
              (formatRelativeTime h (msg_ts msg))
              (findPrecedingUserMessage allMessages (msg_ts msg))).
Proof.
  unfold isCheckpointMessage, extractCheckpointInfo. intros H.
  apply andb_true_iff in H as [Hsay Htr]. rewrite Hsay, Htr. cbn [negb orb].
  apply truthy_text in Htr as (text & Ht & Hne). rewrite Ht. now exists text.
Qed.

Lemma extractCheckpointInfo_None (h : Host) (msg : ExtensionMessage)
    (allMessages : list ExtensionMessage) :
  isCheckpointMessage msg = false -> extractCheckpointInfo h msg allMessages = None.
Proof.
  unfold isCheckpointMessage, extractCheckpointInfo. intros H.
  apply andb_false_iff in H as [-> | ->]; [reflexivity|]. now rewrite orb_true_r.
Qed.

Lemma collectCheckpoints_map (h : Host) (todo allMessages : list ExtensionMessage) :
  map Some (collectCheckpoints h todo allMessages) =
  map (fun msg => extractCheckpointInfo h msg allMessages)
      (List.filter isCheckpointMessage todo).
Proof.
  induction todo as [|msg rest IH]; [reflexivity|].
  cbn [collectCheckpoints List.filter].
  destruct (isCheckpointMessage msg) eqn:Hm.
  - cbn [map].
    destruct (extractCheckpointInfo_Some h msg allMessages Hm) as (text & _ & _ & Hex).
    rewrite Hex. cbn [map]. now rewrite IH.
  - now rewrite (extractCheckpointInfo_None h msg allMessages Hm).
Qed.

Lemma collectCheckpoints_length (h : Host) (todo allMessages : list ExtensionMessage) :
  List.length (collectCheckpoints h todo allMessages) =
  List.length (List.filter isCheckpointMessage todo).
Proof.
  rewrite <- (length_map Some), collectCheckpoints_map. apply length_map.
Qed.

Lemma insertByTsDesc_Permutation (x : CheckpointInfo) (l : list CheckpointInfo) :
  Permutation (insertByTsDesc x l) (x :: l).
Proof.
  induction l as [|y ys IH]; cbn [insertByTsDesc]; [reflexivity|].
  destruct (ts x <? ts y); [|reflexivity].
  rewrite IH. apply perm_swap.
Qed.

Lemma sortByTsDesc_Permutation (l : list CheckpointInfo) :
  Permutation (sortByTsDesc l) l.
Proof.
  induction l as [|x xs IH]; cbn [sortByTsDesc]; [reflexivity|].
  rewrite insertByTsDesc_Permutation. now apply perm_skip.
Qed.

Lemma insertByTsDesc_sorted (x : CheckpointInfo) (l : list CheckpointInfo) :
  StronglySorted newerFirst l -> StronglySorted newerFirst (insertByTsDesc x l).
Proof.
  induction 1 as [|y ys Hys IH Hy]; cbn [insertByTsDesc].
  - repeat constructor.
  - destruct (Z.ltb_spec (ts x) (ts y)) as [Hlt|Hge].
    + constructor; [exact IH|].
      rewrite (insertByTsDesc_Permutation x ys). constructor; [|exact Hy].
      unfold newerFirst. lia.
    + constructor; [now constructor|]. constructor; [exact Hge|].
      eapply Forall_impl; [exact Hy|]. unfold newerFirst. intros c Hc. lia.
Qed.

Lemma sortByTsDesc_sorted (l : list CheckpointInfo) :
  StronglySorted newerFirst (sortByTsDesc l).
Proof.
  induction l as [|x xs IH]; cbn [sortByTsDesc]; [constructor|].
  now apply insertByTsDesc_sorted.
Qed.

Lemma insertByTsDesc_same_ts (t : Z) (x : CheckpointInfo) (l : list CheckpointInfo) :
  List.filter (fun c => ts c =? t) (insertByTsDesc x l) =
  List.filter (fun c => ts c =? t) (x :: l).
Proof.
  induction l as [|y ys IH]; [reflexivity|]. cbn [insertByTsDesc].
  destruct (Z.ltb_spec (ts x) (ts y)) as [Hlt|Hge]; [|reflexivity].
  cbn [List.filter] in *. rewrite IH.
  destruct (Z.eqb_spec (ts x) t), (Z.eqb_spec (ts y) t); try reflexivity. lia.
Qed.

Lemma checkpointListAtom_length (h : Host) (s : Store) :
  List.length (checkpointListAtom h s) =
  List.length (List.filter isCheckpointMessage (chatMessagesAtom s)).
Proof.
  unfold checkpointListAtom.
  rewrite (Permutation_length (sortByTsDesc_Permutation _)).
  apply collectCheckpoints_length.
Qed.

(** X1: whatever the order of the transcript, the derived list is in
    descending order of timestamp. *)
Theorem checkpointListAtom_sorted (h : Host) (s : Store) :
  StronglySorted newerFirst (checkpointListAtom h s).
Proof. apply sortByTsDesc_sorted. Qed.

(** X2: the list has one record per [checkpoint_saved] say with a
    non-empty text and no other: a record is in the list exactly when it is
    what [extractCheckpointInfo] makes of such a message of the transcript,
    the count is the number of those messages, and [hasCheckpointsAtom]
    says whether there is one. *)
Theorem checkpointListAtom_records (h : Host) (s : Store) :
  (forall c, In c (checkpointListAtom h s) <->
     exists msg, In msg (chatMessagesAtom s) /\ isCheckpointMessage msg = true /\
       extractCheckpointInfo h msg (chatMessagesAtom s) = Some c) /\
  checkpointCountAtom h s =
    Z.of_nat (List.length (List.filter isCheckpointMessage (chatMessagesAtom s))) /\
  (hasCheckpointsAtom h s = true <->
     exists msg, In msg (chatMessagesAtom s) /\ isCheckpointMessage msg = true).
Proof.
  split; [|split].
  - intros c. unfold checkpointListAtom.
    set (msgs := chatMessagesAtom s).
    assert (Hperm : In c (sortByTsDesc (collectCheckpoints h msgs msgs)) <->
                    In c (collectCheckpoints h msgs msgs)).
    { split; apply Permutation_in;
        [apply sortByTsDesc_Permutation | symmetry; apply sortByTsDesc_Permutation]. }
    rewrite Hperm.
    assert (Hsome : In c (collectCheckpoints h msgs msgs) <->
                    In (Some c) (map Some (collectCheckpoints h msgs msgs))).
    { split; [apply in_map|]. intros H. apply in_map_iff in H as (c' & [= ->] & Hin).
      exact Hin. }
    rewrite Hsome, collectCheckpoints_map, in_map_iff. split.
    + intros (msg & Hex & Hin). apply filter_In in Hin as [Hin Hm]. now exists msg.
    + intros (msg & Hin & Hm & Hex). exists msg. split; [exact Hex|].
      apply filter_In. now split.
  - unfold checkpointCountAtom. now rewrite checkpointListAtom_length.
  - unfold hasCheckpointsAtom. rewrite checkpointListAtom_length, Z.ltb_lt. split.
    + intros Hlen. destruct (List.filter isCheckpointMessage (chatMessagesAtom s))
        as [|msg l] eqn:Hf; [cbn in Hlen; lia|].
      assert (Hin : In msg (List.filter isCheckpointMessage (chatMessagesAtom s)))
        by (rewrite Hf; now left).
      apply filter_In in Hin. now exists msg.
    + intros (msg & Hin & Hm).
      assert (Hf : In msg (List.filter isCheckpointMessage (chatMessagesAtom s)))
        by (apply filter_In; now split).
      destruct (List.filter isCheckpointMessage (chatMessagesAtom s)); [destruct Hf|].
      cbn [List.length]. lia.
Qed.

(** X3: the sort is stable: the records that share a timestamp come in
    the list in the order their messages have in the transcript. *)
Theorem checkpointListAtom_stable (h : Host) (s : Store) (t : Z) :
  List.filter (fun c => ts c =? t) (checkpointListAtom h s) =
  List.filter (fun c => ts c =? t)
    (collectCheckpoints h (chatMessagesAtom s) (chatMessagesAtom s)).
Proof.
  unfold checkpointListAtom.
  induction (collectCheckpoints h (chatMessagesAtom s) (chatMessagesAtom s)) as [|x xs IH];
    [reflexivity|].
  cbn [sortByTsDesc]. rewrite insertByTsDesc_same_ts.
  cbn [List.filter]. now rewrite IH.
Qed.

End Ledger.

(** ** Previews and relative times *)

Section PreviewFacts.
Import Checkpoint Machine.

(** X4: for a bound of at least 3, the truncated text never exceeds the
    bound, is the text itself or a prefix of it followed by the marker, and
    truncating again changes nothing. *)
Theorem truncateText_bounded (text : string) (maxLength : Z) :
  3 <= maxLength ->
  Js.len (truncateText text maxLength) <= maxLength /\
  (truncateText text maxLength = text \/
   truncateText text maxLength =
     String.append (Js.take (Z.to_nat (maxLength - 3)) text) "...") /\
  truncateText (truncateText text maxLength) maxLength = truncateText text maxLength.
Proof.
  intros Hm. destruct (Z.leb_spec (Js.len text) maxLength) as [Hle|Hgt].
  - assert (E : truncateText text maxLength = text).
    { unfold truncateText.
      now replace (Js.len text <=? maxLength) with true by (symmetry; apply Z.leb_le; lia). }
    rewrite !E. split; [exact Hle|]. split; [now left | reflexivity].
  - assert (E : truncateText text maxLength =
                String.append (Js.take (Z.to_nat (maxLength - 3)) text) "...").
    { unfold truncateText, Js.slice0.
      replace (Js.len text <=? maxLength) with false by (symmetry; apply Z.leb_gt; lia).
      now replace (maxLength - 3 <? 0) with false by (symmetry; apply Z.ltb_ge; lia). }
    assert (Hlen : Js.len (truncateText text maxLength) = maxLength).
    { rewrite E. unfold Js.len in *. rewrite length_append, length_take.
      cbn [String.length]. lia. }
    split; [lia|]. split; [now right|].
    unfold truncateText at 1. rewrite Hlen.
    now replace (maxLength <=? maxLength) with true by (symmetry; apply Z.leb_le; lia).
Qed.

Lemma truncateText_bounded_witness :
  3 <= 5 /\ truncateText "0123456789" 5 = "01..." /\
  truncateText (truncateText "0123456789" 5) 5 = "01...".
Proof.
  assert (H : 3 <= 5) by discriminate.
  split; [exact H|]. split; [reflexivity|].
  exact (proj2 (proj2 (truncateText_bounded "0123456789" 5 H))).
Defined.



Lemma findPrecedingFrom_earlier (backwards : list ExtensionMessage) (beforeTs : Z) :
  findPrecedingFrom backwards beforeTs =
  findPrecedingFrom (List.filter (fun m => msg_ts m <? beforeTs) backwards) beforeTs.
Proof.
  induction backwards as [|msg rest IH]; [reflexivity|].
  cbn [findPrecedingFrom List.filter].
  destruct (Z.leb_spec beforeTs (msg_ts msg)) as [Hlate|Hearly].
  - now replace (msg_ts msg <? beforeTs) with false by (symmetry; apply Z.ltb_ge; lia).
  - replace (msg_ts msg <? beforeTs) with true by (symmetry; apply Z.ltb_lt; lia).
    cbn [findPrecedingFrom].
    replace (beforeTs <=? msg_ts msg) with false by (symmetry; apply Z.leb_gt; lia).
    now rewrite IH.
Qed.

(** X6: the preview of a checkpoint depends only on the messages with a
    strictly earlier timestamp: two transcripts that agree on those give the
    same preview and the same record; so appending messages that are not
    earlier leaves the record of a checkpoint as it was. *)
Theorem findPrecedingUserMessage_earlier_only
    (h : Host) (msg : ExtensionMessage) (messages messages' later : list ExtensionMessage) :
  List.filter (fun m => msg_ts m <? msg_ts msg) messages =
  List.filter (fun m => msg_ts m <? msg_ts msg) messages' ->
  (forall m, In m later -> msg_ts msg <= msg_ts m) ->
  findPrecedingUserMessage messages (msg_ts msg) =
    findPrecedingUserMessage messages' (msg_ts msg) /\
  extractCheckpointInfo h msg messages = extractCheckpointInfo h msg messages' /\
  extractCheckpointInfo h msg (messages ++ later)%list = extractCheckpointInfo h msg messages.
Proof.
  assert (Hgen : forall l l', List.filter (fun m => msg_ts m <? msg_ts msg) l =
                              List.filter (fun m => msg_ts m <? msg_ts msg) l' ->
                   findPrecedingUserMessage l (msg_ts msg) =
                   findPrecedingUserMessage l' (msg_ts msg)).
  { intros l l' Heq. unfold findPrecedingUserMessage.
    rewrite (findPrecedingFrom_earlier (rev l)), (findPrecedingFrom_earlier (rev l')).
    now rewrite !List.filter_rev, Heq. }
  assert (Hex : forall l l', findPrecedingUserMessage l (msg_ts msg) =
                             findPrecedingUserMessage l' (msg_ts msg) ->
                  extractCheckpointInfo h msg l = extractCheckpointInfo h msg l').
  { intros l l' Heq. unfold extractCheckpointInfo. now rewrite Heq. }
  intros Hsame Hlater. split; [now apply Hgen|]. split; [now apply Hex, Hgen|].
  apply Hex, Hgen. rewrite List.filter_app.
  assert (Hnil : List.filter (fun m => msg_ts m <? msg_ts msg) later = []).
  { induction later as [|m l IH]; [reflexivity|]. cbn [List.filter].
    replace (msg_ts m <? msg_ts msg) with false
      by (symmetry; apply Z.ltb_ge; apply Hlater; now left).
    apply IH. intros m' Hin. apply Hlater. now right. }
  rewrite Hnil. apply app_nil_r.
Qed.

Lemma findPrecedingUserMessage_earlier_only_witness :
  let msg := checkpointSaved 10 "AAAAAAAA" in
  let later := [userFeedback 15 "now add tests"] in
  (forall m, In m later -> msg_ts msg <= msg_ts m) /\
  extractCheckpointInfo exampleHost msg ([userFeedback 5 "fix the parser"; msg] ++ later)%list =
  extractCheckpointInfo exampleHost msg [userFeedback 5 "fix the parser"; msg].
Proof.
  intros msg later.
  assert (H : forall m, In m later -> msg_ts msg <= msg_ts m).
  { intros m [<-|[]]. discriminate. }
  split; [exact H|].
  exact (proj2 (proj2 (findPrecedingUserMessage_earlier_only exampleHost msg
                         [userFeedback 5 "fix the parser"; msg]
                         [userFeedback 5 "fix the parser"; msg] later eq_refl H))).
Defined.

Lemma findPrecedingUserMessage_bound (messages : list ExtensionMessage) (beforeTs : Z) :
  match findPrecedingUserMessage messages beforeTs with
  | Some preview => Js.len preview <= 50
  | None => True
  end.
Proof.
  unfold findPrecedingUserMessage.
  pose proof (findPrecedingFrom_spec (rev messages) beforeTs) as H.
  destruct (findPrecedingFrom (rev messages) beforeTs) as [preview|]; [|exact I].
  destruct H as (_ & _ & _ & text & _ & _ & _ & _ & ->). apply truncateText_bound.
Qed.

(** X7: every record of the derived list carries a non-empty commit hash,
    the timestamp of a message of the transcript, and a preview of at most
    50 characters (or none). *)
Theorem checkpointListAtom_rows (h : Host) (s : Store) (c : CheckpointInfo) :
  In c (checkpointListAtom h s) ->
  commitHash c <> "" /\
  (exists msg, In msg (chatMessagesAtom s) /\ msg_ts msg = ts c /\
               msg_text msg = Some (commitHash c)) /\
  match userMessagePreview c with
  | Some preview => Js.len preview <= 50
  | None => True
  end.
Proof.
  unfold checkpointListAtom. intros Hin.
  apply (Permutation_in _ (sortByTsDesc_Permutation _)) in Hin.
  apply (in_map Some) in Hin. rewrite collectCheckpoints_map in Hin.
  apply in_map_iff in Hin as (msg & Hex & Hmsg). apply filter_In in Hmsg as [Hmsg Hm].
  destruct (extractCheckpointInfo_Some h msg (chatMessagesAtom s) Hm) as (text & Ht & Hne & Hsome).
  rewrite Hsome in Hex. injection Hex as <-. cbn.
  split; [exact Hne|]. split; [now exists msg|].
  apply findPrecedingUserMessage_bound.
Qed.

Lemma checkpointListAtom_rows_witness :
  exists c, In c (checkpointListAtom exampleHost (initialStore exampleMessages)) /\
            commitHash c = "CCCCCCCC" /\ commitHash c <> "".
Proof.
  pose (c := mkCheckpointInfo 30 "CCCCCCCC" false "1 minute ago" (Some "now add tests")).
  assert (Hin : In c (checkpointListAtom exampleHost (initialStore exampleMessages)))
    by (now left).
  exists c. split; [exact Hin|]. split; [reflexivity|].
  exact (proj1 (checkpointListAtom_rows exampleHost (initialStore exampleMessages) c Hin)).
Defined.

End PreviewFacts.

(** ** Runs of the selection machine *)

Section MachineRuns.
Import Checkpoint Machine.

Lemma checkpointCountAtom_host (h h' : Host) (s : Store) :
  checkpointCountAtom h s = checkpointCountAtom h' s.
Proof. unfold checkpointCountAtom. now rewrite !checkpointListAtom_length. Qed.

Lemma checkpointCountAtom_messages (h : Host) (s s' : Store) :
  chatMessagesAtom s' = chatMessagesAtom s ->
  checkpointCountAtom h s' = checkpointCountAtom h s.
Proof.
  intros Hm. unfold checkpointCountAtom. now rewrite !checkpointListAtom_length, Hm.
Qed.

Lemma checkpointCountAtom_nonneg (h : Host) (s : Store) : 0 <= checkpointCountAtom h s.
Proof. unfold checkpointCountAtom. lia. Qed.

Lemma navigateCheckpoint_index (h : Host) (d : Direction) (s : Store) :
  let n := checkpointCountAtom h s in
  let i := selectedCheckpointIndexAtom s in
  selectedCheckpointIndexAtom (navigateCheckpoint h d s) =
  if n =? 0 then i
  else match d with
       | Up => if i =? 0 then n - 1 else i - 1
       | Down => Z.rem (i + 1) n
       end.
Proof.
  destruct d; cbn [navigateCheckpoint];
    unfold navigateCheckpointUpAtom, navigateCheckpointDownAtom;
    destruct (checkpointCountAtom h s =? 0); reflexivity.
Qed.

Lemma navigateCheckpoint_others (h : Host) (d : Direction) (s : Store) :
  navigateCheckpoint h d s =
  set_selectedCheckpointIndexAtom (selectedCheckpointIndexAtom (navigateCheckpoint h d s)) s.
Proof.
  destruct d; cbn [navigateCheckpoint];
    unfold navigateCheckpointUpAtom, navigateCheckpointDownAtom;
    destruct (checkpointCountAtom h s =? 0); destruct s; reflexivity.
Qed.

Lemma navigateRestoreType_index (d : Direction) (s : Store) :
  let j := selectedRestoreTypeIndexAtom s in
  navigateRestoreType d s =
  set_selectedRestoreTypeIndexAtom
    (match d with
     | Up => if j =? 0 then 2 else j - 1
     | Down => Z.rem (j + 1) 3
     end) s.
Proof. destruct d; reflexivity. Qed.

Lemma currentSelectedCheckpointAtom_in_range (h : Host) (s : Store) :
  0 <= selectedCheckpointIndexAtom s < checkpointCountAtom h s ->
  currentSelectedCheckpointAtom h s <> None.
Proof.
  intros Hi. unfold currentSelectedCheckpointAtom, checkpointCountAtom in *.
  replace (selectedCheckpointIndexAtom s <? 0) with false by (symmetry; apply Z.ltb_ge; lia).
  replace (Z.of_nat (List.length (checkpointListAtom h s)) <=? selectedCheckpointIndexAtom s)
    with false by (symmetry; apply Z.leb_gt; lia).
  destruct (nth_error_in_range _ _ Hi) as [c ->]. discriminate.
Qed.

Lemma act_WellFormed (h : Host) (a : Action) (s : Store) :
  WellFormed s -> WellFormed (act h a s).
Proof.
  intros (Hmode & Hpend & Hscope & Hcur). destruct a; cbn [act].
  - unfold enterCheckpointSelectionModeAtom.
    destruct (hasCheckpointsAtom h s); cbn [negb snd]; [|now repeat split].
    repeat split; cbn; try discriminate; lia.
  - repeat split; cbn; try discriminate; lia.
  - unfold confirmCheckpointSelectionAtom.
    destruct (currentSelectedCheckpointAtom h s); cbn [snd]; [|now repeat split].
    repeat split; cbn; try discriminate; lia.
  - unfold WellFormed, modeOf in *. cbn.
    repeat split; try discriminate; try lia.
  - rewrite navigateCheckpoint_others.
    pose proof (navigateCheckpoint_index h d s) as Hi. cbv zeta in Hi. rewrite Hi.
    pose proof (checkpointCountAtom_nonneg h s) as Hn.
    unfold WellFormed, modeOf in *. cbn. repeat split; try assumption; try lia.
    destruct (Z.eqb_spec (checkpointCountAtom h s) 0); [exact Hcur|].
    destruct d.
    + destruct (Z.eqb_spec (selectedCheckpointIndexAtom s) 0); lia.
    + apply Z.rem_nonneg; lia.
  - rewrite navigateRestoreType_index.
    unfold WellFormed, modeOf in *. cbn. repeat split; try assumption; try lia.
    + destruct d; [destruct (Z.eqb_spec (selectedRestoreTypeIndexAtom s) 0); lia|].
      apply Z.rem_nonneg; lia.
    + destruct d; [destruct (Z.eqb_spec (selectedRestoreTypeIndexAtom s) 0); lia|].
      apply Z.rem_bound_pos; lia.
  - repeat split; cbn; try assumption; lia.
  - repeat split; cbn; try assumption; lia.
  - repeat split; cbn; try assumption; lia.
Qed.

Lemma run_WellFormed (actions : list (Host * Action)) (s : Store) :
  WellFormed s -> WellFormed (run actions s).
Proof.
  revert s. induction actions as [|[h a] rest IH]; intros s Hs; [exact Hs|].
  apply IH, act_WellFormed, Hs.
Qed.

Lemma initialStore_WellFormed (messages : list ExtensionMessage) :
  WellFormed (initialStore messages).
Proof. repeat split; cbn; try discriminate; lia. Qed.

(** X8: from the initial store, no sequence of writes (the action atoms in
    any order, under any clock, and replacements of the transcript) makes
    both mode atoms true, and whenever the scope menu is active a pending
    checkpoint is stored. *)
Theorem run_modes (actions : list (Host * Action)) (messages : list ExtensionMessage) :
  let s := run actions (initialStore messages) in
  ~ (checkpointSelectionModeAtom s = true /\ restoreTypeSelectionModeAtom s = true) /\
  (modeOf s = Some ChoosingScope -> exists c, selectedCheckpointAtom s = Some c).
Proof.
  intros s.
  destruct (run_WellFormed actions _ (initialStore_WellFormed messages))
    as (Hmode & Hpend & _). fold s in Hmode, Hpend. split.
  - intros [Hc Hr]. apply Hmode. unfold modeOf. now rewrite Hc, Hr.
  - intros Hscope. unfold modeOf in Hscope.
    destruct (checkpointSelectionModeAtom s), (restoreTypeSelectionModeAtom s);
      try discriminate.
    destruct (selectedCheckpointAtom s) as [c|]; [now exists c|].
    now contradiction (Hpend eq_refl).
Qed.

(** X9: from the initial store, after any sequence of writes the scope
    cursor is 0, 1 or 2, so the selected restore type is never null; and the
    checkpoint cursor is never negative. *)
Theorem run_scope_cursor (actions : list (Host * Action)) (messages : list ExtensionMessage) :
  let s := run actions (initialStore messages) in
  0 <= selectedRestoreTypeIndexAtom s < 3 /\
  (exists option, currentSelectedRestoreTypeAtom s = Some option /\
     nth_error RESTORE_TYPE_OPTIONS (Z.to_nat (selectedRestoreTypeIndexAtom s)) = Some option) /\
  0 <= selectedCheckpointIndexAtom s.
Proof.
  intros s.
  destruct (run_WellFormed actions _ (initialStore_WellFormed messages))
    as (_ & _ & Hscope & Hcur). fold s in Hscope, Hcur.
  split; [exact Hscope|]. split; [|exact Hcur].
  unfold currentSelectedRestoreTypeAtom.
  replace (selectedRestoreTypeIndexAtom s <? 0) with false by (symmetry; apply Z.ltb_ge; lia).
  replace (Z.of_nat (List.length RESTORE_TYPE_OPTIONS) <=? selectedRestoreTypeIndexAtom s)
    with false by (symmetry; apply Z.leb_gt; cbn; lia).
  destruct (nth_error RESTORE_TYPE_OPTIONS (Z.to_nat (selectedRestoreTypeIndexAtom s)))
    as [o|] eqn:E; [now exists o|].
  apply nth_error_None in E. cbn in E. lia.
Qed.

End MachineRuns.

(** ** Navigation as arithmetic modulo the list length *)

Section Navigation.
Import Checkpoint Machine.

Lemma wrap_step (n i : Z) (d : Direction) :
  1 <= n -> 0 <= i < n ->
  match d with
  | Up => if i =? 0 then n - 1 else i - 1
  | Down => Z.rem (i + 1) n
  end = (i + step d) mod n.
Proof.
  intros Hn Hi. destruct d; cbn [step].
  - destruct (Z.eqb_spec i 0) as [->|Hi0].
    + replace (0 + -1) with (-1 * n + (n - 1)) by lia.
      rewrite Z.add_comm, Z.mod_add by lia. symmetry. apply Z.mod_small. lia.
    + symmetry. apply Z.mod_small. lia.
  - apply Z.rem_mod_nonneg; lia.
Qed.

Lemma moves_messages (ds : list (Host * Direction)) (s : Store) :
  moves ds s = set_selectedCheckpointIndexAtom (selectedCheckpointIndexAtom (moves ds s)) s.
Proof.
  revert s. induction ds as [|[h d] rest IH]; intros s; [now destruct s|].
  cbn [moves fold_left fst snd]. fold (moves rest (navigateCheckpoint h d s)).
  rewrite IH at 1.
  generalize (selectedCheckpointIndexAtom (moves rest (navigateCheckpoint h d s))).
  intros v. rewrite (navigateCheckpoint_others h d s). now destruct s.
Qed.

Lemma moves_index (h : Host) (ds : list (Host * Direction)) (s : Store) :
  0 <= selectedCheckpointIndexAtom s < checkpointCountAtom h s ->
  selectedCheckpointIndexAtom (moves ds s) =
  (selectedCheckpointIndexAtom s + displacement (map snd ds)) mod checkpointCountAtom h s.
Proof.
  revert s. induction ds as [|[h' d] rest IH]; intros s Hi.
  - cbn. rewrite Z.add_0_r. symmetry. apply Z.mod_small. exact Hi.
  - cbn [moves fold_left fst snd map displacement fold_right].
    fold (moves rest (navigateCheckpoint h' d s)).
    fold (displacement (map snd rest)).
    pose proof (navigateCheckpoint_index h' d s) as Hstep. cbv zeta in Hstep.
    rewrite (checkpointCountAtom_host h' h) in Hstep.
    replace (checkpointCountAtom h s =? 0) with false in Hstep
      by (symmetry; apply Z.eqb_neq; lia).
    rewrite wrap_step in Hstep by lia.
    assert (Hcount : checkpointCountAtom h (navigateCheckpoint h' d s) =
                     checkpointCountAtom h s).
    { apply checkpointCountAtom_messages.
      now rewrite (navigateCheckpoint_others h' d s). }
    rewrite IH; rewrite Hcount, Hstep.
    + rewrite Zplus_mod_idemp_l. f_equal. lia.
    + apply Z.mod_pos_bound. lia.
Qed.

(** X10: in a list of [n] checkpoints, any sequence of up and down moves
    from an index of the list lands on the index shifted by the net number
    of downs, modulo [n]; the cursor stays in the list, no other atom
    changes, and a record is selected throughout. *)
Theorem moves_displacement (h : Host) (ds : list (Host * Direction)) (s : Store) :
  let n := checkpointCountAtom h s in
  let i := selectedCheckpointIndexAtom s in
  let s' := moves ds s in
  0 <= i < n ->
  selectedCheckpointIndexAtom s' = (i + displacement (map snd ds)) mod n /\
  0 <= selectedCheckpointIndexAtom s' < n /\
  s' = set_selectedCheckpointIndexAtom (selectedCheckpointIndexAtom s') s /\
  currentSelectedCheckpointAtom h s' <> None.
Proof.
  intros n i s' Hi.
  assert (Hidx : selectedCheckpointIndexAtom s' = (i + displacement (map snd ds)) mod n)
    by (now apply moves_index).
  assert (Hrange : 0 <= selectedCheckpointIndexAtom s' < n).
  { rewrite Hidx. apply Z.mod_pos_bound. lia. }
  split; [exact Hidx|]. split; [exact Hrange|].
  split; [apply moves_messages|].
  apply currentSelectedCheckpointAtom_in_range.
  replace (checkpointCountAtom h s') with n; [exact Hrange|].
  symmetry. apply checkpointCountAtom_messages. unfold s'. now rewrite moves_messages.
Qed.

Lemma moves_displacement_witness :
  let s := initialStore exampleMessages in
  0 <= selectedCheckpointIndexAtom s < checkpointCountAtom exampleHost s /\
  selectedCheckpointIndexAtom
    (moves [(exampleHost, Up); (exampleHost, Up); (exampleHost, Down); (exampleHost, Up)] s) = 1.
Proof.
  intros s.
  assert (Hi : 0 <= selectedCheckpointIndexAtom s < checkpointCountAtom exampleHost s)
    by (split; [discriminate | reflexivity]).
  split; [exact Hi|].
  pose proof (moves_displacement exampleHost
                [(exampleHost, Up); (exampleHost, Up); (exampleHost, Down); (exampleHost, Up)]
                s) as H.
  cbv zeta in H. rewrite (proj1 (H Hi)). reflexivity.
Defined.

(** X11: in the scope list, any sequence of moves from an index of the
    list lands on the index shifted by the net number of downs, modulo 3,
    and changes no other atom; three moves down, or three up, come back to
    the start. *)
Theorem scopeMoves_displacement (ds : list Direction) (s : Store) :
  let j := selectedRestoreTypeIndexAtom s in
  0 <= j < 3 ->
  scopeMoves ds s = set_selectedRestoreTypeIndexAtom ((j + displacement ds) mod 3) s /\
  selectedRestoreTypeIndexAtom (scopeMoves [Down; Down; Down] s) = j /\
  selectedRestoreTypeIndexAtom (scopeMoves [Up; Up; Up] s) = j.
Proof.
  intros j Hj.
  assert (Hgen : forall ds s, 0 <= selectedRestoreTypeIndexAtom s < 3 ->
            scopeMoves ds s =
            set_selectedRestoreTypeIndexAtom
              ((selectedRestoreTypeIndexAtom s + displacement ds) mod 3) s).
  { clear. induction ds as [|d rest IH]; intros s Hj.
    - cbn. rewrite Z.add_0_r, Z.mod_small by exact Hj. now destruct s.
    - cbn [scopeMoves fold_left displacement fold_right].
      fold (scopeMoves rest (navigateRestoreType d s)). fold (displacement rest).
      rewrite navigateRestoreType_index.
      pose proof (wrap_step 3 (selectedRestoreTypeIndexAtom s) d ltac:(lia) Hj) as Hw.
      change (3 - 1) with 2 in Hw. cbv zeta. rewrite Hw.
      rewrite IH; cbn [selectedRestoreTypeIndexAtom set_selectedRestoreTypeIndexAtom].
      + rewrite Zplus_mod_idemp_l. unfold set_selectedRestoreTypeIndexAtom. cbn.
        do 2 f_equal. lia.
      + apply Z.mod_pos_bound. lia. }
  split; [now apply Hgen|].
  rewrite !Hgen by exact Hj. cbn [selectedRestoreTypeIndexAtom set_selectedRestoreTypeIndexAtom].
  fold j. cbn [displacement fold_right step].
  split.
  - replace (j + (1 + (1 + (1 + 0)))) with (j + 1 * 3) by lia.
    rewrite Z.mod_add by lia. apply Z.mod_small. exact Hj.
  - replace (j + (-1 + (-1 + (-1 + 0)))) with (j + -1 * 3) by lia.
    rewrite Z.mod_add by lia. apply Z.mod_small. exact Hj.
Qed.

Lemma scopeMoves_displacement_witness :
  let s := initialStore exampleMessages in
  0 <= selectedRestoreTypeIndexAtom s < 3 /\
  selectedRestoreTypeIndexAtom (scopeMoves [Up; Down; Up] s) = 2.
Proof.
  intros s.
  assert (Hj : 0 <= selectedRestoreTypeIndexAtom s < 3) by (split; [discriminate | reflexivity]).
  split; [exact Hj|].
  pose proof (scopeMoves_displacement [Up; Down; Up] s) as H. cbv zeta in H.
  rewrite (proj1 (H Hj)). reflexivity.
Defined.

(** X12: entering, then any navigation, then confirm always succeeds when
    the transcript has a checkpoint: the machine ends in ChoosingScope with
    the scope cursor at 0, and the pending checkpoint is the record of the
    list at the net displacement modulo the list length. *)
Theorem enter_moves_confirm (h : Host) (ds : list (Host * Direction)) (s : Store) :
  hasCheckpointsAtom h s = true ->
  let n := checkpointCountAtom h s in
  let s1 := snd (enterCheckpointSelectionModeAtom h s) in
  let r := confirmCheckpointSelectionAtom h (moves ds s1) in
  fst r = true /\
  modeOf (snd r) = Some ChoosingScope /\
  selectedRestoreTypeIndexAtom (snd r) = 0 /\
  selectedCheckpointAtom (snd r) =
    nth_error (checkpointListAtom h s) (Z.to_nat (displacement (map snd ds) mod n)) /\
  selectedCheckpointAtom (snd r) <> None.
Proof.
  intros Hhas n s1 r.
  assert (Hn : 1 <= n).
  { unfold n, checkpointCountAtom. unfold hasCheckpointsAtom in Hhas.
    apply Z.ltb_lt in Hhas. lia. }
  assert (Hs1 : s1 = set_selectedCheckpointAtom None
                       (set_selectedCheckpointIndexAtom 0
                          (set_restoreTypeSelectionModeAtom false
                             (set_checkpointSelectionModeAtom true s)))).
  { unfold s1, enterCheckpointSelectionModeAtom. now rewrite Hhas. }
  assert (Hn1 : checkpointCountAtom h s1 = n).
  { apply checkpointCountAtom_messages. now rewrite Hs1. }
  assert (Hi : 0 <= selectedCheckpointIndexAtom s1 < checkpointCountAtom h s1).
  { rewrite Hn1, Hs1. cbn. lia. }
  destruct (moves_displacement h ds s1 Hi) as (Hidx & Hrange & Hrest & Hcur).
  rewrite Hn1 in Hidx, Hrange. rewrite Hs1 in Hidx at 2. cbn in Hidx.
  rewrite Z.add_0_l in Hidx. rewrite Hidx in Hrange.
  assert (Hlist : checkpointListAtom h (moves ds s1) = checkpointListAtom h s).
  { unfold checkpointListAtom. rewrite Hrest, Hs1. reflexivity. }
  assert (Hsel : currentSelectedCheckpointAtom h (moves ds s1) =
                 nth_error (checkpointListAtom h s) (Z.to_nat (displacement (map snd ds) mod n))).
  { unfold currentSelectedCheckpointAtom. rewrite Hlist, Hidx.
    fold (checkpointCountAtom h s). fold n.
    replace (displacement (map snd ds) mod n <? 0) with false
      by (symmetry; apply Z.ltb_ge; lia).
    now replace (n <=? displacement (map snd ds) mod n) with false
      by (symmetry; apply Z.leb_gt; lia). }
  unfold r, confirmCheckpointSelectionAtom.
  destruct (currentSelectedCheckpointAtom h (moves ds s1)) as [c|] eqn:Hc;
    [|now contradiction Hcur].
  cbn [fst snd]. rewrite <- Hsel.
  repeat split; try discriminate.
Qed.

Lemma enter_moves_confirm_witness :
  let s := initialStore exampleMessages in
  hasCheckpointsAtom exampleHost s = true /\
  exists c, commitHash c = "AAAAAAAA" /\
    selectedCheckpointAtom
      (snd (confirmCheckpointSelectionAtom exampleHost
              (moves [(exampleHost, Up)]
                 (snd (enterCheckpointSelectionModeAtom exampleHost s))))) = Some c.
Proof.
  intros s. split; [reflexivity|].
  pose proof (enter_moves_confirm exampleHost [(exampleHost, Up)] s eq_refl) as H.
  cbv zeta in H. destruct H as (_ & _ & _ & Hsel & _).
  eexists. split; [|rewrite Hsel; reflexivity]. reflexivity.
Defined.

End Navigation.

(** ** The checkpoint menu *)

Section MenuWindow.
Import Checkpoint Menu.

Lemma rowsFrom_length (k sel : Z) (l : list CheckpointInfo) :
  List.length (rowsFrom k sel l) = List.length l.
Proof.
  revert k. induction l as [|c l IH]; intros k; [reflexivity|].
  cbn [rowsFrom List.length]. now rewrite IH.
Qed.

Lemma rowsFrom_numbers (k sel : Z) (l : list CheckpointInfo) :
  map rowNumber (rowsFrom k sel l) =
  map (fun i => k + 1 + Z.of_nat i) (seq 0 (List.length l)).
Proof.
  revert k. induction l as [|c l IH]; intros k; [reflexivity|].
  cbn [rowsFrom List.length seq map rowNumber CheckpointRow].
  rewrite IH, <- seq_shift, map_map. f_equal; [lia|].
  apply map_ext. intros i. lia.
Qed.

Lemma rowsFrom_selected (k sel : Z) (l : list CheckpointInfo) :
  List.filter isSelected (rowsFrom k sel l) =
  if (k <=? sel) && (sel <? k + Z.of_nat (List.length l)) then
    match nth_error l (Z.to_nat (sel - k)) with
    | Some c => [CheckpointRow c sel true]
    | None => []
    end
  else [].
Proof.
  revert k. induction l as [|c l IH]; intros k.
  - cbn [rowsFrom List.filter]. rewrite nth_error_nil.
    now destruct ((k <=? sel) && (sel <? k + Z.of_nat (List.length (@nil CheckpointInfo)))).
  - cbn [rowsFrom List.filter isSelected CheckpointRow List.length]. rewrite IH.
    destruct (Z.eqb_spec k sel) as [->|Hne].
    + replace (sel + 1 <=? sel) with false by (symmetry; apply Z.leb_gt; lia).
      replace (sel <=? sel) with true by (symmetry; apply Z.leb_le; lia).
      replace (sel <? sel + Z.of_nat (S (List.length l))) with true
        by (symmetry; apply Z.ltb_lt; lia).
      cbn [andb]. now rewrite Z.sub_diag.
    + destruct (Z.leb_spec (k + 1) sel) as [Hge|Hlt].
      * replace (k <=? sel) with true by (symmetry; apply Z.leb_le; lia).
        replace (sel <? k + Z.of_nat (S (List.length l)))
          with (sel <? k + 1 + Z.of_nat (List.length l)) by (f_equal; lia).
        cbn [andb]. destruct (sel <? k + 1 + Z.of_nat (List.length l)); [|reflexivity].
        replace (Z.to_nat (sel - k)) with (S (Z.to_nat (sel - (k + 1)))) by lia.
        reflexivity.
      * now replace (k <=? sel) with false by (symmetry; apply Z.leb_gt; lia).
Qed.

Lemma window_bounds (count sel : Z) :
  1 <= count ->
  let a := startIndexOf count sel in
  let b := endIndexOf count a in
  0 <= a /\ a <= b /\ b <= count /\ b - a = Z.min maxVisible count /\
  (0 <= sel < count -> a <= sel < b).
Proof.
  intros Hc. unfold startIndexOf, endIndexOf, maxVisible.
  change (10 / 2) with 5. cbv zeta. lia.
Qed.

Lemma arraySlice_length {A : Type} (a b : Z) (l : list A) :
  0 <= a -> a <= b -> b <= Z.of_nat (List.length l) ->
  Z.of_nat (List.length (arraySlice a b l)) = b - a.
Proof.
  intros Ha Hab Hb. unfold arraySlice. rewrite length_firstn, length_skipn. lia.
Qed.

Lemma arraySlice_nth {A : Type} (a b : Z) (l : list A) (i : Z) :
  0 <= a -> a <= i < b ->
  nth_error (arraySlice a b l) (Z.to_nat (i - a)) = nth_error l (Z.to_nat i).
Proof.
  intros Ha Hi. unfold arraySlice.
  rewrite nth_error_firstn.
  replace (Z.to_nat (i - a) <? Z.to_nat (b - a))%nat with true
    by (symmetry; apply Nat.ltb_lt; lia).
  rewrite nth_error_skipn. f_equal. lia.
Qed.

(** X13: for a non-empty list the menu shows a window of
    [min(10, count)] consecutive rows, numbered from the first visible index
    plus one, and the two indicators account for every row outside the
    window: hidden above plus shown plus hidden below is the count.  An
    indicator is absent exactly when nothing is hidden on its side. *)
Theorem CheckpointSelectionMenu_window (checkpoints : list CheckpointInfo) (selectedIndex : Z) :
  checkpoints <> [] ->
  let count := Z.of_nat (List.length checkpoints) in
  exists view,
    CheckpointSelectionMenu checkpoints selectedIndex = Some view /\
    Z.of_nat (List.length (rows view)) = Z.min 10 count /\
    hidden (moreAbove view) + Z.of_nat (List.length (rows view)) + hidden (moreBelow view)
      = count /\
    0 <= hidden (moreAbove view) /\ 0 <= hidden (moreBelow view) /\
    (moreAbove view = None <-> hidden (moreAbove view) = 0) /\
    (moreBelow view = None <-> hidden (moreBelow view) = 0) /\
    map rowNumber (rows view) =
      map (fun i => hidden (moreAbove view) + 1 + Z.of_nat i)
          (seq 0 (List.length (rows view))).
Proof.
  intros Hne count.
  assert (Hc : 1 <= count).
  { unfold count. destruct checkpoints; [congruence | cbn [List.length]; lia]. }
  unfold CheckpointSelectionMenu. fold count.
  replace (count =? 0) with false by (symmetry; apply Z.eqb_neq; lia).
  destruct (window_bounds count selectedIndex Hc) as (Ha & Hab & Hb & Hsize & _).
  set (a := startIndexOf count selectedIndex) in *.
  set (b := endIndexOf count a) in *.
  pose proof (arraySlice_length a b checkpoints Ha Hab Hb) as Hlen.
  eexists. split; [reflexivity|]. cbn [rows moreAbove moreBelow].
  rewrite rowsFrom_length, rowsFrom_numbers.
  assert (Habove : hidden (if 0 <? a then Some a else None) = a).
  { destruct (Z.ltb_spec 0 a); cbn; lia. }
  assert (Hbelow : hidden (if b <? count then Some (count - b) else None) = count - b).
  { destruct (Z.ltb_spec b count); cbn; lia. }
  rewrite Habove, Hbelow, Hlen. unfold maxVisible in Hsize.
  repeat split; try lia.
  - destruct (Z.ltb_spec 0 a); [discriminate | lia].
  - destruct (Z.ltb_spec 0 a); [lia | reflexivity].
  - destruct (Z.ltb_spec b count); [discriminate | lia].
  - destruct (Z.ltb_spec b count); [lia | reflexivity].
Qed.

Lemma CheckpointSelectionMenu_window_witness :
  manyCheckpoints 25 <> [] /\
  exists view,
    CheckpointSelectionMenu (manyCheckpoints 25) 12 = Some view /\
    moreAbove view = Some 7 /\ moreBelow view = Some 8 /\
    Z.of_nat (List.length (rows view)) = 10.
Proof.
  assert (Hne : manyCheckpoints 25 <> []) by discriminate.
  split; [exact Hne|].
  destruct (CheckpointSelectionMenu_window (manyCheckpoints 25) 12 Hne)
    as (view & Hview & Hrows & _).
  exists view. split; [exact Hview|].
  vm_compute in Hview. injection Hview as <-. repeat split.
Defined.

(** X14: when the selected index is an index of the list, the selected
    checkpoint is always inside the visible window, and exactly one row is
    marked selected: the row numbered [selectedIndex + 1], showing the first
    8 characters of that checkpoint's hash.  When the selected index is
    outside the list, no row is marked. *)
Theorem CheckpointSelectionMenu_selected (checkpoints : list CheckpointInfo) (selectedIndex : Z) :
  checkpoints <> [] ->
  exists view,
    CheckpointSelectionMenu checkpoints selectedIndex = Some view /\
    (forall c, nth_error checkpoints (Z.to_nat selectedIndex) = Some c ->
       0 <= selectedIndex ->
       List.filter isSelected (rows view) = [CheckpointRow c selectedIndex true] /\
       hidden (moreAbove view) <= selectedIndex <
         hidden (moreAbove view) + Z.of_nat (List.length (rows view))) /\
    (selectedIndex < 0 \/ Z.of_nat (List.length checkpoints) <= selectedIndex ->
       List.filter isSelected (rows view) = []).
Proof.
  intros Hne. set (count := Z.of_nat (List.length checkpoints)).
  assert (Hc : 1 <= count).
  { unfold count. destruct checkpoints; [congruence | cbn [List.length]; lia]. }
  unfold CheckpointSelectionMenu. fold count.
  replace (count =? 0) with false by (symmetry; apply Z.eqb_neq; lia).
  destruct (window_bounds count selectedIndex Hc) as (Ha & Hab & Hb & Hsize & Hin).
  set (a := startIndexOf count selectedIndex) in *.
  set (b := endIndexOf count a) in *.
  pose proof (arraySlice_length a b checkpoints Ha Hab Hb) as Hlen.
  eexists. split; [reflexivity|]. cbn [rows moreAbove moreBelow].
  rewrite rowsFrom_selected, rowsFrom_length, Hlen.
  replace (a + (b - a)) with b by lia.
  assert (Habove : hidden (if 0 <? a then Some a else None) = a).
  { destruct (Z.ltb_spec 0 a); cbn; lia. }
  rewrite Habove. split.
  - intros c Hc' Hsel.
    assert (Hlt : selectedIndex < count).
    { assert (Hsome : nth_error checkpoints (Z.to_nat selectedIndex) <> None) by congruence.
      apply nth_error_Some in Hsome. unfold count. lia. }
    destruct (Hin (conj Hsel Hlt)) as [Hlo Hhi].
    replace (a <=? selectedIndex) with true by (symmetry; apply Z.leb_le; lia).
    replace (selectedIndex <? b) with true by (symmetry; apply Z.ltb_lt; lia).
    cbn [andb]. rewrite (arraySlice_nth a b checkpoints selectedIndex Ha (conj Hlo Hhi)), Hc'.
    split; [reflexivity | lia].
  - intros Hout.
    destruct (Z.leb_spec a selectedIndex) as [Hlo|]; [|reflexivity].
    destruct (Z.ltb_spec selectedIndex b) as [Hhi|]; [|reflexivity].
    exfalso. fold count in Hout. lia.
Qed.

Lemma CheckpointSelectionMenu_selected_witness :
  manyCheckpoints 25 <> [] /\
  exists view c,
    CheckpointSelectionMenu (manyCheckpoints 25) 24 = Some view /\
    nth_error (manyCheckpoints 25) 24 = Some c /\
    map rowNumber (List.filter isSelected (rows view)) = [25] /\
    map shortHash (List.filter isSelected (rows view)) = ["01234567"].
Proof.
  assert (Hne : manyCheckpoints 25 <> []) by discriminate.
  split; [exact Hne|].
  destruct (CheckpointSelectionMenu_selected (manyCheckpoints 25) 24 Hne)
    as (view & Hview & Hsel & _).
  exists view. eexists. split; [exact Hview|]. split; [reflexivity|].
  rewrite (proj1 (Hsel _ eq_refl ltac:(discriminate))). split; reflexivity.
Defined.

End MenuWindow.

(** ** The action handlers of the manage_tabs tool *)

Section TabHandlers.
Import ManageTabs TabActions.
Local Open Scope list_scope.
Context {W : Type} (v : Editor W) (cwd : string).

(** The loop: what it adds to the log and to the two lists. *)
Lemma openEach_spec (todo : list FileWithLine) :
  forall results errors w log,
  let l := openEach v cwd todo results errors w log in
  exists new,
    Forall shownInRange new /\
    (List.length new <= List.length todo)%nat /\
    match lists l with
    | Some (rs, es) =>
        effects l = log ++ new /\
        exists rs' es',
          rs = results ++ rs' /\ es = errors ++ es' /\
          (List.length rs' + List.length es' = List.length todo)%nat /\
          (List.length rs' <= List.length new)%nat /\
          Forall (fun r => exists f, In f todo /\ r = opened v f) rs' /\
          Forall (fun e => exists f, In f todo /\ e = fileNotFound v f) es'
    | None =>
        exists f lineCount,
          effects l = log ++ new ++ [Pushed (lineOutOfRange v f lineCount)] /\
          In f todo /\ (List.length new < List.length todo)%nat
    end.
Proof.
  induction todo as [|fileInfo rest IH]; intros results errors w log.
  - exists []. cbn. repeat split; [constructor | lia | now rewrite app_nil_r |].
    exists [], []. rewrite !app_nil_r. repeat split; constructor.
  - cbn [openEach].
    set (resolvedPath := if isAbsolute v (path fileInfo) then path fileInfo
                         else resolve v cwd (path fileInfo)).
    assert (Hskip : forall w' ,
      let l := openEach v cwd rest results (errors ++ [fileNotFound v fileInfo]) w' log in
      exists new,
        Forall shownInRange new /\
        (List.length new <= List.length (fileInfo :: rest))%nat /\
        match lists l with
        | Some (rs, es) =>
            effects l = log ++ new /\
            exists rs' es',
              rs = results ++ rs' /\ es = errors ++ es' /\
              (List.length rs' + List.length es' = List.length (fileInfo :: rest))%nat /\
              (List.length rs' <= List.length new)%nat /\
              Forall (fun r => exists f, In f (fileInfo :: rest) /\ r = opened v f) rs' /\
              Forall (fun e => exists f, In f (fileInfo :: rest) /\ e = fileNotFound v f) es'
        | None =>
            exists f lineCount,
              effects l = log ++ new ++ [Pushed (lineOutOfRange v f lineCount)] /\
              In f (fileInfo :: rest) /\
              (List.length new < List.length (fileInfo :: rest))%nat
        end).
    { intros w'. cbv zeta.
      destruct (IH results (errors ++ [fileNotFound v fileInfo]) w' log)
        as (new & Hnew & Hlen & Hl).
      exists new. split; [exact Hnew|]. split; [cbn [List.length]; lia|].
      destruct (lists (openEach v cwd rest results (errors ++ [fileNotFound v fileInfo]) w' log))
        as [[rs es]|].
      - destruct Hl as (Heff & rs' & es' & -> & -> & Hcount & Hle & Hrs & Hes).
        split; [exact Heff|].
        exists rs', (fileNotFound v fileInfo :: es'). rewrite <- app_assoc.
        repeat split; cbn [List.length]; try lia.
        + eapply Forall_impl; [exact Hrs|]. intros r (f & Hf & ->). exists f. split; [now right | reflexivity].
        + constructor; [exists fileInfo; split; [now left | reflexivity]|].
          eapply Forall_impl; [exact Hes|]. intros e (f & Hf & ->). exists f. split; [now right | reflexivity].
      - destruct Hl as (f & n & Heff & Hf & Hlt).
        exists f, n. repeat split; [exact Heff | now right | cbn [List.length]; lia]. }
    destruct (stat v w resolvedPath) as [found w0].
    destruct found; cbn [negb]; [|apply Hskip].
    destruct (openTextDocument v w0 resolvedPath) as [[lineCount|] w1]; [|apply Hskip].
    set (sel := match lineGiven (line fileInfo) with
                | Some (Js.Finite n) => Some (n - 1)
                | _ => None
                end).
    destruct (match lineGiven (line fileInfo) with
              | Some n => Js.ltb n (Js.Finite 1) || Js.ltb (Js.Finite lineCount) n
              | None => false
              end) eqn:Hout.
    + exists []. cbn [lists effects List.length]. repeat split; [constructor | lia |].
      exists fileInfo, lineCount. repeat split; [now left | lia].
    + assert (Hsel : shownInRange (Shown resolvedPath lineCount sel)).
      { unfold sel. cbn. destruct (lineGiven (line fileInfo)) as [[|n| |]|]; try exact I.
        cbn [Js.ltb] in Hout. apply orb_false_iff in Hout as [H1 H2].
        apply Z.ltb_ge in H1, H2. lia. }
      destruct (showTextDocument v w1 resolvedPath sel) as [shown w2].
      destruct shown.
      * destruct (IH (results ++ [opened v fileInfo]) errors w2
                    (log ++ [Shown resolvedPath lineCount sel]))
          as (new & Hnew & Hlen & Hl).
        exists (Shown resolvedPath lineCount sel :: new).
        split; [now constructor|]. split; [cbn [List.length]; lia|].
        destruct (lists (openEach v cwd rest (results ++ [opened v fileInfo]) errors w2
                           (log ++ [Shown resolvedPath lineCount sel]))) as [[rs es]|].
        -- destruct Hl as (Heff & rs' & es' & -> & -> & Hcount & Hle & Hrs & Hes).
           split; [now rewrite Heff, <- app_assoc|].
           exists (opened v fileInfo :: rs'), es'. rewrite <- app_assoc.
           repeat split; cbn [List.length]; try lia.
           ++ constructor; [exists fileInfo; split; [now left | reflexivity]|].
              eapply Forall_impl; [exact Hrs|]. intros r (f & Hf & ->). exists f. split; [now right | reflexivity].
           ++ eapply Forall_impl; [exact Hes|]. intros e (f & Hf & ->). exists f. split; [now right | reflexivity].
        -- destruct Hl as (f & n & Heff & Hf & Hlt).
           exists f, n. rewrite Heff, <- app_assoc.
           repeat split; [now right | cbn [List.length]; lia].
      * destruct (IH results (errors ++ [fileNotFound v fileInfo]) w2
                    (log ++ [Shown resolvedPath lineCount sel]))
          as (new & Hnew & Hlen & Hl).
        exists (Shown resolvedPath lineCount sel :: new).
        split; [now constructor|]. split; [cbn [List.length]; lia|].
        destruct (lists (openEach v cwd rest results (errors ++ [fileNotFound v fileInfo]) w2
                           (log ++ [Shown resolvedPath lineCount sel]))) as [[rs es]|].
        -- destruct Hl as (Heff & rs' & es' & -> & -> & Hcount & Hle & Hrs & Hes).
           split; [now rewrite Heff, <- app_assoc|].
           exists rs', (fileNotFound v fileInfo :: es'). rewrite <- app_assoc.
           repeat split; cbn [List.length]; try lia.
           ++ eapply Forall_impl; [exact Hrs|]. intros r (f & Hf & ->). exists f. split; [now right | reflexivity].
           ++ constructor; [exists fileInfo; split; [now left | reflexivity]|].
              eapply Forall_impl; [exact Hes|]. intros e (f & Hf & ->). exists f. split; [now right | reflexivity].
        -- destruct Hl as (f & n & Heff & Hf & Hlt).
           exists f, n. rewrite Heff, <- app_assoc.
           repeat split; [now right | cbn [List.length]; lia].
Qed.

Lemma shownInRange_filters (new : list Effect) :
  Forall shownInRange new ->
  List.filter isPushed new = [] /\ List.filter isAsked new = [] /\
  List.filter isShown new = new.
Proof.
  induction 1 as [|e new He _ (IHp & IHa & IHs)]; [now repeat split|].
  destruct e; cbn in He; try contradiction. cbn. rewrite IHp, IHa, IHs. now repeat split.
Qed.

(** The handler, by what it adds after the approval step. *)
Lemma handleOpenAction_shape (w : W) (file files : option string)
    (toOpen : list FileWithLine) :
  filesToOpen v file files = inl toOpen ->
  let bulk := 2 <? Z.of_nat (List.length toOpen) in
  let question := bulkQuestion v toOpen in
  let asked := if bulk then [AskedApproval question] else [] in
  let effs := snd (handleOpenAction v w cwd file files) in
  (bulk = true /\ fst (askApproval v w "command" question) = false /\ effs = asked) \/
  ((bulk = true -> fst (askApproval v w "command" question) = true) /\
   exists new,
     Forall shownInRange new /\
     ((exists f lineCount,
         effs = asked ++ new ++ [Pushed (lineOutOfRange v f lineCount)] /\
         In f toOpen /\ (List.length new < List.length toOpen)%nat) \/
      (exists rs es,
         effs = asked ++ new ++ [Pushed (toolResult v (join newline (rs ++ es)))] /\
         (List.length rs + List.length es = List.length toOpen)%nat /\
         (List.length rs <= List.length new <= List.length toOpen)%nat /\
         Forall (fun r => exists f, In f toOpen /\ r = opened v f) rs /\
         Forall (fun e => exists f, In f toOpen /\ e = fileNotFound v f) es))).
Proof.
  intros Hfiles bulk question asked effs.
  unfold effs, handleOpenAction. rewrite Hfiles. fold question. fold bulk.
  assert (Hrun : forall w1 log,
    let l := openEach v cwd toOpen [] [] w1 log in
    exists new,
      Forall shownInRange new /\
      ((exists f lineCount,
          snd (match lists l with
               | Some (results, errors) =>
                   (world l, effects l ++
                      [Pushed (toolResult v (join newline (results ++ errors)))])
               | None => (world l, effects l)
               end) = log ++ new ++ [Pushed (lineOutOfRange v f lineCount)] /\
          In f toOpen /\ (List.length new < List.length toOpen)%nat) \/
       (exists rs es,
          snd (match lists l with
               | Some (results, errors) =>
                   (world l, effects l ++
                      [Pushed (toolResult v (join newline (results ++ errors)))])
               | None => (world l, effects l)
               end) = log ++ new ++ [Pushed (toolResult v (join newline (rs ++ es)))] /\
          (List.length rs + List.length es = List.length toOpen)%nat /\
          (List.length rs <= List.length new <= List.length toOpen)%nat /\
          Forall (fun r => exists f, In f toOpen /\ r = opened v f) rs /\
          Forall (fun e => exists f, In f toOpen /\ e = fileNotFound v f) es))).
  { intros w1 log. cbv zeta.
    destruct (openEach_spec toOpen [] [] w1 log) as (new & Hnew & Hlen & Hl).
    exists new. split; [exact Hnew|].
    destruct (lists (openEach v cwd toOpen [] [] w1 log)) as [[rs es]|].
    - right. destruct Hl as (Heff & rs' & es' & -> & -> & Hcount & Hle & Hrs & Hes).
      exists rs', es'. cbn [snd app]. rewrite Heff, <- app_assoc.
      repeat split; try assumption; lia.
    - left. destruct Hl as (f & n & Heff & Hf & Hlt). exists f, n. now repeat split. }
  destruct bulk eqn:Hbulk.
  - destruct (askApproval v w "command" question) as [answer w1] eqn:Hask.
    destruct answer; cbn [negb fst].
    + right. split; [reflexivity|]. apply Hrun.
    + left. now repeat split.
  - right. split; [discriminate|]. apply (Hrun w []).
Qed.

(** X15: when [file] is given, [files] is ignored: the handler does
    exactly what it does without [files], never asks for approval, and shows
    at most one document. *)
Theorem handleOpenAction_file_first (w : W) (file : string) (files : option string) :
  file <> "" ->
  let r := handleOpenAction v w cwd (Some file) files in
  r = handleOpenAction v w cwd (Some file) None /\
  List.filter isAsked (snd r) = [] /\
  (List.length (List.filter isShown (snd r)) <= 1)%nat.
Proof.
  intros Hne r.
  assert (Htr : Js.truthy (Some file) = true)
    by (cbn; apply negb_true_iff, String.eqb_neq, Hne).
  assert (Hfiles : forall fs, filesToOpen v (Some file) fs = inl [parseFileWithLine file]).
  { intros fs. unfold filesToOpen. now rewrite Htr. }
  split; [unfold r, handleOpenAction; now rewrite !Hfiles|].
  pose proof (handleOpenAction_shape w (Some file) files _ (Hfiles files)) as H.
  cbv zeta in H.
  change (2 <? Z.of_nat (List.length [parseFileWithLine file])) with false in H.
  fold r in H. destruct H as [(Habs & _)|(_ & new & Hnew & H)]; [discriminate|].
  destruct (shownInRange_filters new Hnew) as (Hp & Ha & Hs).
  destruct H as [(f & n & -> & _ & Hlen)|(rs & es & -> & _ & Hlen & _)];
    cbn [app]; rewrite !List.filter_app, Ha, Hs; cbn; rewrite app_nil_r;
    cbn [List.length] in Hlen; split; try reflexivity; lia.
Qed.

(** X16: approval is asked exactly when more than two files are to be
    opened, once, and before anything else is done; when it is denied the
    handler stops there: nothing is shown and no result is pushed. *)
Theorem handleOpenAction_approval (w : W) (file files : option string)
    (toOpen : list FileWithLine) :
  filesToOpen v file files = inl toOpen ->
  let question := bulkQuestion v toOpen in
  let effs := snd (handleOpenAction v w cwd file files) in
  ((List.length toOpen <= 2)%nat -> List.filter isAsked effs = []) /\
  ((2 < List.length toOpen)%nat ->
     exists rest,
       effs = AskedApproval question :: rest /\
       List.filter isAsked rest = [] /\
       (fst (askApproval v w "command" question) = false -> rest = [])).
Proof.
  intros Hfiles question effs.
  pose proof (handleOpenAction_shape w file files toOpen Hfiles) as H.
  cbv zeta in H. fold question effs in H.
  assert (Hclean : forall new tail, Forall shownInRange new ->
            List.filter isAsked (new ++ [Pushed tail]) = []).
  { intros new tail Hnew. destruct (shownInRange_filters new Hnew) as (_ & Ha & _).
    now rewrite List.filter_app, Ha. }
  split.
  - intros Hsmall.
    replace (2 <? Z.of_nat (List.length toOpen)) with false in H
      by (symmetry; apply Z.ltb_ge; lia).
    destruct H as [(Habs & _)|(_ & new & Hnew & H)]; [discriminate|].
    destruct H as [(f & n & -> & _)|(rs & es & -> & _)]; cbn [app]; now apply Hclean.
  - intros Hbulk.
    replace (2 <? Z.of_nat (List.length toOpen)) with true in H
      by (symmetry; apply Z.ltb_lt; lia).
    destruct H as [(_ & Hdenied & ->)|(Hyes & new & Hnew & H)].
    + exists []. now repeat split.
    + specialize (Hyes eq_refl).
      destruct H as [(f & n & -> & _)|(rs & es & -> & _)]; cbn [app];
        eexists; (split; [reflexivity|]); (split; [now apply Hclean|]);
        intros Hno; rewrite Hyes in Hno; discriminate.
Qed.


(** X18: a document is never shown with a selection outside it: every
    selection is on a line from 0 to the line count minus one; and no more
    documents are shown than files were asked for. *)
Theorem handleOpenAction_selections (w : W) (file files : option string) :
  let effs := snd (handleOpenAction v w cwd file files) in
  (forall resolvedPath lineCount k,
     In (Shown resolvedPath lineCount (Some k)) effs -> 0 <= k < lineCount) /\
  (forall toOpen, filesToOpen v file files = inl toOpen ->
     (List.length (List.filter isShown effs) <= List.length toOpen)%nat).
Proof.
  intros effs.
  assert (Hin : forall asked new tail e,
            (asked = [] \/ exists q, asked = [AskedApproval q]) ->
            Forall shownInRange new -> isShown e = true ->
            In e (asked ++ new ++ [Pushed tail]) -> shownInRange e).
  { intros asked new tail e Hasked Hnew He Hin.
    apply in_app_or in Hin as [Hin|Hin].
    - destruct Hasked as [->|(q & ->)]; [destruct Hin|].
      destruct Hin as [<-|[]]. discriminate.
    - apply in_app_or in Hin as [Hin|[<-|[]]]; [|discriminate].
      exact (proj1 (List.Forall_forall shownInRange new) Hnew e Hin). }
  destruct (filesToOpen v file files) as [toOpen|message] eqn:Hfiles.
  - pose proof (handleOpenAction_shape w file files toOpen Hfiles) as H.
    cbv zeta in H. fold effs in H.
    set (asked := if 2 <? Z.of_nat (List.length toOpen)
                  then [AskedApproval (bulkQuestion v toOpen)] else []) in *.
    assert (Hasked : asked = [] \/ exists q, asked = [AskedApproval q]).
    { unfold asked. destruct (2 <? Z.of_nat (List.length toOpen)); [right; eauto | now left]. }
    assert (Has : List.filter isShown asked = []).
    { now destruct Hasked as [->|(q & ->)]. }
    split.
    + intros p n k Hk.
      destruct H as [(_ & _ & Heq)|(_ & new & Hnew & H)].
      * rewrite Heq in Hk. destruct Hasked as [->|(q & ->)]; [destruct Hk|].
        destruct Hk as [Habs|[]]. discriminate.
      * destruct H as [(f & m & Heq & _)|(rs & es & Heq & _)]; rewrite Heq in Hk;
          exact (Hin asked new _ (Shown p n (Some k)) Hasked Hnew eq_refl Hk).
    + intros toOpen' [= <-].
      destruct H as [(_ & _ & ->)|(_ & new & Hnew & H)]; [rewrite Has; cbn; lia|].
      destruct (shownInRange_filters new Hnew) as (_ & _ & Hs).
      destruct H as [(f & m & -> & _ & Hlen)|(rs & es & -> & _ & Hlen & _)];
        rewrite !List.filter_app, Has, Hs; cbn; rewrite app_nil_r; lia.
  - split; [|discriminate]. intros p n k Hk.
    unfold effs, handleOpenAction in Hk. rewrite Hfiles in Hk.
    destruct Hk as [Habs|[]]. discriminate.
Qed.

Lemma find_first_match {A : Type} (f : A -> bool) (before after : list A) (x : A) :
  f x = true -> (forall y, In y before -> f y = false) ->
  List.find f (before ++ x :: after) = Some x.
Proof.
  intros Hx Hbefore. induction before as [|y before IH]; cbn [app List.find].
  - now rewrite Hx.
  - rewrite (Hbefore y) by now left. apply IH. intros z Hz. apply Hbefore. now right.
Qed.

(** X19: the close handler closes at most one tab, the first one, in the
    order of the tab groups, that is a text tab whose path relative to the
    working directory or whose label is the name given; a tab that is not a
    text tab is never closed, and when no tab matches nothing is closed and
    the world is left as it was.  One result is pushed in every case. *)
Theorem handleCloseAction_first_match (w : W) (file : string) :
  let r := handleCloseAction v w cwd file in
  List.length (List.filter isPushed (snd r)) = 1%nat /\
  ((forall tab, In tab (concat (tabGroups v w)) -> tabMatches v cwd file tab = false) ->
     r = (w, [Pushed (translate v "kilocode:manageTabs.errors.tabNotFound"
                        [("filePath", Text file)])])) /\
  (forall before tab after,
     concat (tabGroups v w) = before ++ tab :: after ->
     tabMatches v cwd file tab = true ->
     (forall earlier, In earlier before -> tabMatches v cwd file earlier = false) ->
     (exists content, snd r = [Closed tab; Pushed content]) /\
     fst r = snd (closeTab v w tab) /\
     exists fsPath, textInput tab = Some fsPath /\
       (relative v cwd fsPath = file \/ label tab = file)).
Proof.
  intros r. unfold r, handleCloseAction. split; [|split].
  - destruct (List.find (tabMatches v cwd file) (concat (tabGroups v w))) as [tab|];
      [|reflexivity].
    now destruct (closeTab v w tab) as [failure w1].
  - intros Hnone.
    destruct (List.find (tabMatches v cwd file) (concat (tabGroups v w))) as [tab|] eqn:Hf;
      [|reflexivity].
    apply find_some in Hf as [Hin Hm]. rewrite (Hnone tab Hin) in Hm. discriminate.
  - intros before tab after Hsplit Hm Hbefore.
    rewrite Hsplit, (find_first_match _ before after tab Hm Hbefore).
    destruct (closeTab v w tab) as [failure w1]. cbn [fst snd].
    split; [eauto|]. split; [reflexivity|].
    unfold tabMatches in Hm. destruct (textInput tab) as [fsPath|]; [|discriminate].
    exists fsPath. split; [reflexivity|].
    apply orb_true_iff in Hm as [Hm|Hm]; apply String.eqb_eq in Hm; tauto.
Qed.

End TabHandlers.

Section TabExamples.
Import ManageTabs TabActions.

Lemma handleOpenAction_file_first_witness :
  "src/x.ts#3"%string <> ""%string /\
  snd (handleOpenAction (exampleEditor true) 0%nat "/ws" (Some "src/x.ts#3") (Some "three")) =
  [Shown "/ws/src/x.ts" 20 (Some 2);
   Pushed "kilocode:manageTabs.success.openedFileWithLine"].
Proof.
  assert (Hne : "src/x.ts#3"%string <> ""%string) by discriminate.
  split; [exact Hne|].
  rewrite (proj1 (handleOpenAction_file_first (exampleEditor true) "/ws" 0%nat
                    "src/x.ts#3" (Some "three") Hne)).
  reflexivity.
Defined.

Lemma handleOpenAction_approval_witness :
  let toOpen := map parseFileWithLine ["/a.ts"; "/b.ts#7"; "/c.ts#21"] in
  filesToOpen (exampleEditor false) None (Some "three") = inl toOpen /\
  (2 < List.length toOpen)%nat /\
  snd (handleOpenAction (exampleEditor false) 0%nat "/ws" None (Some "three")) =
    [AskedApproval (bulkQuestion (exampleEditor false) toOpen)].
Proof.
  intros toOpen.
  assert (Hfiles : filesToOpen (exampleEditor false) None (Some "three") = inl toOpen)
    by reflexivity.
  assert (Hbulk : (2 < List.length toOpen)%nat) by (cbn; lia).
  split; [exact Hfiles|]. split; [exact Hbulk|].
  pose proof (handleOpenAction_approval (exampleEditor false) "/ws" 0%nat None
                (Some "three") toOpen Hfiles) as H.
  cbv zeta in H. destruct (proj2 H Hbulk) as (rest & Heq & _ & Hdenied).
  rewrite Heq, (Hdenied eq_refl). reflexivity.
Defined.

Lemma handleOpenAction_selections_witness :
  In (Shown "/b.ts" 20 (Some 6))
     (snd (handleOpenAction (exampleEditor true) 0%nat "/ws" None (Some "three"))) /\
  0 <= 6 < 20.
Proof.
  assert (Hin : In (Shown "/b.ts" 20 (Some 6))
                  (snd (handleOpenAction (exampleEditor true) 0%nat "/ws" None (Some "three"))))
    by (right; right; now left).
  split; [exact Hin|].
  exact (proj1 (handleOpenAction_selections (exampleEditor true) "/ws" 0%nat None
                  (Some "three")) "/b.ts" 20 6 Hin).
Defined.

Lemma handleCloseAction_first_match_witness :
  let tab := mkTab (Some "/ws/src/b.ts") "b.ts" in
  tabMatches (exampleEditor true) "/ws" "b.ts" tab = true /\
  snd (handleCloseAction (exampleEditor true) 0%nat "/ws" "b.ts") =
    [Closed tab; Pushed "kilocode:manageTabs.success.closedTab"].
Proof.
  intros tab. split; [reflexivity|].
  pose proof (handleCloseAction_first_match (exampleEditor true) "/ws" 0%nat "b.ts") as H.
  cbv zeta in H. destruct H as (_ & _ & Hfirst).
  destruct (Hfirst [mkTab None "Settings"; mkTab (Some "/ws/src/a.ts") "a.ts"] tab []
              eq_refl eq_refl) as ((content & Heq) & _).
  { intros earlier [<-|[<-|[]]]; reflexivity. }
  rewrite Heq. vm_compute in Heq. now injection Heq as <-.
Defined.

End TabExamples.

(** ** Displaying and re-parsing a file reference *)

Section DisplayRoundTrip.
Import ManageTabs TabActions Digits.

Lemma readDigits_uint (d : Decimal.uint) (acc : Z) :
  Js.readDigits 10 (Some acc) (NilEmpty.string_of_uint d) = Some (uintValue acc d).
Proof.
  revert acc. induction d; intros acc; cbn [NilEmpty.string_of_uint uintValue];
    [reflexivity | ..]; apply IHd.
Qed.

Lemma readDigits_uint_start (d : Decimal.uint) :
  d <> Decimal.Nil ->
  Js.readDigits 10 None (NilEmpty.string_of_uint d) = Some (uintValue 0 d).
Proof.
  intros Hd. destruct d; [congruence | ..];
    cbn [NilEmpty.string_of_uint uintValue]; apply readDigits_uint.
Qed.

Lemma uintValue_pos (d : Decimal.uint) (a : positive) :
  uintValue (Zpos a) d = Zpos (Pos.of_uint_acc d a).
Proof.
  revert a. induction d; intros a; cbn [uintValue Pos.of_uint_acc];
    [reflexivity | ..];
    match goal with
    | |- uintValue ?z _ = Zpos (Pos.of_uint_acc _ ?q) =>
        replace z with (Zpos q) by lia; apply IHd
    end.
Qed.

Lemma uintValue_start (d : Decimal.uint) : uintValue 0 d = Z.of_N (Pos.of_uint d).
Proof.
  induction d; cbn [uintValue Pos.of_uint]; [reflexivity | exact IHd | ..];
    match goal with
    | |- uintValue ?z _ = _ => change z with (Zpos (Z.to_pos z)); apply uintValue_pos
    end.
Qed.

Lemma string_of_uint_no_hash (d : Decimal.uint) :
  ~ occursIn "#" (NilEmpty.string_of_uint d).
Proof.
  unfold occursIn. induction d; cbn [NilEmpty.string_of_uint list_ascii_of_string];
    [now intros [] | ..]; intros [Habs|Hin]; try discriminate; now apply IHd.
Qed.

Lemma parseInt_digits (d : Decimal.uint) :
  d <> Decimal.Nil ->
  Js.parseInt (NilEmpty.string_of_uint d) = Js.toNumber (uintValue 0 d).
Proof.
  intros Hd.
  assert (H : Js.parseInt (NilEmpty.string_of_uint d) =
              match Js.readDigits 10 None (NilEmpty.string_of_uint d) with
              | Some n => Js.toNumber (1 * n)
              | None => Js.NaN
              end).
  { destruct d as [|d|d|d|d|d|d|d|d|d|d]; try congruence; destruct d; reflexivity. }
  rewrite H, (readDigits_uint_start d Hd). f_equal. lia.
Qed.

(** [parseInt] reads back the decimal form of a positive integer that a
    double holds. *)
Lemma parseInt_numberToString (n : Z) :
  1 <= n < 2 ^ 53 ->
  Js.parseInt (Js.numberToString n) = Js.Finite n /\ ~ occursIn "#" (Js.numberToString n).
Proof.
  intros Hn. destruct n as [|p|p]; try lia.
  unfold Js.numberToString. cbn [Z.to_int NilZero.string_of_int].
  assert (Hnil : Pos.to_uint p <> Decimal.Nil).
  { intros Habs. pose proof (Unsigned.of_to p) as H. rewrite Habs in H. discriminate. }
  assert (Hs : NilZero.string_of_uint (Pos.to_uint p) = NilEmpty.string_of_uint (Pos.to_uint p)).
  { unfold NilZero.string_of_uint. now destruct (Pos.to_uint p). }
  rewrite Hs. split; [|apply string_of_uint_no_hash].
  rewrite (parseInt_digits _ Hnil), uintValue_start, Unsigned.of_to.
  change (Z.of_N (N.pos p)) with (Z.pos p).
  apply toNumber_exact. rewrite Z.abs_eq; lia.
Qed.

(** X20: showing a file as [path#line], as the approval question does,
    and parsing it again gives the file back: for any path, even one with
    ['#'] in it, and any line from 1 up to the integers JavaScript prints in
    full (below 2^53); so parsing, displaying and parsing again answers what
    the first parse answered. *)
Theorem parseFileWithLine_display (filePath : string) (pathPart : string) (lineNumber : Z) :
  (1 <= lineNumber < 2 ^ 53 ->
   parseFileWithLine (display (mkFileWithLine pathPart (Some (Js.Finite lineNumber)))) =
   mkFileWithLine pathPart (Some (Js.Finite lineNumber))) /\
  ((forall x, line (parseFileWithLine filePath) = Some x ->
      exists n, x = Js.Finite n /\ n < 2 ^ 53) ->
   parseFileWithLine (display (parseFileWithLine filePath)) = parseFileWithLine filePath).
Proof.
  assert (Hround : forall p n, 1 <= n < 2 ^ 53 ->
            parseFileWithLine (display (mkFileWithLine p (Some (Js.Finite n)))) =
            mkFileWithLine p (Some (Js.Finite n))).
  { intros p n Hn. unfold display. cbn [line path lineGiven Js.truthyNumber].
    replace (n =? 0) with false by (symmetry; apply Z.eqb_neq; lia).
    cbn [negb]. unfold Js.toString, Js.printInteger.
    replace (n <? 0) with false by (symmetry; apply Z.ltb_ge; lia).
    replace (n <? 2 ^ 53) with true by (symmetry; apply Z.ltb_lt; lia).
    destruct (parseInt_numberToString n Hn) as [Hparse Hno].
    rewrite parseFileWithLine_unfold.
    change (String.append "#" (Js.numberToString n)) with (String "#" (Js.numberToString n)).
    destruct (lastIndexOfNat_split "#" p (Js.numberToString n) Hno) as (-> & -> & ->).
    cbv zeta. rewrite Hparse. cbn [Js.isNaN Js.ltb orb].
    now replace (n <? 1) with false by (symmetry; apply Z.ltb_ge; lia). }
  split; [now apply Hround|]. intros Hbound.
  rewrite (parseFileWithLine_unfold filePath) in *.
  destruct (Js.lastIndexOfNat "#" filePath) as [i|] eqn:Hi.
  - cbv zeta in *.
    destruct (Js.isNaN (Js.parseInt (Js.drop (S i) filePath))
              || Js.ltb (Js.parseInt (Js.drop (S i) filePath)) (Js.Finite 1)) eqn:Hn.
    + unfold display. cbn [line path lineGiven].
      rewrite parseFileWithLine_unfold, Hi. cbv zeta. now rewrite Hn.
    + destruct (Hbound _ eq_refl) as (n & Hx & Hsmall). rewrite Hx in *.
      cbn [Js.isNaN Js.ltb orb] in Hn. apply Z.ltb_ge in Hn.
      apply Hround. lia.
  - unfold display. cbn [line path lineGiven].
    now rewrite parseFileWithLine_unfold, Hi.
Qed.

Lemma parseFileWithLine_display_witness :
  1 <= 190 < 2 ^ 53 /\
  display (mkFileWithLine "src/types#v2.ts" (Some (Js.Finite 190))) = "src/types#v2.ts#190" /\
  parseFileWithLine "src/types#v2.ts#190" =
    mkFileWithLine "src/types#v2.ts" (Some (Js.Finite 190)).
Proof.
  assert (Hn : 1 <= 190 < 2 ^ 53) by (split; [discriminate | reflexivity]).
  split; [exact Hn|]. split; [reflexivity|].
  exact (proj1 (parseFileWithLine_display "" "src/types#v2.ts" 190) Hn).
Defined.

End DisplayRoundTrip.

(** ** The session cost hook *)

Section SessionCostFacts.
Import Checkpoint SessionCost.
Local Open Scope list_scope.
Context {F : Type} (zero : F) (add : F -> F -> F) (parse : string -> Parsed F).

Lemma sumCosts_spec (messages : list ExtensionMessage) (total : F) (count : Z) :
  sumCosts add parse messages total count =
  if existsb (fails parse) messages then None
  else Some (fold_left add (costsOf parse messages) total,
             count + Z.of_nat (List.length (costsOf parse messages))).
Proof.
  revert total count. induction messages as [|m rest IH]; intros total count.
  - cbn. f_equal. f_equal. lia.
  - cbn [sumCosts existsb costsOf]. unfold fails at 1.
    destruct (isApiRequest m); cbn [andb orb]; [|apply IH].
    destruct (parsedCost parse m) as [| |cost]; cbn [orb]; [reflexivity | apply IH |].
    rewrite IH. destruct (existsb (fails parse) rest); [reflexivity|].
    cbn [fold_left List.length]. f_equal. f_equal. lia.
Qed.

Lemma costsOf_length (messages : list ExtensionMessage) :
  List.length (costsOf parse messages) = List.length (List.filter (counted parse) messages).
Proof.
  induction messages as [|m rest IH]; [reflexivity|].
  cbn [costsOf List.filter]. unfold counted at 1.
  destruct (isApiRequest m); cbn [andb]; [|exact IH].
  destruct (parsedCost parse m); cbn [List.length]; now rewrite ?IH.
Qed.

Lemma costsOf_relevant (messages : list ExtensionMessage) :
  costsOf parse (List.filter isApiRequest messages) = costsOf parse messages /\
  existsb (fails parse) (List.filter isApiRequest messages) = existsb (fails parse) messages.
Proof.
  induction messages as [|m rest [IHc IHf]]; [now split|].
  cbn [List.filter costsOf existsb]. unfold fails at 2.
  destruct (isApiRequest m) eqn:Hm; cbn [andb orb]; [|now split].
  cbn [costsOf existsb]. unfold fails at 1. rewrite Hm. cbn [andb].
  rewrite IHc, IHf. now destruct (parsedCost parse m).
Qed.

(** X21: the hook throws exactly when some [api_req_started] message with
    a text fails to parse.  Otherwise the request count is the number of
    such messages that carry a numeric cost, the total is their costs added
    up in transcript order, [hasCostData] says whether there is one, and
    with none the total is the zero it started from.  Messages of any other
    kind, or without text, never matter. *)
Theorem useSessionCost_counts (messages : list ExtensionMessage) :
  match useSessionCost zero add parse messages with
  | None => exists m, In m messages /\ fails parse m = true
  | Some info =>
      (forall m, In m messages -> fails parse m = false) /\
      requestCount info = Z.of_nat (List.length (List.filter (counted parse) messages)) /\
      totalCost info = fold_left add (costsOf parse messages) zero /\
      (hasCostData info = true <-> exists m, In m messages /\ counted parse m = true) /\
      (hasCostData info = false -> totalCost info = zero)
  end /\
  useSessionCost zero add parse (List.filter isApiRequest messages) =
  useSessionCost zero add parse messages.
Proof.
  split.
  - unfold useSessionCost. rewrite sumCosts_spec.
    destruct (existsb (fails parse) messages) eqn:Hf.
    + apply existsb_exists in Hf. exact Hf.
    + cbn [totalCost requestCount hasCostData]. rewrite costsOf_length.
      set (n := List.length (List.filter (counted parse) messages)).
      assert (Hn : (0 <? 0 + Z.of_nat n) = true <->
                   exists m, In m messages /\ counted parse m = true).
      { rewrite Z.ltb_lt. unfold n. split.
        - intros Hpos. destruct (List.filter (counted parse) messages) as [|m l] eqn:E;
            [cbn in Hpos; lia|].
          assert (Hin : In m (List.filter (counted parse) messages)) by (rewrite E; now left).
          apply filter_In in Hin. now exists m.
        - intros (m & Hin & Hm).
          assert (Hin' : In m (List.filter (counted parse) messages))
            by (apply filter_In; now split).
          destruct (List.filter (counted parse) messages); [destruct Hin'|].
          cbn [List.length]. lia. }
      split; [|split; [lia|split; [reflexivity|split; [exact Hn|]]]].
      * intros m Hin. destruct (fails parse m) eqn:Hm; [|reflexivity].
        assert (Habs : existsb (fails parse) messages = true)
          by (apply existsb_exists; now exists m).
        congruence.
      * intros Hno. apply Z.ltb_ge in Hno.
        assert (Hnil : costsOf parse messages = []).
        { apply length_zero_iff_nil. rewrite costsOf_length. fold n. lia. }
        now rewrite Hnil.
  - unfold useSessionCost. rewrite !sumCosts_spec.
    destruct (costsOf_relevant messages) as [-> ->]. reflexivity.
Qed.

End SessionCostFacts.

(** ** The release notes hook *)

Section ReleaseNotesFacts.
Import ReleaseNotes.
Context {ReleaseNote : Type}.

(** X22: a load fills the cache, and every later load answers from it
    without importing again and without touching the state, whatever the
    import would give now; this holds for the fallback too, so a failed
    import is never retried.  A load that has to import switches [loading]
    on and off again. *)
Theorem loadReleases_cached (imported again : option (ReleaseData ReleaseNote))
    (s : State ReleaseNote) :
  let first := loadReleases imported s in
  let second := loadReleases again (snd (fst first)) in
  releasesCache (snd (fst first)) = Some (fst (fst first)) /\
  second = (fst (fst first), snd (fst first), []) /\
  match releasesCache s with
  | Some cached => first = (cached, s, [])
  | None =>
      snd first = [true; false] /\
      loading (snd (fst first)) = false /\
      fst (fst first) = match imported with Some data => data | None => fallback end
  end.
Proof.
  unfold loadReleases. destruct (releasesCache s) as [cached|] eqn:Hc; cbn.
  - rewrite Hc. now repeat split.
  - now repeat split.
Qed.

(** X23: [hasUnviewedReleases] answers false exactly when a version has
    been viewed (one that is neither empty nor "0.0.0") and it is the
    current version of the data.  So when the import failed it answers true
    whatever was viewed, now and on every later call. *)
Theorem hasUnviewedReleases_false_iff (imported again : option (ReleaseData ReleaseNote))
    (lastViewed lastViewed' : option string) (s : State ReleaseNote) :
  let data := fst (fst (loadReleases imported s)) in
  let r := hasUnviewedReleases imported lastViewed s in
  (fst r = false <->
     exists version,
       lastViewed = Some version /\ version <> "" /\ version <> "0.0.0" /\
       currentVersion data = version) /\
  (releasesCache s = None -> imported = None ->
     fst r = true /\
     fst (hasUnviewedReleases again lastViewed' (snd r)) = true).
Proof.
  intros data r.
  assert (Hgen : forall (imp : option (ReleaseData ReleaseNote)) lv (st : State ReleaseNote),
            fst (hasUnviewedReleases imp lv st) = false <->
            exists version,
              lv = Some version /\ version <> "" /\ version <> "0.0.0" /\
              currentVersion (fst (fst (loadReleases imp st))) = version).
  { intros imp lv st. unfold hasUnviewedReleases.
    destruct (loadReleases imp st) as [[d st'] calls]. cbn [fst snd].
    rewrite orb_false_iff, negb_false_iff, String.eqb_neq, String.eqb_eq.
    unfold lastViewedOr. destruct lv as [version|].
    - destruct (String.eqb_spec version "") as [->|Hne].
      + split; [now intros [Habs _] | now intros (v & [= <-] & Hv & _)].
      + split.
        * intros [H0 Hcur]. now exists version.
        * intros (v & [= <-] & _ & H0 & Hcur). now split.
    - split; [now intros [Habs _] | now intros (v & Habs & _)]. }
  split; [apply Hgen|].
  intros Hc ->.
  assert (Hr : snd r = mkState (Some fallback) false).
  { unfold r, hasUnviewedReleases, loadReleases. now rewrite Hc. }
  assert (Htrue : forall (imp : option (ReleaseData ReleaseNote)) lv (st : State ReleaseNote),
            currentVersion (fst (fst (loadReleases imp st))) = "0.0.0" ->
            fst (hasUnviewedReleases imp lv st) = true).
  { intros imp lv st Hcur.
    destruct (fst (hasUnviewedReleases imp lv st)) eqn:E; [reflexivity|].
    apply Hgen in E as (version & _ & _ & H0 & Hv). congruence. }
  split; apply Htrue.
  - unfold loadReleases. now rewrite Hc.
  - rewrite Hr. reflexivity.
Qed.

End ReleaseNotesFacts.

Section HookExamples.
Import Checkpoint SessionCost ReleaseNotes.

(** Two requests with a cost, one without, and a message of another
    kind. *)
Example useSessionCost_example :
  useSessionCost 0 Z.add exampleParse
    [apiRequest 1 "{cost:1}"; userFeedback 2 "{"; apiRequest 3 "{}"; apiRequest 4 "{cost:12}"] =
  Some (mkInfo 17 2 true).
Proof. reflexivity. Qed.

Lemma hasUnviewedReleases_false_iff_witness :
  let s := mkState (@None (ReleaseData nat)) false in
  releasesCache s = None /\
  fst (hasUnviewedReleases None (Some "4.2.0") s) = true /\
  fst (hasUnviewedReleases (Some (mkReleaseData "4.2.0" [1%nat])) (Some "4.2.0")
         (snd (hasUnviewedReleases None (Some "4.2.0") s))) = true.
Proof.
  intros s. split; [reflexivity|].
  exact (proj2 (hasUnviewedReleases_false_iff None (Some (mkReleaseData "4.2.0" [1%nat]))
                  (Some "4.2.0") (Some "4.2.0") s) eq_refl eq_refl).
Defined.

End HookExamples.

(** ** Confirming outside the list *)

Section ConfirmEdge.
Import Checkpoint Machine.

(** X24: confirm succeeds exactly when the checkpoint cursor is an index
    of the derived list; otherwise (empty list, or a cursor left beyond a
    list that became shorter) it returns false and leaves the store as it
    is, so no checkpoint becomes pending. *)
Theorem confirmCheckpointSelectionAtom_succeeds_iff (h : Host) (s : Store) :
  (fst (confirmCheckpointSelectionAtom h s) = true <->
     0 <= selectedCheckpointIndexAtom s < checkpointCountAtom h s) /\
  (fst (confirmCheckpointSelectionAtom h s) = false ->
     confirmCheckpointSelectionAtom h s = (false, s)).
Proof.
  assert (Hcur : currentSelectedCheckpointAtom h s <> None <->
                 0 <= selectedCheckpointIndexAtom s < checkpointCountAtom h s).
  { split; [|apply currentSelectedCheckpointAtom_in_range].
    unfold currentSelectedCheckpointAtom, checkpointCountAtom.
    destruct (Z.ltb_spec (selectedCheckpointIndexAtom s) 0) as [Hneg|Hpos];
      cbn [orb]; [congruence|].
    destruct (Z.leb_spec (Z.of_nat (List.length (checkpointListAtom h s)))
                (selectedCheckpointIndexAtom s)) as [Hbig|Hin]; [congruence|].
    intros _. lia. }
  unfold confirmCheckpointSelectionAtom.
  destruct (currentSelectedCheckpointAtom h s) as [c|]; cbn [fst].
  - split; [|discriminate]. split; [intros _; now apply Hcur | reflexivity].
  - split; [|reflexivity]. split; [discriminate|].
    intros Hi. apply Hcur in Hi. congruence.
Qed.

End ConfirmEdge.
